(** * Data-Analytics-Agents: file ingestion and AI response interpretation

    A shallow embedding of [src/lib/file-processor.ts] (the classes
    [FileProcessor] and [AIAgentManager]) together with the properties of
    the directive grammar, the canned fixtures and the failure path; and
    of the code around it: the table and chart renderers, the sidebar
    dates, the storage code, and the upload, processing and chat routes.

    Strings are JavaScript strings: finite sequences of UTF-16 code units.
    A code unit is a natural number; [lit] turns an ASCII literal into the
    corresponding sequence of code units. *)

From Stdlib Require Import String Ascii List NArith ZArith QArith Bool Lia.
From Stdlib Require Import DecimalString.
Import ListNotations.

Close Scope Q_scope.
Open Scope string_scope.
Open Scope list_scope.


(* ================================================================== *)
(** ** Code units and strings *)

Module Js.

Abbreviation char := N (only parsing).
Abbreviation str := (list N) (only parsing).

Definition lit (s : string) : str := map N_of_ascii (list_ascii_of_string s).

Definition ch (a : ascii) : char := N_of_ascii a.

Definition char_eqb (a b : char) : bool := N.eqb a b.

Fixpoint str_eqb (a b : str) : bool :=
  match a, b with
  | [], [] => true
  | x :: a', y :: b' => char_eqb x y && str_eqb a' b'
  | _, _ => false
  end.

Definition between (lo hi c : char) : bool := (N.leb lo c && N.leb c hi)%bool.

(** [\d] *)
Definition isDigit (c : char) : bool := between 48 57 c.

(** [\w]: the basic word characters [A-Za-z0-9_]. *)
Definition isWordChar (c : char) : bool :=
  (between 97 122 c || between 65 90 c || isDigit c || char_eqb c 95)%bool.

(** WhiteSpace and LineTerminator code units: what [String.prototype.trim]
    removes and what [\s] matches. *)
Definition isWhiteSpace (c : char) : bool :=
  (between 9 13 c || char_eqb c 32 || char_eqb c 160 || char_eqb c 5760
   || between 8192 8202 c || char_eqb c 8232 || char_eqb c 8233
   || char_eqb c 8239 || char_eqb c 8287 || char_eqb c 12288
   || char_eqb c 65279)%bool.

Fixpoint dropWhile (p : char -> bool) (s : str) : str :=
  match s with
  | [] => []
  | c :: s' => if p c then dropWhile p s' else s
  end.

Fixpoint takeWhile (p : char -> bool) (s : str) : str :=
  match s with
  | [] => []
  | c :: s' => if p c then c :: takeWhile p s' else []
  end.

(** [s.trim()] *)
Definition trim (s : str) : str :=
  rev (dropWhile isWhiteSpace (rev (dropWhile isWhiteSpace s))).

(** [s.split(sep)] for a one-code-unit separator: never the empty array. *)
Fixpoint split (sep : char) (s : str) : list str :=
  match s with
  | [] => [[]]
  | c :: s' =>
      if char_eqb c sep then [] :: split sep s'
      else match split sep s' with
           | h :: t => (c :: h) :: t
           | [] => [[c]]
           end
  end.

(** [a.join(sep)] *)
Fixpoint join (sep : str) (l : list str) : str :=
  match l with
  | [] => []
  | [x] => x
  | x :: l' => x ++ sep ++ join sep l'
  end.

(** [x.slice(b, e)] on strings and arrays; a negative index counts from
    the end, [None] for an omitted end. *)
Definition slice {A : Type} (l : list A) (b : Z) (e : option Z) : list A :=
  let len := Z.of_nat (length l) in
  let clamp i := if (i <? 0)%Z then Z.max (len + i) 0 else Z.min i len in
  let from := clamp b in
  let to := match e with Some i => clamp i | None => len end in
  firstn (Z.to_nat (to - from)) (skipn (Z.to_nat from) l).

(** Decimal rendering of an integer, as a template hole or a string
    concatenation renders it. *)
Definition showN (n : N) : str := lit (NilZero.string_of_uint (N.to_uint n)).

Definition showZ (z : Z) : str := lit (NilZero.string_of_int (Z.to_int z)).

End Js.

Import Js.

(* ================================================================== *)
(** ** Regular expressions

    The fragment of the ECMAScript pattern language the source uses:
    single classes, greedy bounded repetition of a class, [\b],
    concatenation and alternation.  Matching is the backtracking search
    of the language definition, written with continuations. *)

Module Re.

Inductive regex : Type :=
| Eps
| Cls (p : char -> bool)
| Rep (p : char -> bool) (lo : nat) (hi : option nat)
| Bnd
| Seq (r1 r2 : regex)
| Alt (r1 r2 : regex).

Definition cont := option char -> str -> option str.

Definition more (hi : option nat) : bool :=
  match hi with Some O => false | _ => true end.

(** Greedy [p{lo,hi}]: take one more code unit when allowed, fall back to
    stopping here when the rest of the pattern fails. *)
Fixpoint rep (p : char -> bool) (lo : nat) (hi : option nat)
         (prev : option char) (s : str) (k : cont) {struct s} : option str :=
  let stop := match lo with O => k prev s | S _ => None end in
  match s with
  | c :: s' =>
      if (p c && more hi)%bool then
        match rep p (pred lo) (option_map pred hi) (Some c) s' k with
        | Some r => Some r
        | None => stop
        end
      else stop
  | [] => stop
  end.

Definition wordAt (c : option char) : bool :=
  match c with Some x => isWordChar x | None => false end.

Fixpoint run (r : regex) (prev : option char) (s : str) (k : cont) : option str :=
  match r with
  | Eps => k prev s
  | Cls p =>
      match s with
      | c :: s' => if p c then k (Some c) s' else None
      | [] => None
      end
  | Rep p lo hi => rep p lo hi prev s k
  | Bnd => if xorb (wordAt prev) (wordAt (hd_error s)) then k prev s else None
  | Seq r1 r2 => run r1 prev s (fun prev' s' => run r2 prev' s' k)
  | Alt r1 r2 =>
      match run r1 prev s k with
      | Some x => Some x
      | None => run r2 prev s k
      end
  end.

(** A match attempt at the cursor: the number of code units matched. *)
Definition exec_at (r : regex) (prev : option char) (s : str) : option nat :=
  match run r prev s (fun _ rest => Some rest) with
  | Some rest => Some (length s - length rest)
  | None => None
  end.

(** [re.test(s)] without the [g] flag: is there a match at some index. *)
Fixpoint test_from (r : regex) (prev : option char) (s : str) : bool :=
  match exec_at r prev s with
  | Some _ => true
  | None =>
      match s with
      | [] => false
      | c :: s' => test_from r (Some c) s'
      end
  end.

Definition test (r : regex) (s : str) : bool := test_from r None s.

(** [s.match(re)] with the [g] flag: every match, left to right, each
    search resuming where the last match ended.  [skip] is the number of
    code units of the current match the cursor still has to pass. *)
Fixpoint matches_from (r : regex) (prev : option char) (skip : nat) (s : str)
  : list str :=
  match s with
  | [] =>
      match skip, exec_at r prev [] with
      | O, Some _ => [[]]
      | _, _ => []
      end
  | c :: s' =>
      match skip with
      | S n => matches_from r (Some c) n s'
      | O =>
          match exec_at r prev s with
          | Some (S n) => firstn (S n) s :: matches_from r (Some c) n s'
          | Some O => [] :: matches_from r (Some c) 0 s'
          | None => matches_from r (Some c) 0 s'
          end
      end
  end.

(** The result of [s.match(re)]: [null] when nothing matches. *)
Definition match_g (r : regex) (s : str) : option (list str) :=
  match matches_from r None 0 s with
  | [] => None
  | l => Some l
  end.

(** [s.replace(re, empty)] with the [g] flag. *)
Fixpoint remove_from (r : regex) (prev : option char) (skip : nat) (s : str)
  : str :=
  match s with
  | [] => []
  | c :: s' =>
      match skip with
      | S n => remove_from r (Some c) n s'
      | O =>
          match exec_at r prev s with
          | Some (S n) => remove_from r (Some c) n s'
          | _ => c :: remove_from r (Some c) 0 s'
          end
      end
  end.

Definition remove_g (r : regex) (s : str) : str := remove_from r None 0 s.

(** Pattern builders. *)
Definition isChar (a : ascii) : char -> bool := fun c => char_eqb c (ch a).
Definition notChar (a : ascii) : char -> bool := fun c => negb (char_eqb c (ch a)).
Definition Lit (a : ascii) : regex := Cls (isChar a).

Fixpoint seq (rs : list regex) : regex :=
  match rs with
  | [] => Eps
  | [r] => r
  | r :: rs' => Seq r (seq rs')
  end.

Fixpoint alt (rs : list regex) : regex :=
  match rs with
  | [] => Cls (fun _ => false)
  | [r] => r
  | r :: rs' => Alt r (alt rs')
  end.

Definition word (s : string) : regex :=
  seq (map Lit (list_ascii_of_string s)).

(** A letter under the [i] flag: the code unit or its other case. *)
Definition isCI (a : ascii) : char -> bool :=
  fun c => let u := ch a in
           (char_eqb c u || (between 65 90 u && char_eqb c (u + 32))
            || (between 97 122 u && char_eqb c (u - 32)))%bool.

Definition wordCI (s : string) : regex :=
  seq (map (fun a => Cls (isCI a)) (list_ascii_of_string s)).

Definition Plus (p : char -> bool) : regex := Rep p 1 None.
Definition Times (p : char -> bool) (n : nat) : regex := Rep p n (Some n).

End Re.

Import Re.

(* ================================================================== *)
(** ** Exceptions and collaborators *)

Inductive exn : Type :=
| UnsupportedFileType (fileType : list N)   (* [new Error(`Unsupported file type: ...`)] *)
| TypeError                                 (* property read on [undefined] *)
| HostFailure (what : list N).              (* thrown by a collaborator *)

Inductive result (A : Type) : Type :=
| Ok (a : A)
| Throw (e : exn).

Arguments Ok {A} a.
Arguments Throw {A} e.

Definition bind {A B : Type} (m : result A) (f : A -> result B) : result B :=
  match m with
  | Ok a => f a
  | Throw e => Throw e
  end.

Notation "x <- m ;; k" := (bind m (fun x => k))
  (at level 61, m at next level, right associativity).

(* ================================================================== *)
(** ** [ProcessedFileData] *)

Inductive FileType : Type := Tlog | Tcsv | Txlsx | Ttxt.

Definition typeName (t : FileType) : list N :=
  match t with
  | Tlog => lit "log"
  | Tcsv => lit "csv"
  | Txlsx => lit "xlsx"
  | Ttxt => lit "txt"
  end.

Module Metadata.
Record t : Type := mk {
  size : N;
  lines : option nat;
  columns : option (list (list N));
  encoding : option (list N) }.
End Metadata.

Module LogStructure.
Record t : Type := mk {
  hasTimestamps : bool;
  hasLogLevels : bool;
  hasIpAddresses : bool;
  totalLines : nat }.
End LogStructure.

Module CsvStructure.
Record t : Type := mk {
  headers : option (list (list N));
  rows : Z;
  columns : nat;
  delimiter : list N }.
End CsvStructure.

Module XlsxStructure.
Record t : Type := mk {
  sheets : list (list N);
  format : list N }.
End XlsxStructure.

Inductive Structure : Type :=
| SLog (s : LogStructure.t)
| SCsv (s : CsvStructure.t)
| SXlsx (s : XlsxStructure.t).

Module ProcessedFileData.
Record t : Type := mk {
  type : FileType;
  content : list N;
  metadata : Metadata.t;
  preview : list N;
  structure : option Structure }.
End ProcessedFileData.

(* ================================================================== *)
(** ** [FileProcessor] *)

Module FileProcessor.

Definition newline : N := 10.

(** [content.split(newline).filter((line) => line.trim())]: a line is kept
    when its trimmed text is a non-empty string. *)
Definition nonEmpty (s : list N) : bool :=
  match s with [] => false | _ :: _ => true end.

Definition nonBlankLines (content : list N) : list (list N) :=
  filter (fun line => nonEmpty (trim line)) (split newline content).

Definition processTextFile (content : list N) (size : N) : ProcessedFileData.t :=
  let lines := split newline content in
  let preview := join [newline] (slice lines 0 (Some 10%Z)) in
  ProcessedFileData.mk Ttxt content
    (Metadata.mk size (Some (length lines)) None (Some (lit "utf-8")))
    preview None.

(** The three patterns of [logPatterns]. *)
Definition timestampPattern : regex :=
  seq [Times isDigit 4; Lit "-"; Times isDigit 2; Lit "-"; Times isDigit 2;
       Cls (fun c => isWhiteSpace c || isChar "T" c);
       Times isDigit 2; Lit ":"; Times isDigit 2; Lit ":"; Times isDigit 2].

Definition levelPattern : regex :=
  seq [Bnd;
       alt [wordCI "ERROR"; wordCI "WARN"; wordCI "INFO"; wordCI "DEBUG";
            wordCI "TRACE"; wordCI "FATAL"];
       Bnd].

Definition ipPattern : regex :=
  seq [Bnd; Rep isDigit 1 (Some 3); Lit "."; Rep isDigit 1 (Some 3); Lit ".";
       Rep isDigit 1 (Some 3); Lit "."; Rep isDigit 1 (Some 3); Bnd].

Definition processLogFile (content : list N) (size : N) : ProcessedFileData.t :=
  let lines := nonBlankLines content in
  let preview := join [newline] (slice lines 0 (Some 10%Z)) in
  let structure :=
    LogStructure.mk (test timestampPattern content)
                    (test levelPattern content)
                    (test ipPattern content)
                    (length lines) in
  ProcessedFileData.mk Tlog content
    (Metadata.mk size (Some (length lines)) None (Some (lit "utf-8")))
    preview (Some (SLog structure)).

(** The pattern of [replace] in the header cells: one double quote
    (code unit 34), with the [g] flag. *)
Definition quotePattern : regex := Cls (fun c => char_eqb c 34).

(** [h.trim().replace(..., empty)] *)
Definition headerCell (h : list N) : list N := remove_g quotePattern (trim h).

(** [headers?.length || 0] *)
Definition lengthOrZero (headers : option (list (list N))) : nat :=
  match headers with
  | Some hs => length hs
  | None => 0
  end.

Definition processCsvFile (content : list N) (size : N) : ProcessedFileData.t :=
  let lines := nonBlankLines content in
  let headers :=
    match nth_error lines 0 with
    | Some line0 => Some (map headerCell (split (ch ",") line0))
    | None => None
    end in
  let preview := join [newline] (slice lines 0 (Some 6%Z)) in
  let structure :=
    CsvStructure.mk headers (Z.of_nat (length lines) - 1) (lengthOrZero headers)
                    (lit ",") in
  ProcessedFileData.mk Tcsv content
    (Metadata.mk size (Some (length lines)) headers (Some (lit "utf-8")))
    preview (Some (SCsv structure)).

Definition processExcelFile (filePath : list N) (size : N) : ProcessedFileData.t :=
  let preview :=
    lit "Excel file processing requires additional libraries. File uploaded successfully." in
  ProcessedFileData.mk Txlsx (lit "Excel file content (binary)")
    (Metadata.mk size None None (Some (lit "binary")))
    preview
    (Some (SXlsx (XlsxStructure.mk [lit "Sheet1"] (lit "xlsx")))).

(** The file system as [processFile] uses it. *)
Record Fs : Type := {
  readFileSync : list N -> result (list N);
  statSyncSize : list N -> result N }.

Definition processFile (fs : Fs) (filePath fileType : list N)
  : result ProcessedFileData.t :=
  fileContent <- readFileSync fs filePath ;;
  fileSize <- statSyncSize fs filePath ;;
  if str_eqb fileType (lit "txt") then Ok (processTextFile fileContent fileSize)
  else if str_eqb fileType (lit "log") then Ok (processLogFile fileContent fileSize)
  else if str_eqb fileType (lit "csv") then Ok (processCsvFile fileContent fileSize)
  else if str_eqb fileType (lit "xlsx") then Ok (processExcelFile filePath fileSize)
  else Throw (UnsupportedFileType fileType).

(** *** [formatFileSize]

    [bytes] is a byte count.  [bytes / Math.pow(k, i)] divides by a power
    of two and [toFixed(2)] rounds the exact quotient to the nearest
    hundredth, ties upwards; both are computed here on integers.
    [Math.floor(Math.log(bytes) / Math.log(k))] is taken at its
    mathematical value, the integer logarithm to base 1024.  That is the
    value of the floating-point computation for every byte count up to
    1024^4: the quotient is exact at the powers of 1024, and below a power
    it stays under the next integer by far more than the rounding error.
    Close below 1024^5 the rounded quotient reaches 5 early; the model
    does not follow the code there, and no statement below depends on the
    rendering of a byte count above 1024^4. *)

Definition sizes : list (list N) := [lit "Bytes"; lit "KB"; lit "MB"; lit "GB"].

Definition floorLog1024 (bytes : N) : nat := N.to_nat (N.log2 bytes / 10).

(** [(bytes / d).toFixed(2)], as a number of hundredths. *)
Definition toFixed2 (bytes d : N) : N := ((200 * bytes + d) / (2 * d))%N.

(** [Number.parseFloat(...)] of a number of hundredths, as the string
    concatenation renders it: the shortest decimal, without trailing zeros. *)
Definition showHundredths (n : N) : list N :=
  let whole := showN (n / 100) in
  let frac := (n mod 100)%N in
  if (frac =? 0)%N then whole
  else if (frac mod 10 =? 0)%N then whole ++ lit "." ++ showN (frac / 10)
  else whole ++ lit "." ++ showN (frac / 10) ++ showN (frac mod 10).

Definition formatFileSize (bytes : N) : list N :=
  if (bytes =? 0)%N then lit "0 Bytes"
  else
    let k := 1024%N in
    let i := floorLog1024 bytes in
    showHundredths (toFixed2 bytes (k ^ N.of_nat i))
      ++ lit " " ++ nth i sizes (lit "undefined").

(** A template hole [${x}] for an optional number. *)
Definition showOptNat (n : option nat) : list N :=
  match n with
  | Some k => showN (N.of_nat k)
  | None => lit "undefined"
  end.

(** [generateSummary].  The [log] and [csv] cases read fields of
    [structure]: an absent structure makes the read throw, a structure of
    another shape yields [undefined] for each field. *)
Definition generateSummary (processedData : ProcessedFileData.t) : result (list N) :=
  let metadata := ProcessedFileData.metadata processedData in
  let structure := ProcessedFileData.structure processedData in
  match ProcessedFileData.type processedData with
  | Ttxt =>
      Ok (lit "Text file with " ++ showOptNat (Metadata.lines metadata)
          ++ lit " lines (" ++ formatFileSize (Metadata.size metadata) ++ lit ")")
  | Tlog =>
      match structure with
      | None => Throw TypeError
      | Some logInfo =>
          let flag (f : LogStructure.t -> bool) :=
            match logInfo with SLog l => f l | _ => false end in
          Ok (lit "Log file with " ++ showOptNat (Metadata.lines metadata)
              ++ lit " entries. "
              ++ (if flag LogStructure.hasTimestamps then lit "Contains timestamps. " else [])
              ++ (if flag LogStructure.hasLogLevels then lit "Contains log levels. " else [])
              ++ (if flag LogStructure.hasIpAddresses then lit "Contains IP addresses." else []))
      end
  | Tcsv =>
      match structure with
      | None => Throw TypeError
      | Some (SCsv csvInfo) =>
          Ok (lit "CSV file with " ++ showZ (CsvStructure.rows csvInfo)
              ++ lit " rows and " ++ showN (N.of_nat (CsvStructure.columns csvInfo))
              ++ lit " columns. Headers: "
              ++ match CsvStructure.headers csvInfo with
                 | Some hs =>
                     join (lit ", ") (slice hs 0 (Some 3%Z))
                       ++ (if (3 <? length hs)%nat then lit "..." else [])
                 | None => lit "undefined"
                 end)
      | Some _ =>
          Ok (lit "CSV file with undefined rows and undefined columns. Headers: undefined")
      end
  | Txlsx =>
      Ok (lit "Excel file (" ++ formatFileSize (Metadata.size metadata)
          ++ lit "). Full processing available after upload.")
  end.

End FileProcessor.

(* ================================================================== *)
(** ** [AgentResponse] and its parts *)

Module Dataset.
Record t : Type := mk {
  label : list N;
  data : list Z }.
End Dataset.

Module ChartData.
Record t : Type := mk {
  labels : list (list N);
  datasets : list Dataset.t }.
End ChartData.

(** The rendering hints: [baseConfig], and [scales.y.beginAtZero] where the
    chart type adds it. *)
Module ChartConfig.
Record t : Type := mk {
  responsive : bool;
  legendPosition : list N;
  titleDisplay : bool;
  titleText : list N;
  scalesYBeginAtZero : option bool }.
End ChartConfig.

Module VisualizationData.
Record t : Type := mk {
  type : list N;
  chartType : list N;
  title : list N;
  description : list N;
  data : ChartData.t;
  config : ChartConfig.t }.
End VisualizationData.

Module TableData.
Record t : Type := mk {
  title : list N;
  description : list N;
  headers : list (list N);
  rows : list (list (list N)) }.
End TableData.

Module AgentResponse.
Record t : Type := mk {
  content : list N;
  visualizations : option (list VisualizationData.t);
  tables : option (list TableData.t);
  confidence : Q;
  sources : list (list N) }.
End AgentResponse.

(** A row of the store's [files] table. *)
Module FileRecord.
Record t : Type := mk {
  id : Z;
  user_id : Z;
  filename : list N;
  file_path : list N;
  file_type : list N;
  file_size : N;
  upload_date : list N }.
End FileRecord.

(** An entry of the conversation history, as the prompt reads it. *)
Module ChatMessage.
Record t : Type := mk {
  role : list N;
  content : list N }.
End ChatMessage.

(** Everything [AIAgentManager] reaches outside itself. *)
Module Host.
Record t : Type := mk {
  fs : FileProcessor.Fs;
  getFile : Z -> result (option FileRecord.t);
  generateText : list N -> list N -> result (list N);
  JSON_stringify : Structure -> list N;
  toUpperCase : list N -> list N }.
End Host.

(* ================================================================== *)
(** ** [AIAgentManager] *)

Module AIAgentManager.

Import FileProcessor.

(** *** Prompt construction *)

Definition buildFileContext (host : Host.t) (file : FileRecord.t)
           (processedData : ProcessedFileData.t) : result (list N) :=
  summary <- generateSummary processedData ;;
  let context :=
    lit "File Information:
- Name: " ++ FileRecord.filename file ++ lit "
- Type: " ++ Host.toUpperCase host (FileRecord.file_type file) ++ lit "
- Size: " ++ formatFileSize (FileRecord.file_size file) ++ lit "
- Summary: " ++ summary ++ lit "

File Preview:
" ++ ProcessedFileData.preview processedData ++ lit "
" in
  match ProcessedFileData.structure processedData with
  | Some structure =>
      Ok (context ++ lit "
File Structure: " ++ Host.JSON_stringify host structure)
  | None => Ok context
  end.

Definition buildConversationContext (history : list ChatMessage.t) : list N :=
  match history with
  | [] => []
  | _ =>
      let recentHistory := slice history (-6) None in
      join [newline]
        (map (fun msg =>
                (if str_eqb (ChatMessage.role msg) (lit "user")
                 then lit "User" else lit "Assistant")
                  ++ lit ": " ++ ChatMessage.content msg)
             recentHistory)
  end.

Definition basePrompt : list N :=
  lit "You are an AI Agent specialized in analyzing and answering questions about uploaded files. You provide accurate, helpful responses based on the file content and user queries.

Key capabilities:
- Analyze data patterns and trends
- Generate insights and summaries
- Suggest visualizations when appropriate
- Answer specific questions about file content
- Provide actionable recommendations

Guidelines:
- Always base your responses on the actual file content provided
- Be specific and cite relevant parts of the data when possible
- Suggest visualizations using the format: [VIZ:chartType:title:description] where chartType is bar, line, pie, or area
- Suggest tables using the format: [TABLE:title:description]
- If you cannot answer based on the available data, say so clearly
- Keep responses concise but comprehensive

Examples:
- For trend analysis: [VIZ:line:Sales Trend Over Time:Shows the progression of sales data across months]
- For categorical data: [VIZ:bar:Revenue by Category:Compares revenue across different product categories]
- For proportions: [VIZ:pie:Market Share Distribution:Shows the percentage breakdown of market share]
- For cumulative data: [VIZ:area:Cumulative Growth:Displays accumulated growth over time]".

Definition buildSystemPrompt (fileContext : list N) (fileType : option FileType)
  : list N :=
  if nonEmpty fileContext then
    basePrompt ++ lit "

Current File Context:
" ++ fileContext
  else basePrompt.

Definition buildUserPrompt (query conversationContext : list N) : list N :=
  if nonEmpty conversationContext then
    lit "Previous conversation:
" ++ conversationContext ++ lit "

Current question: " ++ query
  else query.

(** *** Canned fixtures *)

Definition series (label : string) (data : list Z) : Dataset.t :=
  Dataset.mk (lit label) data.

Definition generateDefaultVisualizationData (chartType : list N) : ChartData.t :=
  ChartData.mk
    [lit "Category A"; lit "Category B"; lit "Category C"; lit "Category D"]
    [series "Sample Data" [30; 45; 25; 35]%Z].

Definition generateCSVVisualizationData (chartType : list N)
           (data : ProcessedFileData.t) : ChartData.t :=
  if str_eqb chartType (lit "line") then
    ChartData.mk
      [lit "Jan"; lit "Feb"; lit "Mar"; lit "Apr"; lit "May"; lit "Jun"]
      [series "Sales" [12000; 19000; 15000; 25000; 22000; 30000]%Z;
       series "Profit" [3000; 4500; 3800; 6200; 5500; 7500]%Z]
  else if str_eqb chartType (lit "pie") then
    ChartData.mk
      [lit "Product A"; lit "Product B"; lit "Product C"; lit "Product D"]
      [series "Revenue Share" [35; 25; 20; 20]%Z]
  else if str_eqb chartType (lit "area") then
    ChartData.mk
      [lit "Q1"; lit "Q2"; lit "Q3"; lit "Q4"]
      [series "Revenue" [45000; 52000; 48000; 61000]%Z;
       series "Costs" [32000; 38000; 35000; 42000]%Z]
  else
    ChartData.mk
      [lit "North"; lit "South"; lit "East"; lit "West"; lit "Central"]
      [series "Sales" [23000; 18000; 31000; 15000; 27000]%Z].

Definition generateLogVisualizationData (chartType : list N)
           (data : ProcessedFileData.t) : ChartData.t :=
  if str_eqb chartType (lit "pie") then
    ChartData.mk
      [lit "ERROR"; lit "WARN"; lit "INFO"; lit "DEBUG"]
      [series "Log Levels" [8; 15; 62; 15]%Z]
  else if str_eqb chartType (lit "line") then
    ChartData.mk
      [lit "00:00"; lit "04:00"; lit "08:00"; lit "12:00"; lit "16:00"; lit "20:00"]
      [series "Error Count" [2; 1; 8; 12; 15; 6]%Z;
       series "Warning Count" [5; 3; 12; 18; 22; 10]%Z]
  else
    ChartData.mk
      [lit "Authentication"; lit "Database"; lit "API"; lit "Network"; lit "System"]
      [series "Error Count" [12; 8; 15; 6; 9]%Z].

Definition generateVisualizationData (chartType : list N)
           (processedData : option ProcessedFileData.t) : ChartData.t :=
  match processedData with
  | None => generateDefaultVisualizationData chartType
  | Some pd =>
      match ProcessedFileData.type pd with
      | Tcsv => generateCSVVisualizationData chartType pd
      | Tlog => generateLogVisualizationData chartType pd
      | _ => generateDefaultVisualizationData chartType
      end
  end.

Definition generateTableData (processedData : option ProcessedFileData.t)
  : list (list N) * list (list (list N)) :=
  match processedData with
  | None =>
      ([lit "Item"; lit "Value"; lit "Status"],
       [[lit "Sample Item 1"; lit "100"; lit "Active"];
        [lit "Sample Item 2"; lit "250"; lit "Pending"];
        [lit "Sample Item 3"; lit "75"; lit "Complete"]])
  | Some pd =>
      match ProcessedFileData.type pd with
      | Tcsv =>
          ([lit "Product"; lit "Sales"; lit "Growth"; lit "Region"],
           [[lit "Product A"; lit "$45,000"; lit "+12%"; lit "North"];
            [lit "Product B"; lit "$32,000"; lit "+8%"; lit "South"];
            [lit "Product C"; lit "$58,000"; lit "+15%"; lit "East"];
            [lit "Product D"; lit "$41,000"; lit "+5%"; lit "West"];
            [lit "Product E"; lit "$37,000"; lit "+10%"; lit "Central"]])
      | Tlog =>
          ([lit "Timestamp"; lit "Level"; lit "Component"; lit "Message"],
           [[lit "2024-01-15 10:30:15"; lit "ERROR"; lit "Database"; lit "Connection timeout"];
            [lit "2024-01-15 10:30:16"; lit "WARN"; lit "API"; lit "Rate limit approaching"];
            [lit "2024-01-15 10:30:17"; lit "INFO"; lit "Auth"; lit "User login successful"];
            [lit "2024-01-15 10:30:18"; lit "DEBUG"; lit "Cache"; lit "Cache miss for key: user_123"]])
      | _ =>
          ([lit "Key"; lit "Value"; lit "Type"],
           [[lit "Total Records"; lit "1,234"; lit "Count"];
            [lit "Average Size"; lit "2.5 MB"; lit "Size"];
            [lit "Processing Time"; lit "0.8s"; lit "Duration"]])
      end
  end.

Definition generateVisualizationConfig (chartType : list N) : ChartConfig.t :=
  let baseConfig scales :=
    ChartConfig.mk true (lit "top") true (lit "Data Visualization") scales in
  if (str_eqb chartType (lit "line") || str_eqb chartType (lit "bar")
      || str_eqb chartType (lit "area"))%bool
  then baseConfig (Some true)
  else baseConfig None.

(** *** Directive patterns *)

(** The extraction pattern for [VIZ] directives: three colon-separated
    fields between [VIZ:] and the closing bracket. *)
Definition vizPattern : regex :=
  seq [word "[VIZ:"; Plus (notChar ":"); Lit ":"; Plus (notChar ":"); Lit ":";
       Plus (notChar "]"); Lit "]"].

(** The extraction pattern for [TABLE] directives. *)
Definition tablePattern : regex :=
  seq [word "[TABLE:"; Plus (notChar ":"); Lit ":"; Plus (notChar "]"); Lit "]"].

(** The two patterns of the clean-up step. *)
Definition vizStripPattern : regex :=
  seq [word "[VIZ:"; Plus (notChar "]"); Lit "]"].

Definition tableStripPattern : regex :=
  seq [word "[TABLE:"; Plus (notChar "]"); Lit "]"].

(** *** [parseAIResponse] *)

Definition vizOfMatch (processedData : option ProcessedFileData.t)
           (m : list N) : list VisualizationData.t :=
  let parts := split (ch ":") (slice m 5 (Some (-1)%Z)) in
  if (3 <=? length parts)%nat then
    let chartType := nth 0 parts [] in
    [VisualizationData.mk (lit "chart") chartType (nth 1 parts []) (nth 2 parts [])
       (generateVisualizationData chartType processedData)
       (generateVisualizationConfig chartType)]
  else [].

Definition tableOfMatch (processedData : option ProcessedFileData.t)
           (m : list N) : list TableData.t :=
  let parts := split (ch ":") (slice m 7 (Some (-1)%Z)) in
  if (2 <=? length parts)%nat then
    let generated := generateTableData processedData in
    [TableData.mk (nth 0 parts []) (nth 1 parts []) (fst generated) (snd generated)]
  else [].

(** The clean-up step: both kinds of bracketed token removed, then trimmed. *)
Definition cleanedText (text : list N) : list N :=
  trim (remove_g tableStripPattern (remove_g vizStripPattern text)).

Definition parseAIResponse (text : list N)
           (processedData : option ProcessedFileData.t) : AgentResponse.t :=
  let visualizations :=
    match match_g vizPattern text with
    | Some vizMatches => flat_map (vizOfMatch processedData) vizMatches
    | None => []
    end in
  let tables :=
    match match_g tablePattern text with
    | Some tableMatches => flat_map (tableOfMatch processedData) tableMatches
    | None => []
    end in
  AgentResponse.mk (cleanedText text) (Some visualizations) (Some tables)
    (85 # 100)%Q
    match processedData with
    | Some pd => [typeName (ProcessedFileData.type pd)]
    | None => []
    end.

(** *** [processQuery] *)

(** The response of the [catch] block: no [visualizations] and no
    [tables] field. *)
Definition fallbackResponse : AgentResponse.t :=
  AgentResponse.mk
    (lit "I apologize, but I encountered an error while processing your request. Please try again.")
    None None 0%Q [].

(** A file id is used when it is truthy. *)
Definition truthyId (fileId : option Z) : option Z :=
  match fileId with
  | Some 0%Z => None
  | other => other
  end.

(** The file part of the [try] block: the processed file and its context. *)
Definition loadFile (host : Host.t) (fileId : option Z)
  : result (list N * option ProcessedFileData.t) :=
  match truthyId fileId with
  | None => Ok ([], None)
  | Some fid =>
      found <- Host.getFile host fid ;;
      match found with
      | None => Ok ([], None)
      | Some file =>
          processedData <- processFile (Host.fs host) (FileRecord.file_path file)
                                       (FileRecord.file_type file) ;;
          fileContext <- buildFileContext host file processedData ;;
          Ok (fileContext, Some processedData)
      end
  end.

(** The prompts handed to the generation call. *)
Definition prompts (query : list N) (history : list ChatMessage.t)
           (fileContext : list N) (processedData : option ProcessedFileData.t)
  : list N * list N :=
  let conversationContext := buildConversationContext history in
  (buildSystemPrompt fileContext (option_map ProcessedFileData.type processedData),
   buildUserPrompt query conversationContext).

(** The [try] block. *)
Definition tryProcessQuery (host : Host.t) (query : list N) (fileId : option Z)
           (conversationHistory : list ChatMessage.t) : result AgentResponse.t :=
  loaded <- loadFile host fileId ;;
  let '(fileContext, processedData) := loaded in
  let '(systemPrompt, userPrompt) :=
    prompts query conversationHistory fileContext processedData in
  text <- Host.generateText host systemPrompt userPrompt ;;
  Ok (parseAIResponse text processedData).

(** [processQuery]: the response, and what was written to the error console. *)
Definition processQuery (host : Host.t) (query : list N) (fileId : option Z)
           (conversationHistory : list ChatMessage.t)
  : AgentResponse.t * list exn :=
  match tryProcessQuery host query fileId conversationHistory with
  | Ok response => (response, [])
  | Throw error => (fallbackResponse, [error])
  end.

End AIAgentManager.


(* ================================================================== *)
(** ** The shape of a directive match

    What each directive pattern accepts at the cursor, written directly:
    the literal opening, then fields, each a non-empty maximal run of code
    units other than its closing one.  The result is the text left after
    the match. *)

Module Shape.

(** [s] without its prefix [pfx], when it starts with it. *)
Fixpoint stripPrefix (pfx s : list N) : option (list N) :=
  match pfx with
  | [] => Some s
  | a :: pfx' =>
      match s with
      | c :: s' => if char_eqb c a then stripPrefix pfx' s' else None
      | [] => None
      end
  end.

(** A field closed by [close]: the maximal run of other code units, which
    must not be empty, and the text after the closing code unit. *)
Definition field (close : ascii) (s : list N) : option (list N * list N) :=
  match takeWhile (notChar close) s, dropWhile (notChar close) s with
  | _ :: _, _ :: rest => Some (takeWhile (notChar close) s, rest)
  | _, _ => None
  end.

Definition andThen {A B : Type} (m : option A) (f : A -> option B) : option B :=
  match m with Some a => f a | None => None end.

(** The clean-up patterns: the opening, then anything up to the first
    closing bracket. *)
Definition tokenRest (pfx : string) (s : list N) : option (list N) :=
  andThen (stripPrefix (lit pfx) s) (fun s1 =>
  andThen (field "]" s1) (fun fr => Some (snd fr))).

(** The extraction patterns. *)
Definition vizRest (s : list N) : option (list N) :=
  andThen (stripPrefix (lit "[VIZ:") s) (fun s1 =>
  andThen (field ":" s1) (fun fr1 =>
  andThen (field ":" (snd fr1)) (fun fr2 =>
  andThen (field "]" (snd fr2)) (fun fr3 => Some (snd fr3))))).

Definition tableRest (s : list N) : option (list N) :=
  andThen (stripPrefix (lit "[TABLE:") s) (fun s1 =>
  andThen (field ":" s1) (fun fr1 =>
  andThen (field "]" (snd fr1)) (fun fr2 => Some (snd fr2)))).

(** An attempt that does not read the code unit before the cursor. *)
Definition prevFree (f : option N -> list N -> option (list N)) : Prop :=
  forall p1 p2 s, f p1 s = f p2 s.

(** The continuation at the end of a pattern. *)
Definition done : cont := fun _ rest => Some rest.

(** A shape that can only start at an opening bracket. *)
Definition anchored (restOf : list N -> option (list N)) : Prop :=
  restOf [] = None /\ forall c s, c <> ch "[" -> restOf (c :: s) = None.

(** The text after the first occurrence of a code unit. *)
Definition afterClose (close : ascii) (s : list N) : list N :=
  tl (dropWhile (notChar close) s).


End Shape.

(* ================================================================== *)
(** ** Vocabulary of the statements *)

Module Statements.
Import FileProcessor AIAgentManager.

(** The structure summary of a processed log or csv file. *)
Definition logInfo (p : ProcessedFileData.t) : option LogStructure.t :=
  match ProcessedFileData.structure p with
  | Some (SLog l) => Some l
  | _ => None
  end.

Definition csvInfo (p : ProcessedFileData.t) : option CsvStructure.t :=
  match ProcessedFileData.structure p with
  | Some (SCsv c) => Some c
  | _ => None
  end.

(** [tag] occurs in [s] as a substring. *)
Definition occursIn (tag s : list N) : Prop :=
  exists before after, s = before ++ tag ++ after.

(** A code unit does not occur in a string. *)
Definition without (a : ascii) (s : list N) : Prop := ~ In (ch a) s.

(** A date, one white-space code unit or the letter T, and a time:
    [dddd-dd-dd?dd:dd:dd]. *)
Definition isDateTime (ts : list N) : bool :=
  match ts with
  | [y1; y2; y3; y4; d1; m1; m2; d2; a1; a2; sep; h1; h2; c1; n1; n2; c2; s1; s2] =>
      (isDigit y1 && isDigit y2 && isDigit y3 && isDigit y4 && char_eqb d1 (ch "-")
       && isDigit m1 && isDigit m2 && char_eqb d2 (ch "-")
       && isDigit a1 && isDigit a2
       && (isWhiteSpace sep || char_eqb sep (ch "T"))
       && isDigit h1 && isDigit h2 && char_eqb c1 (ch ":")
       && isDigit n1 && isDigit n2 && char_eqb c2 (ch ":")
       && isDigit s1 && isDigit s2)%bool
  | _ => false
  end.

(** Stripping only the surrounding double quotes of a cell, as the
    specification words it: one leading and one trailing quote, when there. *)
Definition stripSurroundingQuotes (cell : list N) : list N :=
  let dropLeading s :=
    match s with
    | c :: s' => if char_eqb c 34 then s' else s
    | [] => s
    end in
  rev (dropLeading (rev (dropLeading cell))).

(** The last code unit before the cursor after reading [a]. *)
Definition lastChar (prev : option N) (a : list N) : option N :=
  fold_left (fun _ c => Some c) a prev.

(** *** Well-formed generated text

    A text made of plain stretches and well-formed directives.  A plain
    stretch has no opening bracket; a field of a directive is non-empty
    and has no colon and no bracket. *)

Inductive segment : Type :=
| Plain (s : list N)
| VizTag (chartKind title description : list N)
| TableTag (title description : list N).

Definition fieldOk (f : list N) : Prop :=
  f <> [] /\ without ":" f /\ without "]" f /\ without "[" f.

Definition segmentOk (g : segment) : Prop :=
  match g with
  | Plain s => without "[" s
  | VizTag k t d => fieldOk k /\ fieldOk t /\ fieldOk d
  | TableTag t d => fieldOk t /\ fieldOk d
  end.

Definition vizTag (chartKind title description : list N) : list N :=
  lit "[VIZ:" ++ chartKind ++ lit ":" ++ title ++ lit ":" ++ description ++ lit "]".

Definition tableTag (title description : list N) : list N :=
  lit "[TABLE:" ++ title ++ lit ":" ++ description ++ lit "]".

Definition render (g : segment) : list N :=
  match g with
  | Plain s => s
  | VizTag k t d => vizTag k t d
  | TableTag t d => tableTag t d
  end.

Definition renderAll (segs : list segment) : list N := concat (map render segs).

(** The text outside the directives. *)
Definition plainText (segs : list segment) : list N :=
  concat (map (fun g => match g with Plain s => s | _ => [] end) segs).

(** The visualization a [VIZ] directive stands for. *)
Definition vizFor (processedData : option ProcessedFileData.t)
           (chartKind title description : list N) : VisualizationData.t :=
  VisualizationData.mk (lit "chart") chartKind title description
    (generateVisualizationData chartKind processedData)
    (generateVisualizationConfig chartKind).

(** The table a [TABLE] directive stands for. *)
Definition tableFor (processedData : option ProcessedFileData.t)
           (title description : list N) : TableData.t :=
  TableData.mk title description
    (fst (generateTableData processedData)) (snd (generateTableData processedData)).

Definition vizOf (processedData : option ProcessedFileData.t)
           (segs : list segment) : list VisualizationData.t :=
  flat_map (fun g => match g with
                     | VizTag k t d => [vizFor processedData k t d]
                     | _ => []
                     end) segs.

Definition tablesOf (processedData : option ProcessedFileData.t)
           (segs : list segment) : list TableData.t :=
  flat_map (fun g => match g with
                     | TableTag t d => [tableFor processedData t d]
                     | _ => []
                     end) segs.

(** The text between the opening and the closing of a tag. *)
Definition vizBody (k t d : list N) : list N := k ++ ch ":" :: t ++ ch ":" :: d.
Definition tableBody (t d : list N) : list N := t ++ ch ":" :: d.

(** The tags of each kind, in text order. *)
Definition vizTagsOf (segs : list segment) : list (list N) :=
  flat_map (fun g => match g with VizTag k t d => [vizTag k t d] | _ => [] end) segs.

Definition tableTagsOf (segs : list segment) : list (list N) :=
  flat_map (fun g => match g with TableTag t d => [tableTag t d] | _ => [] end) segs.

Definition isViz (g : segment) : bool :=
  match g with VizTag _ _ _ => true | _ => false end.

Definition isTable (g : segment) : bool :=
  match g with TableTag _ _ => true | _ => false end.

(** The segments left by each pass of the clean-up. *)
Definition dropViz (segs : list segment) : list segment :=
  filter (fun g => negb (isViz g)) segs.

Definition dropTable (segs : list segment) : list segment :=
  filter (fun g => negb (isTable g)) segs.

(** Every row of a table is as long as its header list. *)
Definition uniformRows (t : TableData.t) : Prop :=
  Forall (fun row => length row = length (TableData.headers t)) (TableData.rows t).

(** Sample inputs. *)
Definition sampleCsvText : list N :=
  lit "a,b,c
1,2,3
4,5,6".

Definition sampleCsv : ProcessedFileData.t := processCsvFile sampleCsvText 17.

(** A header line with a double quote inside its first cell. *)
Definition quotedHeaderText : list N := lit "a" ++ [34%N] ++ lit "b,c".

Definition sampleLogLine : list N :=
  lit "2024-01-15 10:30:00 ERROR 192.168.1.1 failed".

(** A host whose store is empty and whose generation call fails. *)
Definition failingHost : Host.t :=
  Host.mk
    {| readFileSync := fun _ => Throw (HostFailure (lit "ENOENT"));
       statSyncSize := fun _ => Throw (HostFailure (lit "ENOENT")) |}
    (fun _ => Ok None)
    (fun _ _ => Throw (HostFailure (lit "quota exceeded")))
    (fun _ => [])
    (fun s => s).

(** A store with one csv file, and a generation call that answers. *)
Definition sampleRecord : FileRecord.t :=
  FileRecord.mk 1 1 (lit "sales.csv") (lit "uploads/1/sales.csv") (lit "csv") 17
                (lit "2024-01-15 10:30:00").

Definition answeringHost (answer : list N) : Host.t :=
  Host.mk
    {| readFileSync := fun _ => Ok sampleCsvText;
       statSyncSize := fun _ => Ok 17%N |}
    (fun fid => Ok (if (fid =? 1)%Z then Some sampleRecord else None))
    (fun _ _ => Ok answer)
    (fun _ => lit "{}")
    (fun s => s).

End Statements.

(* ================================================================== *)
(** * The renderers of a response

    [exportToCSV] of the table renderer and the data transformation of the
    chart renderer, which consume the tables and visualizations of an
    [AgentResponse]. *)

Module TableRenderer.

Import FileProcessor.

(** A cell between double quotes. *)
Definition quoted (cell : list N) : list N := [34%N] ++ cell ++ [34%N].

(** [csvContent] of [exportToCSV]: the header line, then one line per row
    with every cell quoted. *)
Definition csvContent (headers : list (list N)) (rows : list (list (list N)))
  : list N :=
  join [newline]
       (join (lit ",") headers
        :: map (fun row => join (lit ",") (map (fun cell => quoted cell) row)) rows).

Definition exportToCSV (table : TableData.t) : list N :=
  csvContent (TableData.headers table) (TableData.rows table).

End TableRenderer.

Module ChartRenderer.

Import FileProcessor.

(** A property value of a data point: the label or a number. *)
Inductive value : Type :=
| Text (s : list N)
| Number (z : Z).

(** A data point is an object: its properties, by key. *)
Definition object : Type := list (list N * value).

(** An own property [key] of [o] created, or overwritten where it is. *)
Fixpoint setOwn (key : list N) (v : value) (o : object) : object :=
  match o with
  | [] => [(key, v)]
  | (k, w) :: rest =>
      if str_eqb k key then (k, v) :: rest else (k, w) :: setOwn key v rest
  end.

(** [o[key] = v], for a text or a number [v].  Under the key [__proto__]
    the assignment goes to the setter the object inherits, which ignores
    a value that is no object: no own property is made.  Under every other
    key the own property is created or overwritten. *)
Definition assign (key : list N) (v : value) (o : object) : object :=
  if str_eqb key (lit "__proto__") then o else setOwn key v o.

(** The own property of [o] under [key], if it has one. *)
Fixpoint lookup (key : list N) (o : object) : option value :=
  match o with
  | [] => None
  | (k, w) :: rest => if str_eqb k key then Some w else lookup key rest
  end.

(** [dataset.label || `Dataset ${datasetIndex + 1}`] *)
Definition dataKey (dataset : Dataset.t) (datasetIndex : nat) : list N :=
  if nonEmpty (Dataset.label dataset) then Dataset.label dataset
  else lit "Dataset " ++ showN (N.of_nat (datasetIndex + 1)).

(** [dataset.data[index] || 0] *)
Definition valueAt (dataset : Dataset.t) (index : nat) : Z :=
  nth index (Dataset.data dataset) 0%Z.

(** [data.datasets.forEach(...)] on the data point of one label. *)
Fixpoint forEachDataset (datasets : list Dataset.t) (datasetIndex index : nat)
         (dataPoint : object) : object :=
  match datasets with
  | [] => dataPoint
  | dataset :: rest =>
      forEachDataset rest (S datasetIndex) index
        (assign (dataKey dataset datasetIndex) (Number (valueAt dataset index))
                dataPoint)
  end.

Fixpoint mapLabels (labels : list (list N)) (index : nat)
         (datasets : list Dataset.t) : list object :=
  match labels with
  | [] => []
  | label :: rest =>
      forEachDataset datasets 0 index [(lit "name", Text label)]
        :: mapLabels rest (S index) datasets
  end.

(** [chartData] of [renderChart]. *)
Definition chartData (data : ChartData.t) : list object :=
  mapLabels (ChartData.labels data) 0 (ChartData.datasets data).

Fixpoint mapPie (labels : list (list N)) (index : nat)
         (datasets : list Dataset.t) : list (list N * Z) :=
  match labels with
  | [] => []
  | label :: rest =>
      (label, match datasets with
              | first :: _ => valueAt first index
              | [] => 0%Z
              end)
        :: mapPie rest (S index) datasets
  end.

(** [pieData] of the pie case: name and value, from the first dataset. *)
Definition pieData (data : ChartData.t) : list (list N * Z) :=
  mapPie (ChartData.labels data) 0 (ChartData.datasets data).

End ChartRenderer.

(* ================================================================== *)
(** * The sidebar: [formatDate] *)

Module Sidebar.

(** What [formatDate] returns: a text of its own, or the date as the
    locale writes it. *)
Inductive dateLabel : Type :=
| Label (text : list N)
| LocaleDate (date : Z).

(** [formatDate], on the time values (milliseconds) of the clock and of
    the date. *)
Definition formatDate (now date : Z) : dateLabel :=
  let diffMs := (now - date)%Z in
  let diffHours := (diffMs / (1000 * 60 * 60))%Z in
  let diffDays := (diffHours / 24)%Z in
  if (diffHours <? 1)%Z then Label (lit "Just now")
  else if (diffHours <? 24)%Z then
    Label (showZ diffHours ++ lit " hour"
           ++ (if (1 <? diffHours)%Z then lit "s" else []) ++ lit " ago")
  else if (diffDays <? 7)%Z then
    Label (showZ diffDays ++ lit " day"
           ++ (if (1 <? diffDays)%Z then lit "s" else []) ++ lit " ago")
  else LocaleDate date.

End Sidebar.

(* ================================================================== *)
(** * Replacement by a text *)

Module Replace.

(** [s.replace(re, by)] with the [g] flag, for a replacement text without
    dollar patterns: every match gives way to [by]; an empty match inserts
    it and the search moves on by one code unit. *)
Fixpoint replace_from (r : regex) (by_ : list N) (prev : option N) (skip : nat)
         (s : list N) : list N :=
  match s with
  | [] =>
      match skip, exec_at r prev [] with
      | O, Some _ => by_
      | _, _ => []
      end
  | c :: s' =>
      match skip with
      | S n => replace_from r by_ (Some c) n s'
      | O =>
          match exec_at r prev s with
          | Some (S n) => by_ ++ replace_from r by_ (Some c) n s'
          | Some O => by_ ++ c :: replace_from r by_ (Some c) 0 s'
          | None => c :: replace_from r by_ (Some c) 0 s'
          end
      end
  end.

Definition replace_g (r : regex) (by_ : list N) (s : list N) : list N :=
  replace_from r by_ None 0 s.

End Replace.

(* ================================================================== *)
(** * [FileStorageManager] and the upload route *)

(** What the storage code and the routes reach outside themselves.  [W] is
    the state of the disk, the database and the console. *)
Module Sys.
Record t (W : Type) : Type := mk {
  baseDir : list N;                                    (* path.join(process.cwd(), user_files) *)
  pathJoin : list N -> list N -> list N;               (* path.join *)
  extname : list N -> list N;                          (* path.extname *)
  toLowerCase : list N -> list N;
  now : W -> N;                                        (* Date.now() *)
  existsSync : list N -> W -> bool;
  mkdirSync : list N -> W -> result unit * W;
  writeFileSync : list N -> list N -> W -> result unit * W;
  saveFileRecord : Z -> list N -> list N -> list N -> N -> W -> result FileRecord.t * W;
  consoleError : exn -> W -> W }.
Arguments baseDir {W} _.
Arguments pathJoin {W} _ _ _.
Arguments extname {W} _ _.
Arguments toLowerCase {W} _ _.
Arguments now {W} _ _.
Arguments existsSync {W} _ _ _.
Arguments mkdirSync {W} _ _ _.
Arguments writeFileSync {W} _ _ _ _.
Arguments saveFileRecord {W} _ _ _ _ _ _ _.
Arguments consoleError {W} _ _ _.
End Sys.

Module FileStorageManager.

Import Replace.

(** The class [a-zA-Z0-9.-]. *)
Definition isPlain (c : N) : bool :=
  (between 97 122 c || between 65 90 c || between 48 57 c
   || isChar "." c || isChar "-" c)%bool.

(** The pattern of [saveFile]: one code unit outside the class. *)
Definition unsafePattern : regex := Cls (fun c => negb (isPlain c)).

(** [safeFilename] of [saveFile]. *)
Definition safeFilename (timestamp : N) (filename : list N) : list N :=
  showN timestamp ++ lit "_" ++ replace_g unsafePattern (lit "_") filename.

Section Storage.

Context {W : Type} (sys : Sys.t W).

Definition ensureDirectoryExists (dirPath : list N) (w : W) : result unit * W :=
  if negb (Sys.existsSync sys dirPath w) then Sys.mkdirSync sys dirPath w
  else (Ok tt, w).

Definition getUserDirectory (userId : Z) (w : W) : result (list N) * W :=
  let userDir := Sys.pathJoin sys (Sys.baseDir sys) (showZ userId) in
  match ensureDirectoryExists userDir w with
  | (Ok _, w1) => (Ok userDir, w1)
  | (Throw e, w1) => (Throw e, w1)
  end.

Definition saveFile (userId : Z) (filename buffer : list N) (w : W)
  : result (list N) * W :=
  match getUserDirectory userId w with
  | (Throw e, w1) => (Throw e, w1)
  | (Ok userDir, w1) =>
      let timestamp := Sys.now sys w1 in
      let filePath := Sys.pathJoin sys userDir (safeFilename timestamp filename) in
      match Sys.writeFileSync sys filePath buffer w1 with
      | (Throw e, w2) => (Throw e, w2)
      | (Ok _, w2) => (Ok filePath, w2)
      end
  end.

(** [path.extname(filename).toLowerCase().slice(1)] *)
Definition getFileExtension (filename : list N) : list N :=
  slice (Sys.toLowerCase sys (Sys.extname sys filename)) 1 None.

End Storage.

End FileStorageManager.

Module UploadRoute.

Import FileStorageManager.

(** An uploaded file: [arrayBuffer] is what reading its bytes gives. *)
Module File.
Record t : Type := mk {
  name : list N;
  size : N;
  arrayBuffer : result (list N) }.
End File.

(** An entry of [uploadResults]. *)
Inductive uploadResult : Type :=
| Stored (id : Z) (filename fileType : list N) (size : N)   (* success: true *)
| Refused (filename error : list N).                        (* success: false *)

Inductive response : Type :=
| Results (uploadResults : list uploadResult)               (* status 200 *)
| BadRequest (error : list N).                              (* status 400 *)

Definition MAX_FILE_SIZE : N := 200 * 1024 * 1024.

Definition ALLOWED_TYPES : list (list N) :=
  [lit "log"; lit "csv"; lit "xlsx"; lit "txt"].

(** [a.includes(x)] *)
Definition includes (a : list (list N)) (x : list N) : bool :=
  existsb (fun y => str_eqb y x) a.

Definition userId : Z := 1.

Section Route.

Context {W : Type} (sys : Sys.t W).

(** The body of the loop, for one file. *)
Definition uploadOne (file : File.t) (w : W) : uploadResult * W :=
  let fileExtension := getFileExtension sys (File.name file) in
  if negb (includes ALLOWED_TYPES fileExtension) then
    (Refused (File.name file) (lit "Unsupported file type: " ++ fileExtension), w)
  else if (MAX_FILE_SIZE <? File.size file)%N then
    (Refused (File.name file) (lit "File size exceeds 200MB limit"), w)
  else
    let failed error w' :=
      (Refused (File.name file) (lit "Failed to save file"),
       Sys.consoleError sys error w') in
    match File.arrayBuffer file with
    | Throw error => failed error w
    | Ok buffer =>
        match saveFile sys userId (File.name file) buffer w with
        | (Throw error, w1) => failed error w1
        | (Ok filePath, w1) =>
            match Sys.saveFileRecord sys userId (File.name file) filePath fileExtension
                                 (File.size file) w1 with
            | (Throw error, w2) => failed error w2
            | (Ok fileRecord, w2) =>
                (Stored (FileRecord.id fileRecord) (File.name file) fileExtension
                        (File.size file), w2)
            end
        end
    end.

Fixpoint uploadAll (files : list File.t) (w : W) : list uploadResult * W :=
  match files with
  | [] => ([], w)
  | file :: rest =>
      let '(uploaded, w1) := uploadOne file w in
      let '(others, w2) := uploadAll rest w1 in
      (uploaded :: others, w2)
  end.

(** [POST], from the files of the form. *)
Definition POST (files : list File.t) (w : W) : response * W :=
  match files with
  | [] => (BadRequest (lit "No files provided"), w)
  | _ =>
      let '(uploadResults, w1) := uploadAll files w in
      (Results uploadResults, w1)
  end.

End Route.

End UploadRoute.

(* ================================================================== *)
(** * The processing route *)

Module ProcessRoute.

Import FileProcessor.

Inductive response : Type :=
| Processed (id : Z) (filename type : list N) (size : N)
            (processedData : ProcessedFileData.t) (summary : list N)   (* status 200 *)
| NotFound                                                             (* status 404 *)
| Failed (logged : exn).                                               (* status 500 *)

(** [GET], from the parsed file id. *)
Definition GET (host : Host.t) (fileId : Z) : response :=
  let attempt :=
    found <- Host.getFile host fileId ;;
    match found with
    | None => Ok NotFound
    | Some file =>
        processedData <- processFile (Host.fs host) (FileRecord.file_path file)
                                     (FileRecord.file_type file) ;;
        summary <- generateSummary processedData ;;
        Ok (Processed (FileRecord.id file) (FileRecord.filename file)
                      (FileRecord.file_type file) (FileRecord.file_size file)
                      processedData summary)
    end in
  match attempt with
  | Ok response => response
  | Throw error => Failed error
  end.

End ProcessRoute.

(* ================================================================== *)
(** * Conversations and the chat route *)

(** A message of a stored history: the user message has the first three
    fields, the assistant message all of them. *)
Module StoredMessage.
Record t : Type := mk {
  role : list N;
  content : list N;
  timestamp : list N;
  visualizations : option (list VisualizationData.t);
  tables : option (list TableData.t);
  confidence : option Q;
  sources : option (list (list N)) }.
End StoredMessage.

(** A row of the [conversations] table. *)
Module Conversation.
Record t : Type := mk {
  id : Z;
  user_id : Z;
  file_id : option Z;
  title : list N;
  history_json : list N;
  created_at : list N;
  updated_at : list N }.
End Conversation.

(** What the chat route reaches outside itself, the table apart. *)
Module ChatEnv.
Record t : Type := mk {
  host : Host.t;
  JSON_parse : list N -> result (list StoredMessage.t);
  JSON_stringify : list StoredMessage.t -> list N;
  firstNow : list N;             (* new Date().toISOString(), first read *)
  secondNow : list N;            (* new Date().toISOString(), second read *)
  CURRENT_TIMESTAMP : list N }.
End ChatEnv.

Module DatabaseManager.

(** [SELECT * FROM conversations WHERE id = ?], first row. *)
Definition getConversation (id : Z) (conversations : list Conversation.t)
  : option Conversation.t :=
  find (fun row => (Conversation.id row =? id)%Z) conversations.

(** [UPDATE conversations SET history_json = ?, updated_at =
    CURRENT_TIMESTAMP WHERE id = ?] *)
Definition updateConversationHistory (env : ChatEnv.t) (id : Z)
           (messages : list StoredMessage.t) (conversations : list Conversation.t)
  : list Conversation.t :=
  map (fun row =>
         if (Conversation.id row =? id)%Z then
           Conversation.mk (Conversation.id row) (Conversation.user_id row)
                           (Conversation.file_id row) (Conversation.title row)
                           (ChatEnv.JSON_stringify env messages)
                           (Conversation.created_at row)
                           (ChatEnv.CURRENT_TIMESTAMP env)
         else row)
      conversations.

End DatabaseManager.

Module ChatRoute.

Import FileProcessor AIAgentManager DatabaseManager.

Inductive response : Type :=
| Reply (message : StoredMessage.t) (conversationId : option Z)   (* status 200 *)
| BadRequest (error : list N)                                     (* status 400 *)
| ServerError (logged : exn).                                     (* status 500 *)

(** A stored message as [processQuery] reads it. *)
Definition toChatMessage (m : StoredMessage.t) : ChatMessage.t :=
  ChatMessage.mk (StoredMessage.role m) (StoredMessage.content m).

(** The history the route loads: that of the conversation, when the
    conversation id is truthy and the table has the conversation. *)
Definition loadHistory (env : ChatEnv.t) (conversationId : option Z)
           (conversations : list Conversation.t) : result (list StoredMessage.t) :=
  match truthyId conversationId with
  | Some cid =>
      match getConversation cid conversations with
      | Some conversation =>
          ChatEnv.JSON_parse env (Conversation.history_json conversation)
      | None => Ok []
      end
  | None => Ok []
  end.

Definition assistantMessageOf (env : ChatEnv.t) (agentResponse : AgentResponse.t)
  : StoredMessage.t :=
  StoredMessage.mk (lit "assistant") (AgentResponse.content agentResponse)
                   (ChatEnv.firstNow env)
                   (AgentResponse.visualizations agentResponse)
                   (AgentResponse.tables agentResponse)
                   (Some (AgentResponse.confidence agentResponse))
                   (Some (AgentResponse.sources agentResponse)).

Definition userMessageOf (env : ChatEnv.t) (message : list N) : StoredMessage.t :=
  StoredMessage.mk (lit "user") message (ChatEnv.secondNow env) None None None None.

(** [POST], from the fields of the request body: the response, what was
    written to the error console, and the table afterwards. *)
Definition POST (env : ChatEnv.t) (message : option (list N))
           (conversationId fileId : option Z) (conversations : list Conversation.t)
  : response * list exn * list Conversation.t :=
  let required := (BadRequest (lit "Message is required"), [], conversations) in
  match message with
  | None => required
  | Some message =>
      if negb (nonEmpty (trim message)) then required
      else
        match loadHistory env conversationId conversations with
        | Throw error => (ServerError error, [error], conversations)
        | Ok conversationHistory =>
            let '(agentResponse, logged) :=
              processQuery (ChatEnv.host env) message fileId
                           (map toChatMessage conversationHistory) in
            let assistantMessage := assistantMessageOf env agentResponse in
            let conversations' :=
              match truthyId conversationId with
              | Some cid =>
                  let userMessage := userMessageOf env message in
                  let updatedHistory :=
                    conversationHistory ++ [userMessage; assistantMessage] in
                  updateConversationHistory env cid updatedHistory conversations
              | None => conversations
              end in
            (Reply assistantMessage conversationId, logged, conversations')
        end
  end.

End ChatRoute.

(* ================================================================== *)
(** ** Further vocabulary *)

Module Notions.
Import FileProcessor AIAgentManager Statements.

(** The first code unit of a string, if any, satisfies [P]. *)
Definition firstIs (P : N -> Prop) (s : list N) : Prop :=
  match s with
  | c :: _ => P c
  | [] => True
  end.

(** A string with no white space at either end. *)
Definition trimmed (s : list N) : Prop :=
  firstIs (fun c => isWhiteSpace c = false) s
  /\ firstIs (fun c => isWhiteSpace c = false) (rev s).

(** What holds of every visualization [parseAIResponse] extracts. *)
Definition vizExtracted (processedData : option ProcessedFileData.t)
           (v : VisualizationData.t) : Prop :=
  VisualizationData.type v = lit "chart"
  /\ VisualizationData.chartType v <> []
  /\ without ":" (VisualizationData.chartType v)
  /\ VisualizationData.title v <> []
  /\ without ":" (VisualizationData.title v)
  /\ without ":" (VisualizationData.description v)
  /\ without "]" (VisualizationData.description v)
  /\ VisualizationData.data v
     = generateVisualizationData (VisualizationData.chartType v) processedData
  /\ VisualizationData.config v
     = generateVisualizationConfig (VisualizationData.chartType v).

(** What holds of every table [parseAIResponse] extracts. *)
Definition tableExtracted (processedData : option ProcessedFileData.t)
           (t : TableData.t) : Prop :=
  TableData.title t <> []
  /\ without ":" (TableData.title t)
  /\ without ":" (TableData.description t)
  /\ without "]" (TableData.description t)
  /\ TableData.headers t = fst (generateTableData processedData)
  /\ TableData.rows t = snd (generateTableData processedData).

(** The number of matches [s.match(re)] returns. *)
Definition matchCount (r : regex) (s : list N) : nat :=
  match match_g r s with
  | Some ms => length ms
  | None => 0
  end.

(** A chart payload in which every dataset has one value per label. *)
Definition chartUniform (d : ChartData.t) : Prop :=
  Forall (fun ds => length (Dataset.data ds) = length (ChartData.labels d))
         (ChartData.datasets d).

(** A stored record whose type processFile has no case for, and a host
    whose store returns it for every id. *)
Definition jsonRecord : FileRecord.t :=
  FileRecord.mk 2 1 (lit "data.json") (lit "uploads/1/data.json") (lit "json") 17
                (lit "2024-01-15 10:30:00").

Definition jsonHost : Host.t :=
  Host.mk (Host.fs (answeringHost (lit "Fine.")))
          (fun _ => Ok (Some jsonRecord))
          (fun _ _ => Ok (lit "Fine."))
          (fun _ => lit "{}")
          (fun s => s).

(** A header the csv reader gives back as it is: no white space at either
    end, and no double quote, comma or newline inside. *)
Definition cleanHeader (h : list N) : Prop :=
  trim h = h /\ ~ In 34%N h /\ ~ In (ch ",") h /\ ~ In newline h.

(** A row the csv reader counts as one line: at least one cell, and no
    newline inside a cell. *)
Definition oneLineRow (row : list (list N)) : Prop :=
  row <> [] /\ Forall (fun cell => ~ In newline cell) row.

(** The keys under which the chart renderer files the datasets. *)
Fixpoint dataKeys (datasets : list Dataset.t) (datasetIndex : nat) : list (list N) :=
  match datasets with
  | [] => []
  | dataset :: rest =>
      ChartRenderer.dataKey dataset datasetIndex :: dataKeys rest (S datasetIndex)
  end.

(** The file name an upload result answers for. *)
Definition resultName (r : UploadRoute.uploadResult) : list N :=
  match r with
  | UploadRoute.Stored _ filename _ _ => filename
  | UploadRoute.Refused filename _ => filename
  end.

(** What an upload result says of the file it answers for: a stored file
    keeps its name and size, has its own extension as type, an allowed
    one, and a size within the limit; a refusal repeats the name. *)
Definition answersFor {W : Type} (sys : Sys.t W) (file : UploadRoute.File.t)
           (r : UploadRoute.uploadResult) : Prop :=
  match r with
  | UploadRoute.Stored _ filename fileType size =>
      filename = UploadRoute.File.name file
      /\ size = UploadRoute.File.size file
      /\ fileType = FileStorageManager.getFileExtension sys (UploadRoute.File.name file)
      /\ In fileType UploadRoute.ALLOWED_TYPES
      /\ (size <= 200 * 1024 * 1024)%N
  | UploadRoute.Refused filename _ => filename = UploadRoute.File.name file
  end.

(** A file the validation refuses: its extension is not allowed, or it is
    too large. *)
Definition invalidFile {W : Type} (sys : Sys.t W) (file : UploadRoute.File.t) : Prop :=
  ~ In (FileStorageManager.getFileExtension sys (UploadRoute.File.name file))
       UploadRoute.ALLOWED_TYPES
  \/ (200 * 1024 * 1024 < UploadRoute.File.size file)%N.

(** The refusal of an invalid file: the type is judged first. *)
Definition refusal {W : Type} (sys : Sys.t W) (file : UploadRoute.File.t)
  : UploadRoute.uploadResult :=
  let fileExtension :=
    FileStorageManager.getFileExtension sys (UploadRoute.File.name file) in
  UploadRoute.Refused (UploadRoute.File.name file)
    (if UploadRoute.includes UploadRoute.ALLOWED_TYPES fileExtension
     then lit "File size exceeds 200MB limit"
     else lit "Unsupported file type: " ++ fileExtension).

(** A small world for examples: the paths written and the errors logged. *)
Definition sampleSys : Sys.t (list (list N) * list exn) :=
  Sys.mk _ (lit "/srv/user_files")
         (fun a b => a ++ lit "/" ++ b)
         (fun filename =>
            match rev (split (ch ".") filename) with
            | ext :: _ :: _ => lit "." ++ ext
            | _ => []
            end)
         (fun s => s)
         (fun _ => 1700000000000%N)
         (fun _ _ => true)
         (fun _ w => (Ok tt, w))
         (fun filePath _ w => (Ok tt, (filePath :: fst w, snd w)))
         (fun user filename filePath fileType size w =>
            (Ok (FileRecord.mk (Z.of_nat (S (length (fst w)))) user filename filePath
                               fileType size (lit "2024-01-15 10:30:00")), w))
         (fun error w => (fst w, error :: snd w)).

(** A chat environment for examples.  Its stand-in for the JSON codec
    writes a history as its length and reads the text 0 back as the empty
    history and any other text as the one-turn history below. *)
Definition sampleUser : StoredMessage.t :=
  StoredMessage.mk (lit "user") (lit "Hello") (lit "2024-01-15T10:30:02.000Z")
                   None None None None.

Definition sampleAssistant : StoredMessage.t :=
  StoredMessage.mk (lit "assistant") (lit "Fine.") (lit "2024-01-15T10:30:01.000Z")
                   (Some []) (Some []) (Some (85 # 100)%Q) (Some []).

Definition sampleEnv : ChatEnv.t :=
  ChatEnv.mk (answeringHost (lit "Fine."))
             (fun json => if str_eqb json (lit "0") then Ok []
                          else Ok [sampleUser; sampleAssistant])
             (fun messages => showN (N.of_nat (length messages)))
             (lit "2024-01-15T10:30:01.000Z")
             (lit "2024-01-15T10:30:02.000Z")
             (lit "2024-01-15 10:30:02").

Definition sampleConversation : Conversation.t :=
  Conversation.mk 5 1 None (lit "First chat") (lit "0")
                  (lit "2024-01-15 10:00:00") (lit "2024-01-15 10:00:00").

(** The severity words of the log-level pattern. *)
Definition severityWords : list string :=
  ["ERROR"; "WARN"; "INFO"; "DEBUG"; "TRACE"; "FATAL"]%string.

(** [w] spells the word [W], in any mix of upper and lower case. *)
Definition spells (W : string) (w : list N) : Prop :=
  Forall2 (fun a c => isCI a c = true) (list_ascii_of_string W) w.

(** One to three decimal digits. *)
Definition digitGroup (g : list N) : Prop :=
  1 <= length g <= 3 /\ Forall (fun c => isDigit c = true) g.

(** A place between [pre] and [post] where a whole word can stand: no
    letter, digit or underscore right before or right after. *)
Definition wordPlace (pre post : list N) : Prop :=
  wordAt (lastChar None pre) = false /\ wordAt (hd_error post) = false.

End Notions.

(* ================================================================== *)
(** ** Facts about strings *)

Module JsFacts.

Lemma char_eqb_eq (a b : N) : char_eqb a b = true <-> a = b.
Proof. unfold char_eqb. apply N.eqb_eq. Qed.

Lemma char_eqb_neq (a b : N) : char_eqb a b = false <-> a <> b.
Proof. unfold char_eqb. apply N.eqb_neq. Qed.

Lemma str_eqb_eq (a b : list N) : str_eqb a b = true <-> a = b.
Proof.
  revert b. induction a as [|x a IH]; intros [|y b]; simpl; split;
    try congruence; try reflexivity.
  - intros H. apply andb_prop in H. destruct H as [Hx Hab].
    apply char_eqb_eq in Hx. apply IH in Hab. congruence.
  - intros H. injection H as -> ->. apply andb_true_intro. split.
    + now apply char_eqb_eq.
    + now apply IH.
Qed.

Lemma str_eqb_neq (a b : list N) : str_eqb a b = false <-> a <> b.
Proof.
  split.
  - intros H E. apply str_eqb_eq in E. congruence.
  - intros H. destruct (str_eqb a b) eqn:E; [|reflexivity].
    apply str_eqb_eq in E. contradiction.
Qed.

Lemma take_drop (p : N -> bool) (s : list N) :
  takeWhile p s ++ dropWhile p s = s.
Proof.
  induction s as [|c s IH]; simpl; [reflexivity|].
  destruct (p c); simpl; [now rewrite IH | reflexivity].
Qed.

Lemma dropWhile_head (p : N -> bool) (s : list N) c rest :
  dropWhile p s = c :: rest -> p c = false.
Proof.
  induction s as [|x s IH]; simpl; [discriminate|].
  destruct (p x) eqn:E; [exact IH|].
  intros H. injection H as -> _. exact E.
Qed.

Lemma takeWhile_all (p : N -> bool) (s : list N) :
  forallb p (takeWhile p s) = true.
Proof.
  induction s as [|c s IH]; simpl; [reflexivity|].
  destruct (p c) eqn:E; simpl; [now rewrite E | reflexivity].
Qed.

Lemma takeWhile_app (p : N -> bool) (a : list N) c rest :
  forallb p a = true -> p c = false ->
  takeWhile p (a ++ c :: rest) = a /\ dropWhile p (a ++ c :: rest) = c :: rest.
Proof.
  intros Ha Hc. induction a as [|x a IH]; simpl in *.
  - now rewrite Hc.
  - apply andb_prop in Ha. destruct Ha as [Hx Ha]. rewrite Hx.
    destruct (IH Ha) as [-> ->]. now split.
Qed.

Lemma dropWhile_all (p : N -> bool) (s : list N) :
  forallb p s = true -> dropWhile p s = [].
Proof.
  induction s as [|c s IH]; simpl; [reflexivity|].
  intros H. apply andb_prop in H. destruct H as [-> H]. now apply IH.
Qed.

Lemma dropWhile_length (p : N -> bool) (s : list N) :
  length (dropWhile p s) <= length s.
Proof.
  induction s as [|c s IH]; simpl; [lia|]. destruct (p c); simpl; lia.
Qed.

Lemma dropWhile_fix (p : N -> bool) (s : list N) :
  dropWhile p (dropWhile p s) = dropWhile p s.
Proof.
  induction s as [|c s IH]; simpl; [reflexivity|].
  destruct (p c) eqn:E; [exact IH|]. simpl. now rewrite E.
Qed.

(** Dropping from the front keeps a non-matching last element in place. *)
Lemma dropWhile_rev_stable (p : N -> bool) (s : list N) :
  dropWhile p (rev s) = rev s -> dropWhile p (rev (dropWhile p s)) = rev (dropWhile p s).
Proof.
  induction s as [|c s IH]; simpl; [reflexivity|].
  intros H. destruct (p c) eqn:E; [|simpl; exact H].
  apply IH.
  destruct (rev s) as [|x r] eqn:Er; [reflexivity|].
  simpl in H |- *. destruct (p x) eqn:Ex; [|reflexivity].
  exfalso.
  assert (L := dropWhile_length p (r ++ [c])).
  rewrite H in L. simpl in L. rewrite !length_app in L. simpl in L. lia.
Qed.

Lemma trim_length (s : list N) : length (trim s) <= length s.
Proof.
  unfold trim. rewrite length_rev.
  etransitivity; [apply dropWhile_length|]. rewrite length_rev.
  apply dropWhile_length.
Qed.

Lemma trim_idempotent (s : list N) : trim (trim s) = trim s.
Proof.
  unfold trim.
  set (t := dropWhile isWhiteSpace (rev (dropWhile isWhiteSpace s))).
  assert (Ht : dropWhile isWhiteSpace t = t) by apply dropWhile_fix.
  assert (Hr : dropWhile isWhiteSpace (rev t) = rev t).
  { subst t.
    pose proof (dropWhile_rev_stable isWhiteSpace
                  (rev (dropWhile isWhiteSpace s))) as H.
    rewrite rev_involutive in H. apply H. apply dropWhile_fix. }
  rewrite Hr, rev_involutive, Ht. reflexivity.
Qed.

End JsFacts.


(* ================================================================== *)
(** ** Facts about matching *)

Module ReFacts.

Import JsFacts.

(** A greedy repetition whose continuation cannot start with a code unit
    of the class never gives anything back: it takes the maximal run. *)
Lemma rep_greedy (p : N -> bool) (k : cont) :
  (forall prev x s, p x = true -> k prev (x :: s) = None) ->
  (forall p1 p2 s, k p1 s = k p2 s) ->
  forall s lo prev,
    rep p lo None prev s k =
    if (lo <=? length (takeWhile p s))%nat
    then k None (dropWhile p s)
    else None.
Proof.
  intros Hk Hprev. induction s as [|c s IH]; intros lo prev.
  - simpl. destruct lo; [apply Hprev | reflexivity].
  - simpl. destruct (p c) eqn:Hc; simpl.
    + rewrite IH.
      replace (lo <=? S (length (takeWhile p s)))%nat
        with (pred lo <=? length (takeWhile p s))%nat
        by (destruct lo; simpl; [now destruct (takeWhile p s) | reflexivity]).
      destruct (pred lo <=? length (takeWhile p s))%nat eqn:Hlo.
      * destruct (k None (dropWhile p s)); [reflexivity|].
        destruct lo; [now apply Hk | reflexivity].
      * destruct lo; [now apply Hk | reflexivity].
    + destruct lo; [apply Hprev | reflexivity].
Qed.

Lemma exec_at_bound (r : regex) prev s n :
  exec_at r prev s = Some n -> n <= length s.
Proof.
  unfold exec_at. destruct (run r prev s _); [|discriminate].
  intros H. injection H as <-. lia.
Qed.

End ReFacts.


(* ================================================================== *)
(** ** The directive patterns match exactly their shape *)

Module Patterns.
Import JsFacts ReFacts Shape AIAgentManager.

Lemma run_lits (l : list ascii) (r : regex) (k : cont) :
  prevFree (fun p s => run r p s k) ->
  forall prev s,
    run (Seq (seq (map Lit l)) r) prev s k =
    andThen (stripPrefix (map ch l) s) (fun s1 => run r None s1 k).
Proof.
  intros Hr. induction l as [|a l IH]; intros prev s.
  - cbn. apply Hr.
  - destruct l as [|b l'].
    + cbn. destruct s as [|c s]; [reflexivity|].
      unfold isChar. destruct (char_eqb c (ch a)); [apply Hr | reflexivity].
    + change (seq (map Lit (a :: b :: l')))
        with (Seq (Lit a) (seq (map Lit (b :: l')))).
      cbn [run Lit map stripPrefix].
      destruct s as [|c s]; [reflexivity|].
      unfold isChar. destruct (char_eqb c (ch a)); [|reflexivity].
      apply (IH (Some c) s).
Qed.

Lemma run_word (w : string) (r : regex) (k : cont) :
  prevFree (fun p s => run r p s k) ->
  forall prev s,
    run (Seq (word w) r) prev s k =
    andThen (stripPrefix (lit w) s) (fun s1 => run r None s1 k).
Proof. intros Hr prev s. unfold word, lit. now apply run_lits. Qed.

Lemma run_field_last close (k : cont) :
  prevFree k ->
  forall prev s,
    run (Seq (Plus (notChar close)) (Lit close)) prev s k =
    andThen (field close s) (fun fr => k None (snd fr)).
Proof.
  intros Hk prev s. cbn [run Plus].
  rewrite rep_greedy.
  - unfold field.
    destruct (takeWhile (notChar close) s) as [|x f]; [reflexivity|].
    cbn [length Nat.leb andThen].
    destruct (dropWhile (notChar close) s) as [|c rest] eqn:Ed; [reflexivity|].
    apply dropWhile_head in Ed. unfold notChar in Ed.
    apply negb_false_iff in Ed. unfold Lit, isChar. cbn. rewrite Ed. apply Hk.
  - intros prev0 x s0 Hx. unfold Lit, isChar. unfold notChar in Hx.
    apply negb_true_iff in Hx. cbn. now rewrite Hx.
  - intros p1 p2 [|c s0]; [reflexivity|]. cbn.
    destruct (isChar close c); [apply Hk | reflexivity].
Qed.

Lemma run_field_then close (r : regex) (k : cont) :
  prevFree (fun p s => run r p s k) ->
  forall prev s,
    run (Seq (Plus (notChar close)) (Seq (Lit close) r)) prev s k =
    andThen (field close s) (fun fr => run r None (snd fr) k).
Proof.
  intros Hr prev s.
  change (run (Seq (Plus (notChar close)) (Seq (Lit close) r)) prev s k)
    with (run (Seq (Plus (notChar close)) (Lit close)) prev s
              (fun p s' => run r p s' k)).
  now apply run_field_last.
Qed.

Lemma done_prevFree : prevFree done.
Proof. intros p1 p2 s. reflexivity. Qed.

Lemma andThen_ext {A B : Type} (m : option A) (f g : A -> option B) :
  (forall a, f a = g a) -> andThen m f = andThen m g.
Proof. intros H. destruct m; [apply H | reflexivity]. Qed.

Lemma run_strip (pfx : string) prev s :
  run (seq [word pfx; Plus (notChar "]"); Lit "]"]) prev s done = tokenRest pfx s.
Proof.
  unfold tokenRest. cbn [seq].
  rewrite run_word.
  - apply andThen_ext. intros s1. now rewrite run_field_last by apply done_prevFree.
  - intros p1 p2 s1. now rewrite !run_field_last by apply done_prevFree.
Qed.

Lemma run_viz prev s : run vizPattern prev s done = vizRest s.
Proof.
  unfold vizPattern, vizRest. cbn [seq].
  assert (H3 : prevFree (fun p s' => run (Seq (Plus (notChar "]")) (Lit "]")) p s' done)).
  { intros p1 p2 s1. now rewrite !run_field_last by apply done_prevFree. }
  assert (H2 : prevFree (fun p s' =>
            run (Seq (Plus (notChar ":")) (Seq (Lit ":")
                   (Seq (Plus (notChar "]")) (Lit "]")))) p s' done)).
  { intros p1 p2 s1. now rewrite !run_field_then by exact H3. }
  rewrite run_word.
  - apply andThen_ext. intros s1. rewrite run_field_then by exact H2.
    apply andThen_ext. intros fr1. rewrite run_field_then by exact H3.
    apply andThen_ext. intros fr2. now rewrite run_field_last by apply done_prevFree.
  - intros p1 p2 s1. now rewrite !run_field_then by exact H2.
Qed.

Lemma run_table prev s : run tablePattern prev s done = tableRest s.
Proof.
  unfold tablePattern, tableRest. cbn [seq].
  assert (H3 : prevFree (fun p s' => run (Seq (Plus (notChar "]")) (Lit "]")) p s' done)).
  { intros p1 p2 s1. now rewrite !run_field_last by apply done_prevFree. }
  rewrite run_word.
  - apply andThen_ext. intros s1. rewrite run_field_then by exact H3.
    apply andThen_ext. intros fr1. now rewrite run_field_last by apply done_prevFree.
  - intros p1 p2 s1. now rewrite !run_field_then by exact H3.
Qed.

End Patterns.

(* ================================================================== *)
(** ** Facts about the global search and replace *)

Module Scan.
Import JsFacts ReFacts.

Section Generic.
Variable r : regex.

Lemma remove_none : forall s prev,
  test_from r prev s = false -> remove_from r prev 0 s = s.
Proof.
  induction s as [|c s IH]; intros prev H; [reflexivity|].
  simpl in *. destruct (exec_at r prev (c :: s)); [discriminate|].
  now rewrite IH.
Qed.

Lemma matches_none : forall s prev,
  test_from r prev s = false -> matches_from r prev 0 s = [].
Proof.
  induction s as [|c s IH]; intros prev H.
  - simpl in *. now destruct (exec_at r prev []).
  - simpl in *. destruct (exec_at r prev (c :: s)); [discriminate|].
    now apply IH.
Qed.

Lemma remove_length : forall s prev n,
  length (remove_from r prev n s) <= length s.
Proof.
  induction s as [|c s IH]; intros prev n; simpl; [lia|].
  destruct n as [|n].
  - destruct (exec_at r prev (c :: s)) as [[|k]|]; simpl;
      try (specialize (IH (Some c) 0); lia).
    specialize (IH (Some c) k); lia.
  - specialize (IH (Some c) n); lia.
Qed.

Lemma remove_shrinks :
  (forall prev s, exec_at r prev s <> Some 0) ->
  forall s prev,
    test_from r prev s = true -> length (remove_from r prev 0 s) < length s.
Proof.
  intros Hne. induction s as [|c s IH]; intros prev H.
  - simpl in H. destruct (exec_at r prev []) as [n|] eqn:E; [|discriminate].
    pose proof (exec_at_bound _ _ _ _ E) as B. simpl in B.
    assert (n = 0) by lia. subst n. now apply Hne in E.
  - simpl in *. destruct (exec_at r prev (c :: s)) as [[|k]|] eqn:E.
    + now apply Hne in E.
    + pose proof (remove_length s (Some c) k). lia.
    + simpl. apply IH in H. lia.
Qed.

End Generic.

(** Patterns whose attempts do not look at the code unit before the
    cursor, described by the text left after a match. *)
Section Described.
Variable r : regex.
Variable restOf : list N -> option (list N).
Hypothesis described : forall prev s, run r prev s (fun _ rest => Some rest) = restOf s.

Lemma exec_at_prev p1 p2 s : exec_at r p1 s = exec_at r p2 s.
Proof. unfold exec_at. now rewrite !described. Qed.

Lemma exec_at_described prev s :
  exec_at r prev s = option_map (fun rest => length s - length rest) (restOf s).
Proof. unfold exec_at. rewrite described. now destruct (restOf s). Qed.

Lemma remove_prev : forall s p1 p2 n, remove_from r p1 n s = remove_from r p2 n s.
Proof.
  induction s as [|c s IH]; intros p1 p2 n; [reflexivity|].
  simpl. now rewrite (exec_at_prev p1 p2).
Qed.

Lemma matches_prev : forall s p1 p2 n, matches_from r p1 n s = matches_from r p2 n s.
Proof.
  induction s as [|c s IH]; intros p1 p2 n; simpl.
  - now rewrite (exec_at_prev p1 p2).
  - now rewrite (exec_at_prev p1 p2).
Qed.

Lemma test_prev : forall s p1 p2, test_from r p1 s = test_from r p2 s.
Proof.
  intros [|c s] p1 p2; simpl; now rewrite (exec_at_prev p1 p2).
Qed.

Lemma remove_skip : forall m s prev,
  remove_from r prev (length m) (m ++ s) = remove_from r None 0 s.
Proof.
  induction m as [|c m IH]; intros s prev; simpl.
  - apply remove_prev.
  - apply IH.
Qed.

Lemma matches_skip : forall m s prev,
  matches_from r prev (length m) (m ++ s) = matches_from r None 0 s.
Proof.
  induction m as [|c m IH]; intros s prev; simpl.
  - apply matches_prev.
  - apply IH.
Qed.

Lemma exec_at_match m s prev :
  restOf (m ++ s) = Some s -> exec_at r prev (m ++ s) = Some (length m).
Proof.
  intros H. rewrite exec_at_described, H. simpl. f_equal.
  rewrite length_app. lia.
Qed.

Lemma remove_match m s prev :
  m <> [] -> restOf (m ++ s) = Some s ->
  remove_from r prev 0 (m ++ s) = remove_from r None 0 s.
Proof.
  intros Hm H. pose proof (@exec_at_match m s prev H) as E.
  destruct m as [|c m]; [contradiction|].
  simpl in *. rewrite E. apply remove_skip.
Qed.

Lemma matches_match m s prev :
  m <> [] -> restOf (m ++ s) = Some s ->
  matches_from r prev 0 (m ++ s) = m :: matches_from r None 0 s.
Proof.
  intros Hm H. pose proof (@exec_at_match m s prev H) as E.
  destruct m as [|c m]; [contradiction|].
  simpl in *. rewrite E. f_equal.
  - f_equal. now rewrite firstn_app, firstn_all, Nat.sub_diag, firstn_0, app_nil_r.
  - apply matches_skip.
Qed.

(** Text with no place where the pattern can start is passed over. *)
Lemma remove_pass pre s prev :
  (forall a b, pre = a ++ b -> b <> [] -> restOf (b ++ s) = None) ->
  remove_from r prev 0 (pre ++ s) = pre ++ remove_from r None 0 s.
Proof.
  revert prev. induction pre as [|c pre IH]; intros prev H; simpl.
  - apply remove_prev.
  - rewrite exec_at_described.
    assert (E : restOf (c :: pre ++ s) = None)
      by (apply (H [] (c :: pre) eq_refl); discriminate).
    rewrite E. simpl. f_equal.
    apply IH. intros a b -> Hb. apply (H (c :: a) b); [reflexivity | exact Hb].
Qed.

Lemma matches_pass pre s prev :
  (forall a b, pre = a ++ b -> b <> [] -> restOf (b ++ s) = None) ->
  matches_from r prev 0 (pre ++ s) = matches_from r None 0 s.
Proof.
  revert prev. induction pre as [|c pre IH]; intros prev H; simpl.
  - apply matches_prev.
  - rewrite exec_at_described.
    assert (E : restOf (c :: pre ++ s) = None)
      by (apply (H [] (c :: pre) eq_refl); discriminate).
    rewrite E. simpl.
    apply IH. intros a b -> Hb. apply (H (c :: a) b); [reflexivity | exact Hb].
Qed.

Lemma test_false_iff s prev :
  test_from r prev s = false <-> (forall a b, s = a ++ b -> restOf b = None).
Proof.
  revert prev. induction s as [|c s IH]; intros prev.
  - simpl. rewrite exec_at_described. split.
    + intros H a b E. symmetry in E. apply app_eq_nil in E. destruct E as [_ ->].
      destruct (restOf []); [discriminate | reflexivity].
    + intros H. now rewrite (H [] [] eq_refl).
  - simpl. rewrite exec_at_described. split.
    + intros H a b E. destruct (restOf (c :: s)) eqn:Er; [discriminate|].
      simpl in H. destruct a as [|x a].
      * simpl in E. now subst b.
      * injection E as -> E. apply (proj1 (IH (Some x)) H a b E).
    + intros H. rewrite (H [] (c :: s) eq_refl). simpl.
      apply IH. intros a b ->. apply (H (c :: a) b). reflexivity.
Qed.

End Described.

End Scan.

(* ================================================================== *)
(** ** Facts about the shapes *)

Module ShapeFacts.
Import JsFacts ReFacts Shape Statements.

Lemma without_forallb a s : without a s <-> forallb (notChar a) s = true.
Proof.
  unfold without, notChar. induction s as [|c s IH]; simpl.
  - tauto.
  - rewrite andb_true_iff, negb_true_iff, char_eqb_neq, <- IH.
    split; [intros H; split; [intros E | intros I]; apply H; auto
           | intros [H1 H2] [E|I]; [congruence | tauto]].
Qed.

Lemma without_app a s t : without a (s ++ t) <-> without a s /\ without a t.
Proof. unfold without. rewrite in_app_iff. tauto. Qed.

Lemma without_cons a c s : without a (c :: s) <-> c <> ch a /\ without a s.
Proof.
  unfold without. simpl. split.
  - intros H. split; [intros E | intros I]; apply H; auto.
  - intros [H1 H2] [E|I]; [congruence | tauto].
Qed.

Lemma stripPrefix_app pfx s : stripPrefix pfx (pfx ++ s) = Some s.
Proof.
  induction pfx as [|a pfx IH]; simpl; [reflexivity|].
  unfold char_eqb. now rewrite N.eqb_refl.
Qed.

Lemma stripPrefix_sound pfx : forall s s1,
  stripPrefix pfx s = Some s1 -> s = pfx ++ s1.
Proof.
  induction pfx as [|a pfx IH]; intros s s1; simpl.
  - now intros [= ->].
  - destruct s as [|c s]; [discriminate|].
    destruct (char_eqb c a) eqn:E; [|discriminate].
    apply char_eqb_eq in E. subst c. intros H. f_equal. now apply IH.
Qed.

Lemma field_found close f rest :
  f <> [] -> without close f ->
  field close (f ++ ch close :: rest) = Some (f, rest).
Proof.
  intros Hf Hw. apply without_forallb in Hw. unfold field.
  assert (Hc : notChar close (ch close) = false).
  { unfold notChar, char_eqb. now rewrite N.eqb_refl. }
  destruct (@takeWhile_app _ _ _ rest Hw Hc) as [-> ->].
  destruct f; [contradiction | reflexivity].
Qed.

Lemma field_sound close s f rest :
  field close s = Some (f, rest) ->
  s = f ++ ch close :: rest /\ f <> [] /\ without close f.
Proof.
  unfold field. intros H.
  pose proof (take_drop (notChar close) s) as E.
  pose proof (takeWhile_all (notChar close) s) as A.
  destruct (takeWhile (notChar close) s) as [|x t] eqn:Et; [discriminate|].
  destruct (dropWhile (notChar close) s) as [|c r] eqn:Ed; [discriminate|].
  injection H as <- <-.
  apply dropWhile_head in Ed. unfold notChar in Ed.
  apply negb_false_iff, char_eqb_eq in Ed. subst c.
  split; [now symmetry|]. split; [discriminate|].
  now apply without_forallb.
Qed.

Lemma field_none close s : without close s -> field close s = None.
Proof.
  intros Hw. apply without_forallb in Hw. unfold field.
  rewrite (@dropWhile_all _ _ Hw). now destruct (takeWhile _ s).
Qed.

(** The text after a field is a piece of the text the field was read from. *)
Lemma field_rest_without close a s f rest :
  field close s = Some (f, rest) -> without a s -> without a rest.
Proof.
  intros H Hw. apply field_sound in H. destruct H as [-> _].
  apply without_app in Hw. destruct Hw as [_ Hw].
  apply without_cons in Hw. tauto.
Qed.

End ShapeFacts.

(* ================================================================== *)
(** ** The pipeline on well-formed text *)

Module Pipeline.
Import JsFacts ReFacts Shape ShapeFacts Scan Patterns AIAgentManager Statements.

Lemma anchored_prefix (pfx : list N) (f : list N -> option (list N)) :
  anchored (fun s => andThen (stripPrefix (ch "[" :: pfx) s) f).
Proof.
  split; [reflexivity|]. intros c s Hc. cbn [andThen stripPrefix].
  apply char_eqb_neq in Hc. now rewrite Hc.
Qed.

Lemma vizRest_anchored : anchored vizRest.
Proof. apply anchored_prefix. Qed.

Lemma tableRest_anchored : anchored tableRest.
Proof. apply anchored_prefix. Qed.

Lemma vizToken_anchored : anchored (tokenRest "[VIZ:").
Proof. apply anchored_prefix. Qed.

Lemma tableToken_anchored : anchored (tokenRest "[TABLE:").
Proof. apply anchored_prefix. Qed.

Section Anchored.
Variable r : regex.
Variable restOf : list N -> option (list N).
Hypothesis described : forall prev s, run r prev s (fun _ rest => Some rest) = restOf s.
Hypothesis anchor : anchored restOf.

Lemma suffix_unanchored (pre s a b : list N) :
  without "[" pre -> pre = a ++ b -> b <> [] -> restOf (b ++ s) = None.
Proof.
  intros Hw -> Hb. destruct b as [|c b]; [contradiction|].
  apply without_app in Hw. destruct Hw as [_ Hw].
  apply without_cons in Hw. destruct Hw as [Hc _].
  now apply anchor.
Qed.

Lemma remove_plain pre s prev :
  without "[" pre ->
  remove_from r prev 0 (pre ++ s) = pre ++ remove_from r None 0 s.
Proof.
  intros Hw. apply (@remove_pass r restOf described). intros a b.
  now apply suffix_unanchored.
Qed.

Lemma matches_plain pre s prev :
  without "[" pre ->
  matches_from r prev 0 (pre ++ s) = matches_from r None 0 s.
Proof.
  intros Hw. apply (@matches_pass r restOf described). intros a b.
  now apply suffix_unanchored.
Qed.

Lemma suffix_of_token (body s a b : list N) :
  without "[" body -> restOf (ch "[" :: body ++ s) = None ->
  ch "[" :: body = a ++ b -> b <> [] -> restOf (b ++ s) = None.
Proof.
  intros Hw Hnone E Hb. destruct a as [|x a].
  - simpl in E. subst b. exact Hnone.
  - injection E as _ E. now apply (@suffix_unanchored body s a b).
Qed.

(** A bracketed token the pattern does not match at its bracket, and
    which has no other opening bracket, is passed over. *)
Lemma remove_unmatched body s prev :
  without "[" body -> restOf (ch "[" :: body ++ s) = None ->
  remove_from r prev 0 ((ch "[" :: body) ++ s)
  = (ch "[" :: body) ++ remove_from r None 0 s.
Proof.
  intros Hw Hnone. apply (@remove_pass r restOf described). intros a b.
  now apply suffix_of_token.
Qed.

Lemma matches_unmatched body s prev :
  without "[" body -> restOf (ch "[" :: body ++ s) = None ->
  matches_from r prev 0 ((ch "[" :: body) ++ s) = matches_from r None 0 s.
Proof.
  intros Hw Hnone. apply (@matches_pass r restOf described). intros a b.
  now apply suffix_of_token.
Qed.

Lemma remove_end : remove_from r None 0 [] = [].
Proof. reflexivity. Qed.

Lemma matches_end : matches_from r None 0 [] = [].
Proof.
  simpl. rewrite (@exec_at_described r restOf described). now rewrite (proj1 anchor).
Qed.

Lemma remove_plain_all s prev :
  without "[" s -> remove_from r prev 0 s = s.
Proof.
  intros Hw. rewrite <- (app_nil_r s) at 1.
  rewrite (remove_plain s [] prev Hw). cbn [remove_from]. apply app_nil_r.
Qed.

Lemma matches_plain_all s prev :
  without "[" s -> matches_from r prev 0 s = [].
Proof.
  intros Hw. rewrite <- (app_nil_r s).
  rewrite (matches_plain s [] prev Hw). apply matches_end.
Qed.

End Anchored.

(** *** Tags *)

Lemma vizTag_body k t d : vizTag k t d = lit "[VIZ:" ++ vizBody k t d ++ [ch "]"].
Proof.
  unfold vizTag, vizBody. simpl.
  repeat (rewrite <- app_assoc; simpl). reflexivity.
Qed.

Lemma tableTag_body t d : tableTag t d = lit "[TABLE:" ++ tableBody t d ++ [ch "]"].
Proof.
  unfold tableTag, tableBody. simpl.
  repeat (rewrite <- app_assoc; simpl). reflexivity.
Qed.

Lemma vizTag_app k t d s :
  vizTag k t d ++ s = lit "[VIZ:" ++ k ++ ch ":" :: t ++ ch ":" :: d ++ ch "]" :: s.
Proof.
  unfold vizTag. simpl. repeat (rewrite <- app_assoc; simpl). reflexivity.
Qed.

Lemma tableTag_app t d s :
  tableTag t d ++ s = lit "[TABLE:" ++ t ++ ch ":" :: d ++ ch "]" :: s.
Proof.
  unfold tableTag. simpl. repeat (rewrite <- app_assoc; simpl). reflexivity.
Qed.

Lemma vizTag_token k t d s :
  vizTag k t d ++ s = lit "[VIZ:" ++ vizBody k t d ++ ch "]" :: s.
Proof.
  rewrite vizTag_body. simpl. repeat (rewrite <- app_assoc; simpl). reflexivity.
Qed.

Lemma tableTag_token t d s :
  tableTag t d ++ s = lit "[TABLE:" ++ tableBody t d ++ ch "]" :: s.
Proof.
  rewrite tableTag_body. simpl. repeat (rewrite <- app_assoc; simpl). reflexivity.
Qed.

Lemma vizBody_without a k t d :
  a <> ":"%char -> without a k -> without a t -> without a d ->
  without a (vizBody k t d).
Proof.
  intros Ha Hk Ht Hd. unfold vizBody.
  assert (Hc : ch ":" <> ch a).
  { intros E. apply Ha. unfold ch in E. apply (f_equal ascii_of_N) in E.
    now rewrite !ascii_N_embedding in E. }
  rewrite without_app, without_cons, without_app, without_cons. tauto.
Qed.

Lemma tableBody_without a t d :
  a <> ":"%char -> without a t -> without a d -> without a (tableBody t d).
Proof.
  intros Ha Ht Hd. unfold tableBody.
  assert (Hc : ch ":" <> ch a).
  { intros E. apply Ha. unfold ch in E. apply (f_equal ascii_of_N) in E.
    now rewrite !ascii_N_embedding in E. }
  rewrite without_app, without_cons. tauto.
Qed.

Lemma vizBody_nonempty k t d : vizBody k t d <> [].
Proof. unfold vizBody. now destruct k. Qed.

Lemma tableBody_nonempty t d : tableBody t d <> [].
Proof. unfold tableBody. now destruct t. Qed.

(** The extraction pattern accepts a tag with three proper fields. *)
Lemma vizRest_vizTag k t d s :
  k <> [] -> without ":" k -> t <> [] -> without ":" t ->
  d <> [] -> without "]" d ->
  vizRest (vizTag k t d ++ s) = Some s.
Proof.
  intros Hk Hk' Ht Ht' Hd Hd'. unfold vizRest.
  rewrite vizTag_app, stripPrefix_app. cbn [andThen].
  rewrite (field_found _ _ _ Hk Hk'). cbn [andThen snd].
  rewrite (field_found _ _ _ Ht Ht'). cbn [andThen snd].
  now rewrite (field_found _ _ _ Hd Hd').
Qed.

Lemma tableRest_tableTag t d s :
  t <> [] -> without ":" t -> d <> [] -> without "]" d ->
  tableRest (tableTag t d ++ s) = Some s.
Proof.
  intros Ht Ht' Hd Hd'. unfold tableRest.
  rewrite tableTag_app, stripPrefix_app. cbn [andThen].
  rewrite (field_found _ _ _ Ht Ht'). cbn [andThen snd].
  now rewrite (field_found _ _ _ Hd Hd').
Qed.

(** The clean-up patterns accept any bracketed token without an inner
    closing bracket. *)
Lemma tokenRest_token (pfx : string) body s :
  body <> [] -> without "]" body ->
  tokenRest pfx (lit pfx ++ body ++ ch "]" :: s) = Some s.
Proof.
  intros Hb Hb'. unfold tokenRest. rewrite stripPrefix_app. cbn [andThen].
  now rewrite (field_found _ _ _ Hb Hb').
Qed.

(** *** Reading the fields back from a match *)

Lemma split_without (a : ascii) s : without a s -> split (ch a) s = [s].
Proof.
  induction s as [|c s IH]; intros Hw; [reflexivity|].
  apply without_cons in Hw. destruct Hw as [Hc Hw].
  simpl. apply char_eqb_neq in Hc. rewrite Hc. now rewrite (IH Hw).
Qed.

Lemma split_field (a : ascii) f s :
  without a f -> split (ch a) (f ++ ch a :: s) = f :: split (ch a) s.
Proof.
  induction f as [|c f IH]; intros Hw.
  - simpl. unfold char_eqb. now rewrite N.eqb_refl.
  - apply without_cons in Hw. destruct Hw as [Hc Hw].
    simpl. apply char_eqb_neq in Hc. rewrite Hc. now rewrite (IH Hw).
Qed.

Lemma slice_inner {A : Type} (pfx body : list A) (c : A) :
  slice (pfx ++ body ++ [c]) (Z.of_nat (length pfx)) (Some (-1)%Z) = body.
Proof.
  unfold slice. rewrite !length_app. simpl length.
  destruct (Z.ltb_spec (Z.of_nat (length pfx)) 0) as [H|_]; [lia|].
  destruct (Z.ltb_spec (-1) 0) as [_|H]; [|lia].
  replace (Z.to_nat (Z.min (Z.of_nat (length pfx))
                           (Z.of_nat (length pfx + (length body + 1)))))
    with (length pfx) by lia.
  replace (Z.to_nat (Z.max (Z.of_nat (length pfx + (length body + 1)) + -1) 0
                     - Z.min (Z.of_nat (length pfx))
                             (Z.of_nat (length pfx + (length body + 1)))))
    with (length body) by lia.
  rewrite skipn_app, skipn_all, Nat.sub_diag. simpl.
  now rewrite firstn_app, firstn_all, Nat.sub_diag, firstn_0, app_nil_r.
Qed.

Lemma vizOfMatch_vizTag processedData k t d :
  without ":" k -> without ":" t -> without ":" d ->
  vizOfMatch processedData (vizTag k t d) = [vizFor processedData k t d].
Proof.
  intros Hk Ht Hd. unfold vizOfMatch. rewrite vizTag_body.
  change 5%Z with (Z.of_nat (length (lit "[VIZ:"))).
  rewrite (slice_inner (lit "[VIZ:") (vizBody k t d) (ch "]")).
  unfold vizBody. rewrite (split_field _ _ _ Hk), (split_field _ _ _ Ht), (split_without _ _ Hd).
  reflexivity.
Qed.

Lemma tableOfMatch_tableTag processedData t d :
  without ":" t -> without ":" d ->
  tableOfMatch processedData (tableTag t d) = [tableFor processedData t d].
Proof.
  intros Ht Hd. unfold tableOfMatch. rewrite tableTag_body.
  change 7%Z with (Z.of_nat (length (lit "[TABLE:"))).
  rewrite (slice_inner (lit "[TABLE:") (tableBody t d) (ch "]")).
  unfold tableBody. rewrite (split_field _ _ _ Ht), (split_without _ _ Hd).
  reflexivity.
Qed.

(** *** [parseAIResponse] through the searches *)

Lemma parse_visualizations text processedData :
  AgentResponse.visualizations (parseAIResponse text processedData)
  = Some (flat_map (vizOfMatch processedData) (matches_from vizPattern None 0 text)).
Proof.
  unfold parseAIResponse, match_g. cbn [AgentResponse.visualizations].
  now destruct (matches_from vizPattern None 0 text).
Qed.

Lemma parse_tables text processedData :
  AgentResponse.tables (parseAIResponse text processedData)
  = Some (flat_map (tableOfMatch processedData) (matches_from tablePattern None 0 text)).
Proof.
  unfold parseAIResponse, match_g. cbn [AgentResponse.tables].
  now destruct (matches_from tablePattern None 0 text).
Qed.

Lemma parse_content text processedData :
  AgentResponse.content (parseAIResponse text processedData)
  = trim (remove_from tableStripPattern None 0
            (remove_from vizStripPattern None 0 text)).
Proof. reflexivity. Qed.

(** *** The four passes over well-formed text *)

Lemma renderAll_cons g segs rest :
  renderAll (g :: segs) ++ rest = render g ++ (renderAll segs ++ rest).
Proof. unfold renderAll. simpl. now rewrite app_assoc. Qed.

Lemma vizTag_inside k t d :
  fieldOk k -> fieldOk t -> fieldOk d ->
  vizTag k t d = ch "[" :: (lit "VIZ:" ++ vizBody k t d ++ [ch "]"])
  /\ without "[" (lit "VIZ:" ++ vizBody k t d ++ [ch "]"]).
Proof.
  intros (_ & _ & _ & Hk) (_ & _ & _ & Ht) (_ & _ & _ & Hd).
  split; [now rewrite vizTag_body|].
  rewrite !without_app. repeat split.
  - unfold without. simpl. intuition discriminate.
  - apply vizBody_without; [discriminate | assumption..].
  - unfold without. simpl. intuition discriminate.
Qed.

Lemma tableTag_inside t d :
  fieldOk t -> fieldOk d ->
  tableTag t d = ch "[" :: (lit "TABLE:" ++ tableBody t d ++ [ch "]"])
  /\ without "[" (lit "TABLE:" ++ tableBody t d ++ [ch "]"]).
Proof.
  intros (_ & _ & _ & Ht) (_ & _ & _ & Hd).
  split; [now rewrite tableTag_body|].
  rewrite !without_app. repeat split.
  - unfold without. simpl. intuition discriminate.
  - apply tableBody_without; [discriminate | assumption..].
  - unfold without. simpl. intuition discriminate.
Qed.

Lemma scan_viz segs rest :
  Forall segmentOk segs ->
  matches_from vizPattern None 0 (renderAll segs ++ rest)
  = vizTagsOf segs ++ matches_from vizPattern None 0 rest.
Proof.
  induction 1 as [|g segs Hg _ IH]; [reflexivity|].
  rewrite renderAll_cons.
  destruct g as [s|k t d|t d];
    cbn [render segmentOk vizTagsOf flat_map app] in Hg |- *;
    fold (vizTagsOf segs).
  - rewrite (@matches_plain _ _ run_viz vizRest_anchored) by exact Hg. exact IH.
  - destruct Hg as ((Hk & Hk' & _) & (Ht & Ht' & _) & (Hd & _ & Hd' & _)).
    rewrite (@matches_match _ _ run_viz).
    + now rewrite IH.
    + rewrite vizTag_body. discriminate.
    + now apply vizRest_vizTag.
  - destruct Hg as (Ht & Hd).
    destruct (tableTag_inside _ _ Ht Hd) as [-> Hw].
    rewrite (@matches_unmatched _ _ run_viz vizRest_anchored);
      [exact IH | exact Hw | reflexivity].
Qed.

Lemma scan_table segs rest :
  Forall segmentOk segs ->
  matches_from tablePattern None 0 (renderAll segs ++ rest)
  = tableTagsOf segs ++ matches_from tablePattern None 0 rest.
Proof.
  induction 1 as [|g segs Hg _ IH]; [reflexivity|].
  rewrite renderAll_cons.
  destruct g as [s|k t d|t d];
    cbn [render segmentOk tableTagsOf flat_map app] in Hg |- *;
    fold (tableTagsOf segs).
  - rewrite (@matches_plain _ _ run_table tableRest_anchored) by exact Hg. exact IH.
  - destruct Hg as (Hk & Ht & Hd).
    destruct (vizTag_inside _ _ _ Hk Ht Hd) as [-> Hw].
    rewrite (@matches_unmatched _ _ run_table tableRest_anchored);
      [exact IH | exact Hw | reflexivity].
  - destruct Hg as ((Ht & Ht' & _) & (Hd & _ & Hd' & _)).
    rewrite (@matches_match _ _ run_table).
    + now rewrite IH.
    + rewrite tableTag_body. discriminate.
    + now apply tableRest_tableTag.
Qed.

Lemma run_vizStrip prev s :
  run vizStripPattern prev s (fun _ rest => Some rest) = tokenRest "[VIZ:" s.
Proof. apply (run_strip "[VIZ:"). Qed.

Lemma run_tableStrip prev s :
  run tableStripPattern prev s (fun _ rest => Some rest) = tokenRest "[TABLE:" s.
Proof. apply (run_strip "[TABLE:"). Qed.

Lemma vizToken_vizTag k t d s :
  without "]" k -> without "]" t -> without "]" d ->
  tokenRest "[VIZ:" (vizTag k t d ++ s) = Some s.
Proof.
  intros Hk Ht Hd. rewrite vizTag_token. apply tokenRest_token.
  - apply vizBody_nonempty.
  - apply vizBody_without; [discriminate | assumption..].
Qed.

Lemma tableToken_tableTag t d s :
  without "]" t -> without "]" d ->
  tokenRest "[TABLE:" (tableTag t d ++ s) = Some s.
Proof.
  intros Ht Hd. rewrite tableTag_token. apply tokenRest_token.
  - apply tableBody_nonempty.
  - apply tableBody_without; [discriminate | assumption..].
Qed.

Lemma strip_viz segs rest :
  Forall segmentOk segs ->
  remove_from vizStripPattern None 0 (renderAll segs ++ rest)
  = renderAll (dropViz segs) ++ remove_from vizStripPattern None 0 rest.
Proof.
  induction 1 as [|g segs Hg _ IH]; [reflexivity|].
  rewrite renderAll_cons.
  destruct g as [s|k t d|t d];
    cbn [render segmentOk dropViz filter isViz negb] in Hg |- *;
    fold (dropViz segs); try rewrite renderAll_cons; cbn [render].
  - rewrite (@remove_plain _ _ run_vizStrip vizToken_anchored) by exact Hg.
    now rewrite IH.
  - destruct Hg as ((_ & _ & Hk & _) & (_ & _ & Ht & _) & (_ & _ & Hd & _)).
    rewrite (@remove_match _ _ run_vizStrip).
    + exact IH.
    + rewrite vizTag_body. discriminate.
    + now apply vizToken_vizTag.
  - destruct Hg as (Ht & Hd).
    destruct (tableTag_inside _ _ Ht Hd) as [-> Hw].
    rewrite (@remove_unmatched _ _ run_vizStrip vizToken_anchored);
      [now rewrite IH | exact Hw | reflexivity].
Qed.

Lemma strip_table segs rest :
  Forall segmentOk segs ->
  remove_from tableStripPattern None 0 (renderAll segs ++ rest)
  = renderAll (dropTable segs) ++ remove_from tableStripPattern None 0 rest.
Proof.
  induction 1 as [|g segs Hg _ IH]; [reflexivity|].
  rewrite renderAll_cons.
  destruct g as [s|k t d|t d];
    cbn [render segmentOk dropTable filter isTable negb] in Hg |- *;
    fold (dropTable segs); try rewrite renderAll_cons; cbn [render].
  - rewrite (@remove_plain _ _ run_tableStrip tableToken_anchored) by exact Hg.
    now rewrite IH.
  - destruct Hg as (Hk & Ht & Hd).
    destruct (vizTag_inside _ _ _ Hk Ht Hd) as [-> Hw].
    rewrite (@remove_unmatched _ _ run_tableStrip tableToken_anchored);
      [now rewrite IH | exact Hw | reflexivity].
  - destruct Hg as ((_ & _ & Ht & _) & (_ & _ & Hd & _)).
    rewrite (@remove_match _ _ run_tableStrip).
    + exact IH.
    + rewrite tableTag_body. discriminate.
    + now apply tableToken_tableTag.
Qed.

Lemma dropViz_ok segs : Forall segmentOk segs -> Forall segmentOk (dropViz segs).
Proof.
  intros H. apply Forall_forall. intros g Hg.
  apply filter_In in Hg. destruct Hg as [Hg _].
  now apply (proj1 (Forall_forall _ _) H).
Qed.

Lemma dropBoth_plain segs : renderAll (dropTable (dropViz segs)) = plainText segs.
Proof.
  unfold renderAll, plainText, dropTable, dropViz.
  induction segs as [|g segs IH]; [reflexivity|].
  destruct g as [s|k t d|t d]; simpl; [now rewrite IH | exact IH | exact IH].
Qed.

Lemma vizOf_tags processedData segs :
  Forall segmentOk segs ->
  flat_map (vizOfMatch processedData) (vizTagsOf segs) = vizOf processedData segs.
Proof.
  induction 1 as [|g segs Hg _ IH]; [reflexivity|].
  destruct g as [s|k t d|t d]; cbn [vizTagsOf vizOf flat_map app] in *;
    try exact IH.
  destruct Hg as ((_ & Hk & _) & (_ & Ht & _) & (_ & Hd & _)).
  rewrite (vizOfMatch_vizTag _ _ _ _ Hk Ht Hd). cbn [app]. f_equal. exact IH.
Qed.

Lemma tablesOf_tags processedData segs :
  Forall segmentOk segs ->
  flat_map (tableOfMatch processedData) (tableTagsOf segs) = tablesOf processedData segs.
Proof.
  induction 1 as [|g segs Hg _ IH]; [reflexivity|].
  destruct g as [s|k t d|t d]; cbn [tableTagsOf tablesOf flat_map app] in *;
    try exact IH.
  destruct Hg as ((_ & Ht & _) & (_ & Hd & _)).
  rewrite (tableOfMatch_tableTag _ _ _ Ht Hd). cbn [app]. f_equal. exact IH.
Qed.

Lemma plainText_without segs : Forall segmentOk segs -> without "[" (plainText segs).
Proof.
  unfold plainText.
  induction 1 as [|g segs Hg _ IH]; [intros []|].
  destruct g as [s|k t d|t d]; simpl; try exact IH.
  apply without_app. now split.
Qed.

End Pipeline.

(* ================================================================== *)
(** ** Tokens the extraction pattern rejects *)

Module Malformed.
Import JsFacts ReFacts Shape ShapeFacts Scan Patterns Pipeline AIAgentManager Statements.

Lemma field_rest close s f rest :
  field close s = Some (f, rest) -> rest = afterClose close s.
Proof.
  unfold field, afterClose.
  destruct (takeWhile (notChar close) s); [discriminate|].
  destruct (dropWhile (notChar close) s); [discriminate|].
  now intros [= _ <-].
Qed.

Lemma dropWhile_skip (p : N -> bool) a s :
  forallb p a = true -> dropWhile p (a ++ s) = dropWhile p s.
Proof.
  induction a as [|c a IH]; intros H; [reflexivity|].
  simpl in *. apply andb_prop in H. destruct H as [-> H]. now apply IH.
Qed.

Lemma afterClose_skip close a s :
  without close a -> afterClose close (a ++ s) = afterClose close s.
Proof.
  intros Hw. unfold afterClose. apply without_forallb in Hw.
  now rewrite dropWhile_skip.
Qed.

Lemma afterClose_found close a s :
  without close a -> afterClose close (a ++ ch close :: s) = s.
Proof.
  intros Hw. rewrite afterClose_skip by exact Hw.
  unfold afterClose, notChar. simpl. unfold char_eqb. now rewrite N.eqb_refl.
Qed.

Lemma afterClose_without close a s : without a s -> without a (afterClose close s).
Proof.
  unfold afterClose. intros Hw.
  rewrite <- (take_drop (notChar close) s) in Hw.
  apply without_app in Hw. destruct Hw as [_ Hw].
  destruct (dropWhile (notChar close) s) as [|c r]; [exact Hw|].
  apply without_cons in Hw. now destruct Hw.
Qed.

Lemma split_nonempty sep s : split sep s <> [].
Proof.
  destruct s as [|c s]; simpl; [discriminate|].
  destruct (char_eqb c sep); [discriminate|]. now destruct (split sep s).
Qed.

Lemma split_single (a : ascii) s :
  length (split (ch a) s) = 1 -> without a s.
Proof.
  induction s as [|c s IH]; [intros _ []|].
  simpl. destruct (char_eqb c (ch a)) eqn:E.
  - pose proof (@split_nonempty (ch a) s) as Hne.
    destruct (split (ch a) s); [contradiction | discriminate].
  - pose proof (@split_nonempty (ch a) s) as Hne.
    destruct (split (ch a) s) as [|h t] eqn:Es; [contradiction|].
    simpl. intros H. apply without_cons. split.
    + now apply char_eqb_neq.
    + apply IH. exact H.
Qed.

(** Fewer than three colon-separated fields: no colon, or one colon. *)
Lemma few_fields body :
  length (split (ch ":") body) < 3 ->
  without ":" body
  \/ exists b1 b2, body = b1 ++ ch ":" :: b2 /\ without ":" b1 /\ without ":" b2.
Proof.
  intros Hlen.
  pose proof (take_drop (notChar ":") body) as E.
  pose proof (takeWhile_all (notChar ":") body) as A.
  apply without_forallb in A.
  destruct (dropWhile (notChar ":") body) as [|c b2] eqn:Ed.
  - left. rewrite app_nil_r in E. now rewrite <- E.
  - right. apply dropWhile_head in Ed. unfold notChar in Ed.
    apply negb_false_iff, char_eqb_eq in Ed. subst c.
    exists (takeWhile (notChar ":") body), b2.
    split; [now symmetry|]. split; [exact A|].
    rewrite <- E, (split_field _ _ _ A) in Hlen. cbn [length] in Hlen.
    apply split_single.
    pose proof (@split_nonempty (ch ":") b2) as Hne.
    destruct (split (ch ":") b2); [contradiction|]. cbn [length] in *. lia.
Qed.

(** A bracketed [VIZ] token with fewer than three fields, followed by
    text without a closing bracket, is not a match of the extraction
    pattern. *)
Lemma vizRest_few_fields body post :
  length (split (ch ":") body) < 3 -> without "]" post ->
  vizRest (lit "[VIZ:" ++ body ++ ch "]" :: post) = None.
Proof.
  intros Hlen Hpost. unfold vizRest. rewrite stripPrefix_app. cbn [andThen].
  destruct (field ":" (body ++ ch "]" :: post)) as [[f1 s2]|] eqn:E1;
    [|reflexivity].
  cbn [andThen snd]. apply field_rest in E1.
  destruct (field ":" s2) as [[f2 s3]|] eqn:E2; [|reflexivity].
  cbn [andThen snd]. apply field_rest in E2.
  rewrite field_none; [reflexivity|].
  assert (Hclose : without ":" [ch "]"]).
  { unfold without. simpl. intuition discriminate. }
  destruct (@few_fields body Hlen) as [Hb|(b1 & b2 & -> & Hb1 & Hb2)].
  - subst s3 s2.
    change (body ++ ch "]" :: post) with (body ++ [ch "]"] ++ post).
    rewrite app_assoc, afterClose_skip
      by (apply without_app; now split).
    now do 2 apply afterClose_without.
  - subst s3 s2. rewrite <- app_assoc. cbn [app].
    rewrite afterClose_found by exact Hb1.
    change (b2 ++ ch "]" :: post) with (b2 ++ [ch "]"] ++ post).
    rewrite app_assoc, afterClose_skip
      by (apply without_app; now split).
    now apply afterClose_without.
Qed.

(** The same for a bracketed [TABLE] token with a single field. *)
Lemma tableRest_few_fields body post :
  length (split (ch ":") body) < 2 -> without "]" post ->
  tableRest (lit "[TABLE:" ++ body ++ ch "]" :: post) = None.
Proof.
  intros Hlen Hpost. unfold tableRest. rewrite stripPrefix_app. cbn [andThen].
  destruct (field ":" (body ++ ch "]" :: post)) as [[f1 s2]|] eqn:E1;
    [|reflexivity].
  cbn [andThen snd]. apply field_rest in E1.
  rewrite field_none; [reflexivity|].
  assert (Hclose : without ":" [ch "]"]).
  { unfold without. simpl. intuition discriminate. }
  assert (Hb : without ":" body).
  { apply split_single.
    pose proof (split_nonempty (ch ":") body) as Hne.
    destruct (split (ch ":") body); [contradiction|]. cbn [length] in *. lia. }
  subst s2.
  change (body ++ ch "]" :: post) with (body ++ [ch "]"] ++ post).
  rewrite app_assoc, afterClose_skip by (apply without_app; now split).
  now apply afterClose_without.
Qed.

(** Without a closing bracket nothing matches. *)
Lemma vizRest_unclosed s : without "]" s -> vizRest s = None.
Proof.
  intros Hw. unfold vizRest.
  destruct (stripPrefix (lit "[VIZ:") s) as [s1|] eqn:E0; [|reflexivity].
  apply stripPrefix_sound in E0. subst s.
  apply without_app in Hw. destruct Hw as [_ Hw]. cbn [andThen].
  destruct (field ":" s1) as [[f1 s2]|] eqn:E1; [|reflexivity].
  cbn [andThen snd]. pose proof (@field_rest_without _ _ _ _ _ E1 Hw) as Hw2.
  destruct (field ":" s2) as [[f2 s3]|] eqn:E2; [|reflexivity].
  cbn [andThen snd]. pose proof (@field_rest_without _ _ _ _ _ E2 Hw2) as Hw3.
  now rewrite field_none.
Qed.

Lemma tableRest_unclosed s : without "]" s -> tableRest s = None.
Proof.
  intros Hw. unfold tableRest.
  destruct (stripPrefix (lit "[TABLE:") s) as [s1|] eqn:E0; [|reflexivity].
  apply stripPrefix_sound in E0. subst s.
  apply without_app in Hw. destruct Hw as [_ Hw]. cbn [andThen].
  destruct (field ":" s1) as [[f1 s2]|] eqn:E1; [|reflexivity].
  cbn [andThen snd]. pose proof (@field_rest_without _ _ _ _ _ E1 Hw) as Hw2.
  now rewrite field_none.
Qed.

Lemma tokenRest_unclosed pfx s : without "]" s -> tokenRest pfx s = None.
Proof.
  intros Hw. unfold tokenRest.
  destruct (stripPrefix (lit pfx) s) as [s1|] eqn:E0; [|reflexivity].
  apply stripPrefix_sound in E0. subst s.
  apply without_app in Hw. destruct Hw as [_ Hw]. cbn [andThen].
  now rewrite field_none.
Qed.

Section Unclosed.
Variable r : regex.
Variable restOf : list N -> option (list N).
Hypothesis described : forall prev s, run r prev s (fun _ rest => Some rest) = restOf s.
Hypothesis unclosed : forall s, without "]" s -> restOf s = None.

Lemma test_unclosed text : without "]" text -> test r text = false.
Proof.
  intros Hw. unfold test. apply (@test_false_iff r restOf described).
  intros a b ->. apply unclosed. apply without_app in Hw. tauto.
Qed.

End Unclosed.

End Malformed.

(* ================================================================== *)
(** * The embedding on the scenarios of the specification *)

Module Scenarios.
Import FileProcessor AIAgentManager Statements.

(** A bar chart asked for without a file. *)
Example bar_chart_without_file :
  parseAIResponse (lit "Here: [VIZ:bar:Sample:Demo]") None
  = AgentResponse.mk (lit "Here:")
      (Some [VisualizationData.mk (lit "chart") (lit "bar") (lit "Sample") (lit "Demo")
               (ChartData.mk
                  [lit "Category A"; lit "Category B"; lit "Category C"; lit "Category D"]
                  [Dataset.mk (lit "Sample Data") [30; 45; 25; 35]%Z])
               (ChartConfig.mk true (lit "top") true (lit "Data Visualization")
                               (Some true))])
      (Some []) (85 # 100)%Q [].
Proof. reflexivity. Qed.

(** Fields beyond those read are dropped; a table with one field is not
    extracted. *)
Example extra_fields :
  option_map (map (fun t => (TableData.title t, TableData.description t)))
             (AgentResponse.tables
                (parseAIResponse (lit "a [TABLE:t:d:e] b [TABLE:x]") None))
  = Some [(lit "t", lit "d")].
Proof. reflexivity. Qed.

(** A query on a stored csv file: the answer names its source. *)
Example query_with_file :
  fst (processQuery (answeringHost (lit "See [TABLE:Top:Rows].")) (lit "top rows?")
                    (Some 1%Z) [])
  = AgentResponse.mk (lit "See .") (Some [])
      (Some [TableData.mk (lit "Top") (lit "Rows")
               [lit "Product"; lit "Sales"; lit "Growth"; lit "Region"]
               [[lit "Product A"; lit "$45,000"; lit "+12%"; lit "North"];
                [lit "Product B"; lit "$32,000"; lit "+8%"; lit "South"];
                [lit "Product C"; lit "$58,000"; lit "+15%"; lit "East"];
                [lit "Product D"; lit "$41,000"; lit "+5%"; lit "West"];
                [lit "Product E"; lit "$37,000"; lit "+10%"; lit "Central"]]])
      (85 # 100)%Q [lit "csv"].
Proof. reflexivity. Qed.

(** A file id of zero is no file id. *)
Example query_with_id_zero :
  AgentResponse.sources
    (fst (processQuery (answeringHost (lit "ok")) (lit "hello") (Some 0%Z) []))
  = [].
Proof. reflexivity. Qed.

(** An unsupported type tag is an error of ingestion. *)
Example unsupported_type :
  processFile (Host.fs (answeringHost [])) (lit "uploads/1/run.exe") (lit "exe")
  = Throw (UnsupportedFileType (lit "exe")).
Proof. reflexivity. Qed.

Example summary_of_csv :
  generateSummary sampleCsv
  = Ok (lit "CSV file with 2 rows and 3 columns. Headers: a, b, c").
Proof. reflexivity. Qed.

Example summary_of_log :
  generateSummary (processLogFile sampleLogLine 44)
  = Ok (lit "Log file with 1 entries. Contains timestamps. Contains log levels. Contains IP addresses.").
Proof. reflexivity. Qed.

Example summary_of_text :
  generateSummary (processTextFile (lit "one
two") 1536)
  = Ok (lit "Text file with 2 lines (1.5 KB)").
Proof. reflexivity. Qed.

Example sizes_rendered :
  map formatFileSize [1; 1023; 1048575; 1500000; 1073741824]%N
  = [lit "1 Bytes"; lit "1023 Bytes"; lit "1024 KB"; lit "1.43 MB"; lit "1 GB"].
Proof. reflexivity. Qed.

(** Hundredths are written without trailing zeros. *)
Example hundredths_rendered :
  map showHundredths [100; 150; 143; 105; 102400]%N
  = [lit "1"; lit "1.5"; lit "1.43"; lit "1.05"; lit "1024"].
Proof. reflexivity. Qed.

(** The address pattern needs a word boundary on both sides. *)
Example ip_needs_boundary :
  test ipPattern (lit "1.2.3.4567") = false
  /\ test ipPattern (lit "host 10.0.0.1 up") = true.
Proof. split; reflexivity. Qed.

(** The severity pattern matches whole words, in any case. *)
Example level_is_a_word :
  test levelPattern (lit "xINFOx") = false
  /\ test levelPattern (lit "an eRRor") = true.
Proof. split; reflexivity. Qed.

Example user_prompt_with_history :
  buildUserPrompt (lit "and now?")
    (buildConversationContext
       [ChatMessage.mk (lit "user") (lit "hi");
        ChatMessage.mk (lit "assistant") (lit "hello")])
  = lit "Previous conversation:
User: hi
Assistant: hello

Current question: and now?".
Proof. reflexivity. Qed.

End Scenarios.

(* ================================================================== *)
(** * Properties *)

Module Fixtures.
Import JsFacts FileProcessor AIAgentManager Statements.

(** C5. With a file of kind csv, the synthesized series depend on the
    chart type alone: line gives the two 6-point monthly series Sales and
    Profit, pie the single 4-slice series Revenue Share whose values add up
    to 100, area the two 4-quarter series Revenue and Costs, and every
    other chart type the single 5-category regional series Sales. *)
Theorem csv_visualization_fixtures
        (processedData : ProcessedFileData.t) (chartType : list N) :
  ProcessedFileData.type processedData = Tcsv ->
  generateVisualizationData (lit "line") (Some processedData)
  = ChartData.mk
      [lit "Jan"; lit "Feb"; lit "Mar"; lit "Apr"; lit "May"; lit "Jun"]
      [Dataset.mk (lit "Sales") [12000; 19000; 15000; 25000; 22000; 30000]%Z;
       Dataset.mk (lit "Profit") [3000; 4500; 3800; 6200; 5500; 7500]%Z]
  /\ (generateVisualizationData (lit "pie") (Some processedData)
      = ChartData.mk
          [lit "Product A"; lit "Product B"; lit "Product C"; lit "Product D"]
          [Dataset.mk (lit "Revenue Share") [35; 25; 20; 20]%Z]
      /\ map (fun d => fold_right Z.add 0%Z (Dataset.data d))
             (ChartData.datasets
                (generateVisualizationData (lit "pie") (Some processedData)))
         = [100%Z])
  /\ generateVisualizationData (lit "area") (Some processedData)
     = ChartData.mk
         [lit "Q1"; lit "Q2"; lit "Q3"; lit "Q4"]
         [Dataset.mk (lit "Revenue") [45000; 52000; 48000; 61000]%Z;
          Dataset.mk (lit "Costs") [32000; 38000; 35000; 42000]%Z]
  /\ (chartType <> lit "line" -> chartType <> lit "pie" ->
      chartType <> lit "area" ->
      generateVisualizationData chartType (Some processedData)
      = ChartData.mk
          [lit "North"; lit "South"; lit "East"; lit "West"; lit "Central"]
          [Dataset.mk (lit "Sales") [23000; 18000; 31000; 15000; 27000]%Z]).
Proof.
  intros Hcsv. unfold generateVisualizationData. rewrite Hcsv.
  repeat split.
  intros Hline Hpie Harea. unfold generateCSVVisualizationData.
  apply str_eqb_neq in Hline, Hpie, Harea.
  now rewrite Hline, Hpie, Harea.
Qed.

Lemma csv_visualization_fixtures_witness :
  ProcessedFileData.type sampleCsv = Tcsv
  /\ generateVisualizationData (lit "scatter") (Some sampleCsv)
     = ChartData.mk
         [lit "North"; lit "South"; lit "East"; lit "West"; lit "Central"]
         [Dataset.mk (lit "Sales") [23000; 18000; 31000; 15000; 27000]%Z].
Proof.
  split; [reflexivity|].
  apply (csv_visualization_fixtures sampleCsv (lit "scatter") eq_refl);
    apply str_eqb_neq; reflexivity.
Defined.

Lemma generateTableData_uniform (processedData : option ProcessedFileData.t) :
  Forall (fun row => length row = length (fst (generateTableData processedData)))
         (snd (generateTableData processedData)).
Proof.
  destruct processedData as [[[] ? ? ? ?]|]; simpl; repeat constructor.
Qed.

Lemma parse_tables_uniform (text : list N)
      (processedData : option ProcessedFileData.t) :
  exists tables,
    AgentResponse.tables (parseAIResponse text processedData) = Some tables
    /\ Forall uniformRows tables.
Proof.
  eexists. split; [reflexivity|].
  destruct (match_g tablePattern text) as [tableMatches|]; [|constructor].
  apply Forall_flat_map. apply Forall_forall. intros m _.
  unfold tableOfMatch.
  destruct (2 <=? _)%nat; constructor; [|constructor].
  unfold uniformRows. simpl. apply generateTableData_uniform.
Qed.

(** C9. Row-shape invariant: whatever the file (or none), every row of the
    fixture of generateTableData is as long as its header list; so is every
    row of every table of a response built by parseAIResponse, and of
    every table an answer of processQuery carries. *)
Theorem table_rows_match_headers :
  (forall processedData : option ProcessedFileData.t,
      Forall (fun row => length row = length (fst (generateTableData processedData)))
             (snd (generateTableData processedData)))
  /\ (forall (text : list N) (processedData : option ProcessedFileData.t),
         exists tables,
           AgentResponse.tables (parseAIResponse text processedData) = Some tables
           /\ Forall (fun t => Forall (fun row => length row = length (TableData.headers t))
                                      (TableData.rows t))
                     tables)
  /\ (forall (host : Host.t) (query : list N) (fileId : option Z)
             (history : list ChatMessage.t),
         match AgentResponse.tables (fst (processQuery host query fileId history)) with
         | Some tables =>
             Forall (fun t => Forall (fun row => length row = length (TableData.headers t))
                                     (TableData.rows t))
                    tables
         | None => True
         end).
Proof.
  split; [exact generateTableData_uniform|]. split.
  - exact parse_tables_uniform.
  - intros host query fileId history. unfold processQuery, tryProcessQuery.
    destruct (loadFile host fileId) as [[fileContext processedData]|e];
      cbn [bind fst]; [|exact I].
    destruct (prompts query history fileContext processedData)
      as [systemPrompt userPrompt].
    destruct (Host.generateText host systemPrompt userPrompt) as [text|e];
      cbn [bind fst]; [|exact I].
    destruct (parse_tables_uniform text processedData) as (tables & -> & H).
    exact H.
Qed.

End Fixtures.

Module Ingestion.
Import JsFacts ReFacts FileProcessor Statements.

Lemma filter_none {A : Type} (f : A -> bool) (l : list A) :
  (forall x, In x l -> f x = false) -> filter f l = [].
Proof.
  induction l as [|x l IH]; intros H; simpl; [reflexivity|].
  rewrite (H x) by now left. apply IH. intros y Hy. apply H. now right.
Qed.

(** C10. A csv content without a non-blank line is still processed: no
    headers, a row count of -1 and a column count of 0. *)
Theorem csv_without_lines (content : list N) (size : N) :
  (forall line, In line (split newline content) -> trim line = []) ->
  processCsvFile content size
  = ProcessedFileData.mk Tcsv content
      (Metadata.mk size (Some 0) None (Some (lit "utf-8")))
      []
      (Some (SCsv (CsvStructure.mk None (-1)%Z 0 (lit ",")))).
Proof.
  intros Hblank. unfold processCsvFile.
  assert (E : nonBlankLines content = []).
  { unfold nonBlankLines. apply filter_none. intros line Hin.
    now rewrite (Hblank line Hin). }
  rewrite E. reflexivity.
Qed.

Lemma csv_without_lines_witness :
  (forall line, In line (split newline []) -> trim line = [])
  /\ csvInfo (processCsvFile [] 0)
     = Some (CsvStructure.mk None (-1)%Z 0 (lit ",")).
Proof.
  assert (H : forall line, In line (split newline []) -> trim line = []).
  { intros line [<-|[]]. reflexivity. }
  split; [exact H|].
  unfold csvInfo. rewrite (csv_without_lines [] 0 H). reflexivity.
Defined.

Lemma headerCell_filter (h : list N) :
  headerCell h = filter (fun c => negb (char_eqb c 34)) (trim h).
Proof.
  unfold headerCell, remove_g. generalize (@None N). generalize (trim h).
  induction l as [|c l IH]; intros prev; [reflexivity|].
  simpl. unfold exec_at, quotePattern. cbn [run].
  destruct (char_eqb c 34); simpl.
  - replace (length l - length l) with 0 by lia.
    replace (match length l with 0 => S (length l) | S l0 => length l - l0 end)
      with 1 by (destruct (length l) eqn:E; lia).
    apply IH.
  - f_equal. apply IH.
Qed.

(** C7, as the code has it.  The first non-blank line is the header row;
    each header cell is a comma-separated piece of it, trimmed and then
    freed of every double quote (inner ones too); the row count is the
    number of non-blank lines after the header and the column count the
    number of header cells. *)
Theorem csv_header_row (content : list N) (size : N)
        (line0 : list N) (others : list (list N)) :
  nonBlankLines content = line0 :: others ->
  csvInfo (processCsvFile content size)
  = Some (CsvStructure.mk
            (Some (map (fun cell => filter (fun c => negb (char_eqb c 34)) (trim cell))
                       (split (ch ",") line0)))
            (Z.of_nat (length others))
            (length (split (ch ",") line0))
            (lit ",")).
Proof.
  intros Hlines. unfold csvInfo, processCsvFile. rewrite Hlines. cbn [nth_error].
  cbn [ProcessedFileData.structure lengthOrZero]. do 2 f_equal.
  - f_equal. apply map_ext. intros cell. apply headerCell_filter.
  - cbn [length]. lia.
  - apply length_map.
Qed.

Lemma csv_header_row_witness :
  nonBlankLines sampleCsvText = lit "a,b,c" :: [lit "1,2,3"; lit "4,5,6"]
  /\ csvInfo (processCsvFile sampleCsvText 17)
     = Some (CsvStructure.mk (Some [lit "a"; lit "b"; lit "c"]) 2 3 (lit ",")).
Proof.
  split; [reflexivity|].
  rewrite (@csv_header_row sampleCsvText 17 (lit "a,b,c")
             [lit "1,2,3"; lit "4,5,6"] eq_refl).
  reflexivity.
Defined.

(** C7 as worded fails: a double quote inside a cell is removed as well,
    where stripping the surrounding quotes would keep it. *)
Lemma csv_header_row_counterexample :
  option_map CsvStructure.headers (csvInfo (processCsvFile quotedHeaderText 5))
  = Some (Some [lit "ab"; lit "c"])
  /\ map (fun cell => stripSurroundingQuotes (trim cell))
         (split (ch ",") quotedHeaderText)
     = [lit "a" ++ [34%N] ++ lit "b"; lit "c"]
  /\ option_map CsvStructure.headers (csvInfo (processCsvFile quotedHeaderText 5))
     <> Some (Some (map (fun cell => stripSurroundingQuotes (trim cell))
                        (split (ch ",") quotedHeaderText))).
Proof.
  split; [reflexivity|]. split; [reflexivity|]. vm_compute. discriminate.
Qed.

Lemma test_from_found (r : regex) (a b : list N) : forall prev rest,
  run r (lastChar prev a) b (fun _ rest => Some rest) = Some rest ->
  test_from r prev (a ++ b) = true.
Proof.
  induction a as [|c a IH]; intros prev rest H.
  - simpl in *. destruct b; simpl; unfold exec_at; now rewrite H.
  - simpl. destruct (exec_at r prev (c :: a ++ b)); [reflexivity|].
    apply (IH (Some c) rest). exact H.
Qed.

Lemma rep_exact_zero p prev s k : rep p 0 (Some 0) prev s k = k prev s.
Proof. destruct s as [|c s]; simpl; [reflexivity|]. now rewrite andb_false_r. Qed.

Lemma rep_exact_step p m prev c s k :
  p c = true ->
  rep p (S m) (Some (S m)) prev (c :: s) k = rep p m (Some m) (Some c) s k.
Proof.
  intros Hc. simpl. rewrite Hc. simpl.
  now destruct (rep p m (Some m) (Some c) s k).
Qed.

Lemma isDateTime_run (ts post : list N) prev :
  isDateTime ts = true ->
  run timestampPattern prev (ts ++ post) (fun _ rest => Some rest) = Some post.
Proof.
  intros H.
  do 19 (destruct ts as [|? ts]; [discriminate|]).
  destruct ts; [|discriminate].
  unfold isDateTime in H.
  do 18 (apply andb_prop in H; let H' := fresh "H" in destruct H as [H H']).
  unfold timestampPattern, Times, Lit, isChar. cbn [seq app].
  repeat (cbn [run];
          first [ rewrite rep_exact_step by assumption
                | rewrite rep_exact_zero
                | match goal with
                  | Hc : ?b = true |- context [if ?b then _ else _] => rewrite Hc
                  end ]).
  cbn [run]. reflexivity.
Qed.

Lemma lastChar_snoc prev (a : list N) c : lastChar prev (a ++ [c]) = Some c.
Proof. unfold lastChar. now rewrite fold_left_app. Qed.

(** C6, as the code has it.  hasTimestamps is set whenever the content
    contains a date followed by one white-space code unit or the letter T
    and a time of day (dddd-dd-dd, separator, dd:dd:dd); and any content
    containing the sample log line has all three flags set. *)
Theorem log_structure_detection :
  (forall (pre ts post : list N) (size : N),
      isDateTime ts = true ->
      option_map LogStructure.hasTimestamps
                 (logInfo (processLogFile (pre ++ ts ++ post) size))
      = Some true)
  /\ (forall (pre post : list N) (size : N),
         exists n,
           logInfo (processLogFile (pre ++ sampleLogLine ++ post) size)
           = Some (LogStructure.mk true true true n)).
Proof.
  split.
  - intros pre ts post size Hts. unfold logInfo, processLogFile. simpl.
    f_equal. unfold test.
    apply (@test_from_found timestampPattern pre (ts ++ post) None post).
    now apply isDateTime_run.
  - intros pre post size. eexists. unfold logInfo, processLogFile.
    cbn [ProcessedFileData.structure]. f_equal.
    f_equal; unfold test.
    + apply (@test_from_found timestampPattern pre (sampleLogLine ++ post) None
               (lit " ERROR 192.168.1.1 failed" ++ post)).
      change sampleLogLine
        with (lit "2024-01-15 10:30:00" ++ lit " ERROR 192.168.1.1 failed").
      rewrite <- app_assoc. now apply isDateTime_run.
    + change sampleLogLine
        with ((lit "2024-01-15 10:30:00" ++ [32%N]) ++ lit "ERROR 192.168.1.1 failed").
      rewrite <- (app_assoc _ _ post), app_assoc.
      apply (@test_from_found levelPattern _ _ None
               (lit " 192.168.1.1 failed" ++ post)).
      rewrite app_assoc, lastChar_snoc. reflexivity.
    + change sampleLogLine
        with ((lit "2024-01-15 10:30:00 ERROR" ++ [32%N]) ++ lit "192.168.1.1 failed").
      rewrite <- (app_assoc _ _ post), app_assoc.
      apply (@test_from_found ipPattern _ _ None (lit " failed" ++ post)).
      rewrite app_assoc, lastChar_snoc. reflexivity.
Qed.

Lemma log_structure_detection_witness :
  isDateTime (lit "2024-01-15T10:30:00") = true
  /\ option_map LogStructure.hasTimestamps
                (logInfo (processLogFile
                            (lit "at " ++ lit "2024-01-15T10:30:00" ++ lit " up") 25))
     = Some true.
Proof.
  split; [reflexivity|].
  apply (proj1 log_structure_detection (lit "at ") (lit "2024-01-15T10:30:00")
               (lit " up") 25%N eq_refl).
Defined.

(** C6 as worded fails: a bare date does not set hasTimestamps. *)
Lemma log_structure_detection_counterexample :
  option_map LogStructure.hasTimestamps
             (logInfo (processLogFile (lit "2024-01-15") 10))
  = Some false.
Proof. reflexivity. Qed.

End Ingestion.

Module Sizes.
Import JsFacts FileProcessor Statements.

Open Scope N_scope.

(** [floorLog1024] is the integer logarithm to base 1024. *)
Lemma floorLog1024_spec (bytes : N) :
  0 < bytes ->
  1024 ^ N.of_nat (floorLog1024 bytes) <= bytes
  /\ bytes < 1024 ^ (N.of_nat (floorLog1024 bytes) + 1).
Proof.
  intros Hpos. unfold floorLog1024. rewrite N2Nat.id.
  destruct (N.log2_spec bytes Hpos) as [Hlo Hhi].
  set (l := N.log2 bytes) in *.
  change 1024 with (2 ^ 10). rewrite <- !N.pow_mul_r.
  pose proof (N.Div0.mul_div_le l 10) as Hd.
  pose proof (N.mul_succ_div_gt l 10 ltac:(lia)) as Hu.
  split.
  - etransitivity; [|exact Hlo]. apply N.pow_le_mono_r; lia.
  - eapply N.lt_le_trans; [exact Hhi|]. apply N.pow_le_mono_r; lia.
Qed.

(** [toFixed2] is the nearest number of hundredths, ties upwards. *)
Lemma toFixed2_nearest (bytes d : N) :
  0 < d ->
  2 * (toFixed2 bytes d * d) <= 200 * bytes + d
  /\ 200 * bytes < 2 * (toFixed2 bytes d * d) + d.
Proof.
  intros Hd. unfold toFixed2.
  pose proof (N.Div0.mul_div_le (200 * bytes + d) (2 * d)) as Hle.
  pose proof (N.mul_succ_div_gt (200 * bytes + d) (2 * d) ltac:(lia)) as Hgt.
  set (n := (200 * bytes + d) / (2 * d)) in *. nia.
Qed.

(** C8, on the byte counts the upload ceiling allows.  Zero renders as
    0 Bytes, 1024 as 1 KB and 1536 as 1.5 KB; and every byte count from 1
    below 1024^4 renders as value, a space and the unit of index i among
    Bytes, KB, MB, GB, where i is the integer logarithm of the count to
    base 1024 and the value is the count divided by 1024^i, rounded to
    the nearest hundredth (ties upwards) and written without trailing
    zeros. *)
Theorem formatFileSize_units :
  formatFileSize 0 = lit "0 Bytes"
  /\ formatFileSize 1024 = lit "1 KB"
  /\ formatFileSize 1536 = lit "1.5 KB"
  /\ (forall bytes : N,
         0 < bytes < 1024 ^ 4 ->
         exists (i : nat) (unit : list N) (n : N),
           nth_error sizes i = Some unit
           /\ 1024 ^ N.of_nat i <= bytes < 1024 ^ (N.of_nat i + 1)
           /\ 2 * (n * 1024 ^ N.of_nat i) <= 200 * bytes + 1024 ^ N.of_nat i
           /\ 200 * bytes < 2 * (n * 1024 ^ N.of_nat i) + 1024 ^ N.of_nat i
           /\ formatFileSize bytes = showHundredths n ++ lit " " ++ unit).
Proof.
  repeat split; try reflexivity.
  intros bytes [Hpos Hmax].
  destruct (floorLog1024_spec _ Hpos) as [Hlo Hhi].
  set (i := floorLog1024 bytes) in *.
  assert (Hi : (i < 4)%nat).
  { assert (H : 1024 ^ N.of_nat i < 1024 ^ 4) by lia.
    apply N.pow_lt_mono_r_iff in H; lia. }
  assert (Hd : 0 < 1024 ^ N.of_nat i) by (apply N.neq_0_lt_0, N.pow_nonzero; lia).
  destruct (toFixed2_nearest bytes _ Hd) as [Hn1 Hn2].
  exists i, (nth i sizes (lit "undefined")), (toFixed2 bytes (1024 ^ N.of_nat i)).
  repeat split; try assumption.
  - do 4 (destruct i as [|i]; [reflexivity|]). lia.
  - unfold formatFileSize. destruct (N.eqb_spec bytes 0); [lia|]. reflexivity.
Qed.

Lemma formatFileSize_units_witness :
  0 < 1500000 < 1024 ^ 4
  /\ exists (i : nat) (unit : list N) (n : N),
      nth_error sizes i = Some unit
      /\ 1024 ^ N.of_nat i <= 1500000 < 1024 ^ (N.of_nat i + 1)
      /\ 2 * (n * 1024 ^ N.of_nat i) <= 200 * 1500000 + 1024 ^ N.of_nat i
      /\ 200 * 1500000 < 2 * (n * 1024 ^ N.of_nat i) + 1024 ^ N.of_nat i
      /\ formatFileSize 1500000 = showHundredths n ++ lit " " ++ unit.
Proof.
  assert (H : 0 < 1500000 < 1024 ^ 4) by (vm_compute; split; reflexivity).
  split; [exact H|].
  apply (proj2 (proj2 (proj2 formatFileSize_units)) 1500000 H).
Defined.

(** C8 as worded fails at 1024^4 bytes: the index is 4, past the four
    units, and the text is no value followed by one of them. *)
Lemma formatFileSize_units_counterexample :
  formatFileSize (1024 ^ 4) = lit "1 undefined"
  /\ ~ (exists value unit : list N,
           In unit sizes /\ formatFileSize (1024 ^ 4) = value ++ lit " " ++ unit).
Proof.
  split; [reflexivity|].
  intros (value & unit & Hin & E).
  apply (f_equal (@rev N)) in E. rewrite !rev_app_distr in E.
  unfold sizes in Hin. simpl in Hin.
  destruct Hin as [<-|[<-|[<-|[<-|[]]]]]; vm_compute in E; discriminate E.
Qed.

End Sizes.

Module Query.
Import JsFacts FileProcessor AIAgentManager Statements.

(** Whatever is thrown inside the [try] block, the answer is the fallback. *)
Lemma processQuery_caught host query fileId history error :
  tryProcessQuery host query fileId history = Throw error ->
  processQuery host query fileId history = (fallbackResponse, [error]).
Proof. intros H. unfold processQuery. now rewrite H. Qed.

(** C2, as the code has it.  When the generation call throws, the answer
    is the fixed fallback whatever the query, file and history: the fixed
    apology, confidence 0, no sources, and neither a visualizations nor a
    tables field (they are absent, not empty arrays); the error goes to the
    console. *)
Theorem generation_failure_fallback
        (host : Host.t) (query : list N) (fileId : option Z)
        (history : list ChatMessage.t)
        (fileContext : list N) (processedData : option ProcessedFileData.t)
        (error : exn) :
  loadFile host fileId = Ok (fileContext, processedData) ->
  Host.generateText host
    (fst (prompts query history fileContext processedData))
    (snd (prompts query history fileContext processedData)) = Throw error ->
  processQuery host query fileId history
  = (AgentResponse.mk
       (lit "I apologize, but I encountered an error while processing your request. Please try again.")
       None None 0%Q [],
     [error]).
Proof.
  intros Hload Hgen. apply processQuery_caught.
  unfold tryProcessQuery. rewrite Hload. cbn [bind].
  destruct (prompts query history fileContext processedData) as [systemPrompt userPrompt].
  cbn [fst snd] in Hgen. now rewrite Hgen.
Qed.

Lemma generation_failure_fallback_witness :
  loadFile failingHost None = Ok ([], None)
  /\ Host.generateText failingHost
       (fst (prompts (lit "Show me a bar chart") [] [] None))
       (snd (prompts (lit "Show me a bar chart") [] [] None))
     = Throw (HostFailure (lit "quota exceeded"))
  /\ fst (processQuery failingHost (lit "Show me a bar chart") None [])
     = fallbackResponse.
Proof.
  split; [reflexivity|]. split; [reflexivity|].
  rewrite (@generation_failure_fallback failingHost (lit "Show me a bar chart")
             None [] [] None (HostFailure (lit "quota exceeded"))
             eq_refl eq_refl).
  reflexivity.
Defined.

(** C2 as worded fails: after a failed generation call the answer has no
    visualizations and no tables field, where the claim has empty lists. *)
Lemma generation_failure_fallback_counterexample :
  AgentResponse.visualizations
    (fst (processQuery failingHost (lit "Show me a bar chart") None [])) = None
  /\ AgentResponse.visualizations
       (fst (processQuery failingHost (lit "Show me a bar chart") None []))
     <> Some []
  /\ AgentResponse.tables
       (fst (processQuery failingHost (lit "Show me a bar chart") None []))
     <> Some [].
Proof.
  split; [reflexivity|].
  split; intros H; vm_compute in H; discriminate H.
Qed.

End Query.

Module Interpretation.
Import JsFacts ReFacts Shape ShapeFacts Scan Patterns Pipeline Malformed.
Import FileProcessor AIAgentManager Statements.

Lemma trim_without a s : without a s -> without a (trim s).
Proof.
  unfold trim. intros Hw.
  assert (D : forall p t, without a t -> without a (dropWhile p t)).
  { intros p t Ht. rewrite <- (take_drop p t) in Ht.
    apply without_app in Ht. tauto. }
  unfold without in *. intros Hin. apply in_rev in Hin.
  apply (D isWhiteSpace (rev (dropWhile isWhiteSpace s))); [|exact Hin].
  intros Hin'. apply in_rev in Hin'. now apply (D isWhiteSpace s Hw).
Qed.

Lemma occursIn_bracket tag s :
  occursIn (ch "[" :: tag) s -> ~ without "[" s.
Proof.
  intros (before & after & ->) Hw.
  apply without_app in Hw. destruct Hw as [_ Hw].
  apply without_cons in Hw. now destruct Hw.
Qed.

(** Text without a closing bracket goes through untouched. *)
Lemma parse_unclosed text processedData :
  without "]" text ->
  parseAIResponse text processedData
  = AgentResponse.mk (trim text) (Some []) (Some []) (85 # 100)%Q
      match processedData with
      | Some pd => [typeName (ProcessedFileData.type pd)]
      | None => []
      end.
Proof.
  intros Hw. unfold parseAIResponse, match_g, cleanedText, remove_g.
  rewrite (matches_none _ _ _ (test_unclosed _ _ run_viz vizRest_unclosed _ Hw)).
  rewrite (matches_none _ _ _ (test_unclosed _ _ run_table tableRest_unclosed _ Hw)).
  rewrite (remove_none _ _ _
             (test_unclosed _ _ run_vizStrip (tokenRest_unclosed "[VIZ:") _ Hw)).
  rewrite (remove_none _ _ _
             (test_unclosed _ _ run_tableStrip (tokenRest_unclosed "[TABLE:") _ Hw)).
  reflexivity.
Qed.

Lemma bracketed_token (pfx body post : list N) :
  (ch "[" :: pfx) ++ body ++ lit "]" ++ post
  = (ch "[" :: (pfx ++ body ++ [ch "]"])) ++ post.
Proof. simpl. now rewrite <- !app_assoc. Qed.

(** A bracketed [VIZ] token with fewer than three fields, alone among
    plain text: nothing is extracted, and the clean-up removes it. *)
Lemma parse_few_fields pre body post processedData :
  without "[" pre -> body <> [] -> without "[" body -> without "]" body ->
  length (split (ch ":") body) < 3 ->
  without "[" post -> without "]" post ->
  parseAIResponse (pre ++ lit "[VIZ:" ++ body ++ lit "]" ++ post) processedData
  = AgentResponse.mk (trim (pre ++ post)) (Some []) (Some []) (85 # 100)%Q
      match processedData with
      | Some pd => [typeName (ProcessedFileData.type pd)]
      | None => []
      end.
Proof.
  intros Hpre Hbody Hopen Hclose Hfew Hpost Hpost'.
  assert (Hin : without "[" (lit "VIZ:" ++ body ++ [ch "]"])).
  { rewrite !without_app. repeat split; try assumption;
      unfold without; simpl; intuition discriminate. }
  unfold parseAIResponse, match_g, cleanedText, remove_g.
  change (lit "[VIZ:") with (ch "[" :: lit "VIZ:").
  rewrite bracketed_token.
  (* extraction of visualizations *)
  rewrite (matches_plain _ _ run_viz vizRest_anchored pre _ None Hpre).
  rewrite (matches_unmatched _ _ run_viz vizRest_anchored _ post None Hin).
  2:{ cbn [app]. rewrite <- !app_assoc. cbn [app].
      apply (vizRest_few_fields body post Hfew Hpost'). }
  rewrite (matches_plain_all _ _ run_viz vizRest_anchored post None Hpost).
  (* extraction of tables *)
  rewrite (matches_plain _ _ run_table tableRest_anchored pre _ None Hpre).
  rewrite (matches_unmatched _ _ run_table tableRest_anchored _ post None Hin)
    by reflexivity.
  rewrite (matches_plain_all _ _ run_table tableRest_anchored post None Hpost).
  (* clean-up *)
  rewrite (remove_plain _ _ run_vizStrip vizToken_anchored pre _ None Hpre).
  rewrite (remove_match _ _ run_vizStrip _ post None).
  2:{ discriminate. }
  2:{ cbn [app]. rewrite <- !app_assoc. cbn [app].
      apply (tokenRest_token "[VIZ:" body post Hbody Hclose). }
  rewrite (remove_plain_all _ _ run_vizStrip vizToken_anchored post None Hpost).
  rewrite (remove_plain_all _ _ run_tableStrip tableToken_anchored (pre ++ post) None)
    by (apply without_app; now split).
  reflexivity.
Qed.

(** A bracketed [TABLE] token with a single field, alone among plain text. *)
Lemma parse_single_field pre body post processedData :
  without "[" pre -> body <> [] -> without "[" body -> without "]" body ->
  length (split (ch ":") body) < 2 ->
  without "[" post -> without "]" post ->
  parseAIResponse (pre ++ lit "[TABLE:" ++ body ++ lit "]" ++ post) processedData
  = AgentResponse.mk (trim (pre ++ post)) (Some []) (Some []) (85 # 100)%Q
      match processedData with
      | Some pd => [typeName (ProcessedFileData.type pd)]
      | None => []
      end.
Proof.
  intros Hpre Hbody Hopen Hclose Hfew Hpost Hpost'.
  assert (Hin : without "[" (lit "TABLE:" ++ body ++ [ch "]"])).
  { rewrite !without_app. repeat split; try assumption;
      unfold without; simpl; intuition discriminate. }
  unfold parseAIResponse, match_g, cleanedText, remove_g.
  change (lit "[TABLE:") with (ch "[" :: lit "TABLE:").
  rewrite bracketed_token.
  (* extraction of visualizations *)
  rewrite (matches_plain _ _ run_viz vizRest_anchored pre _ None Hpre).
  rewrite (matches_unmatched _ _ run_viz vizRest_anchored _ post None Hin)
    by reflexivity.
  rewrite (matches_plain_all _ _ run_viz vizRest_anchored post None Hpost).
  (* extraction of tables *)
  rewrite (matches_plain _ _ run_table tableRest_anchored pre _ None Hpre).
  rewrite (matches_unmatched _ _ run_table tableRest_anchored _ post None Hin).
  2:{ cbn [app]. rewrite <- !app_assoc. cbn [app].
      apply (tableRest_few_fields body post Hfew Hpost'). }
  rewrite (matches_plain_all _ _ run_table tableRest_anchored post None Hpost).
  (* clean-up *)
  rewrite (remove_plain _ _ run_vizStrip vizToken_anchored pre _ None Hpre).
  rewrite (remove_unmatched _ _ run_vizStrip vizToken_anchored _ post None Hin)
    by reflexivity.
  rewrite (remove_plain_all _ _ run_vizStrip vizToken_anchored post None Hpost).
  rewrite (remove_plain _ _ run_tableStrip tableToken_anchored pre _ None Hpre).
  rewrite (remove_match _ _ run_tableStrip _ post None).
  2:{ discriminate. }
  2:{ cbn [app]. rewrite <- !app_assoc. cbn [app].
      apply (tokenRest_token "[TABLE:" body post Hbody Hclose). }
  rewrite (remove_plain_all _ _ run_tableStrip tableToken_anchored post None Hpost).
  reflexivity.
Qed.

(** C1, as the code has it.  A directive without a closing bracket is left
    alone: in a text with no closing bracket nothing is extracted and the
    displayed text is the trimmed input.  A closed [VIZ] token with fewer
    than three colon-separated fields, the only bracketed token of its
    text, yields no visualization and no table either, but the clean-up
    pattern does match it: it is removed from the displayed text.  The
    same holds for a closed [TABLE] token with a single field. *)
Theorem malformed_directive_handling :
  (forall (text : list N) (processedData : option ProcessedFileData.t),
      without "]" text ->
      AgentResponse.visualizations (parseAIResponse text processedData) = Some []
      /\ AgentResponse.tables (parseAIResponse text processedData) = Some []
      /\ AgentResponse.content (parseAIResponse text processedData) = trim text)
  /\ (forall (pre body post : list N) (processedData : option ProcessedFileData.t),
         without "[" pre -> body <> [] ->
         without "[" body -> without "]" body ->
         length (split (ch ":") body) < 3 ->
         without "[" post -> without "]" post ->
         let tag := lit "[VIZ:" ++ body ++ lit "]" in
         let response := parseAIResponse (pre ++ tag ++ post) processedData in
         AgentResponse.visualizations response = Some []
         /\ AgentResponse.tables response = Some []
         /\ AgentResponse.content response = trim (pre ++ post)
         /\ ~ occursIn tag (AgentResponse.content response))
  /\ (forall (pre body post : list N) (processedData : option ProcessedFileData.t),
         without "[" pre -> body <> [] ->
         without "[" body -> without "]" body ->
         length (split (ch ":") body) < 2 ->
         without "[" post -> without "]" post ->
         let tag := lit "[TABLE:" ++ body ++ lit "]" in
         let response := parseAIResponse (pre ++ tag ++ post) processedData in
         AgentResponse.visualizations response = Some []
         /\ AgentResponse.tables response = Some []
         /\ AgentResponse.content response = trim (pre ++ post)
         /\ ~ occursIn tag (AgentResponse.content response)).
Proof.
  split; [|split].
  - intros text processedData Hw. now rewrite (parse_unclosed text processedData Hw).
  - intros pre body post processedData Hpre Hbody Hopen Hclose Hfew Hpost Hpost'.
    cbv zeta. rewrite <- !app_assoc.
    rewrite (parse_few_fields pre body post processedData
               Hpre Hbody Hopen Hclose Hfew Hpost Hpost').
    cbn [AgentResponse.visualizations AgentResponse.tables AgentResponse.content].
    repeat split.
    intros Hocc. apply (occursIn_bracket _ _ Hocc).
    apply trim_without, without_app. now split.
  - intros pre body post processedData Hpre Hbody Hopen Hclose Hfew Hpost Hpost'.
    cbv zeta. rewrite <- !app_assoc.
    rewrite (parse_single_field pre body post processedData
               Hpre Hbody Hopen Hclose Hfew Hpost Hpost').
    cbn [AgentResponse.visualizations AgentResponse.tables AgentResponse.content].
    repeat split.
    intros Hocc. apply (occursIn_bracket _ _ Hocc).
    apply trim_without, without_app. now split.
Qed.

Lemma without_lit (a : ascii) (s : list N) :
  forallb (notChar a) s = true -> without a s.
Proof. apply without_forallb. Qed.

Lemma malformed_directive_handling_witness :
  (without "]" (lit "see [VIZ:a:b")
   /\ AgentResponse.content (parseAIResponse (lit "see [VIZ:a:b") None)
      = lit "see [VIZ:a:b")
  /\ (without "[" (lit "see ") /\ lit "a:b" <> []
      /\ without "[" (lit "a:b") /\ without "]" (lit "a:b")
      /\ length (split (ch ":") (lit "a:b")) < 3
      /\ without "[" (lit " now") /\ without "]" (lit " now")
      /\ AgentResponse.content
           (parseAIResponse (lit "see " ++ (lit "[VIZ:" ++ lit "a:b" ++ lit "]") ++ lit " now")
                            None)
         = lit "see  now").
Proof.
  assert (H1 : without "]" (lit "see [VIZ:a:b")) by (now apply without_lit).
  assert (H2 : without "[" (lit "see ")) by (now apply without_lit).
  assert (H3 : lit "a:b" <> []) by discriminate.
  assert (H4 : without "[" (lit "a:b")) by (now apply without_lit).
  assert (H5 : without "]" (lit "a:b")) by (now apply without_lit).
  assert (H6 : length (split (ch ":") (lit "a:b")) < 3) by (vm_compute; lia).
  assert (H7 : without "[" (lit " now")) by (now apply without_lit).
  assert (H8 : without "]" (lit " now")) by (now apply without_lit).
  split.
  - split; [exact H1|].
    exact (proj2 (proj2 (proj1 malformed_directive_handling _ None H1))).
  - repeat (split; [assumption|]).
    exact (proj1 (proj2 (proj2 (proj1 (proj2 malformed_directive_handling)
             (lit "see ") (lit "a:b") (lit " now") None H2 H3 H4 H5 H6 H7 H8)))).
Defined.

(** C1 as worded fails: the token [VIZ:a:b] yields no visualization, yet it
    is not left in the displayed text. *)
Lemma malformed_directive_handling_counterexample :
  AgentResponse.visualizations (parseAIResponse (lit "[VIZ:a:b]") None) = Some []
  /\ AgentResponse.content (parseAIResponse (lit "[VIZ:a:b]") None) = []
  /\ ~ occursIn (lit "[VIZ:a:b]")
               (AgentResponse.content (parseAIResponse (lit "[VIZ:a:b]") None)).
Proof.
  split; [reflexivity|]. split; [reflexivity|].
  intros (before & after & E). vm_compute in E.
  destruct before; discriminate E.
Qed.

(** The pipeline on well-formed text: the directives in text order, and
    the trimmed plain text. *)
Lemma parse_wellformed segs processedData :
  Forall segmentOk segs ->
  parseAIResponse (renderAll segs) processedData
  = AgentResponse.mk (trim (plainText segs))
      (Some (vizOf processedData segs)) (Some (tablesOf processedData segs))
      (85 # 100)%Q
      match processedData with
      | Some pd => [typeName (ProcessedFileData.type pd)]
      | None => []
      end.
Proof.
  intros Hok.
  assert (Ev : flat_map (vizOfMatch processedData)
                 (matches_from vizPattern None 0 (renderAll segs))
               = vizOf processedData segs).
  { rewrite <- (app_nil_r (renderAll segs)), (scan_viz segs [] Hok).
    rewrite (matches_end _ _ run_viz vizRest_anchored), app_nil_r.
    now apply vizOf_tags. }
  assert (Et : flat_map (tableOfMatch processedData)
                 (matches_from tablePattern None 0 (renderAll segs))
               = tablesOf processedData segs).
  { rewrite <- (app_nil_r (renderAll segs)), (scan_table segs [] Hok).
    rewrite (matches_end _ _ run_table tableRest_anchored), app_nil_r.
    now apply tablesOf_tags. }
  assert (Ec : cleanedText (renderAll segs) = trim (plainText segs)).
  { unfold cleanedText, remove_g.
    rewrite <- (app_nil_r (renderAll segs)), (strip_viz segs [] Hok).
    cbn [remove_from].
    rewrite (strip_table (dropViz segs) [] (dropViz_ok segs Hok)).
    cbn [remove_from]. now rewrite app_nil_r, dropBoth_plain. }
  unfold parseAIResponse, match_g. rewrite Ec.
  destruct (matches_from vizPattern None 0 (renderAll segs));
    destruct (matches_from tablePattern None 0 (renderAll segs));
    cbn [flat_map] in Ev, Et; rewrite <- ?Ev, <- ?Et; reflexivity.
Qed.

(** C3, as the code has it.  In a text made of plain stretches without an
    opening bracket and of well-formed directives, a tag [VIZ:bar:T:D]
    with T and D non-empty and free of colons and closing brackets is
    extracted, in text order, as the visualization of chart kind bar,
    title T and description D; the displayed text is the trimmed plain
    text, in which the tag does not occur. *)
Theorem bar_directive_extracted
        (before after : list segment) (T D : list N)
        (processedData : option ProcessedFileData.t) :
  Forall segmentOk before -> Forall segmentOk after ->
  T <> [] -> without ":" T -> without "]" T ->
  D <> [] -> without ":" D -> without "]" D ->
  let tag := lit "[VIZ:bar:" ++ T ++ lit ":" ++ D ++ lit "]" in
  let response :=
    parseAIResponse (renderAll before ++ tag ++ renderAll after) processedData in
  AgentResponse.visualizations response
  = Some (vizOf processedData before
          ++ VisualizationData.mk (lit "chart") (lit "bar") T D
               (generateVisualizationData (lit "bar") processedData)
               (generateVisualizationConfig (lit "bar"))
             :: vizOf processedData after)
  /\ AgentResponse.content response = trim (plainText before ++ plainText after)
  /\ ~ occursIn tag (AgentResponse.content response).
Proof.
  intros Hbefore Hafter HT HTc HTb HD HDc HDb. cbv zeta.
  change (lit "[VIZ:bar:" ++ T ++ lit ":" ++ D ++ lit "]")
    with (vizTag (lit "bar") T D).
  assert (Hbar : without ":" (lit "bar") /\ without "]" (lit "bar")).
  { split; now apply without_lit. }
  destruct Hbar as [Hbc Hbb].
  assert (Hcontent :
            AgentResponse.content
              (parseAIResponse (renderAll before ++ vizTag (lit "bar") T D ++ renderAll after)
                               processedData)
            = trim (plainText before ++ plainText after)).
  { rewrite parse_content.
    rewrite (strip_viz before _ Hbefore).
    rewrite (remove_match _ _ run_vizStrip (vizTag (lit "bar") T D) (renderAll after) None).
    2:{ rewrite vizTag_body. discriminate. }
    2:{ now apply vizToken_vizTag. }
    rewrite <- (app_nil_r (renderAll after)), (strip_viz after [] Hafter).
    cbn [remove_from]. rewrite app_nil_r.
    rewrite (strip_table (dropViz before) _ (dropViz_ok before Hbefore)).
    rewrite <- (app_nil_r (renderAll (dropViz after))).
    rewrite (strip_table (dropViz after) [] (dropViz_ok after Hafter)).
    cbn [remove_from]. now rewrite app_nil_r, !dropBoth_plain. }
  split; [|split].
  - rewrite parse_visualizations. f_equal.
    rewrite (scan_viz before _ Hbefore).
    rewrite (matches_match _ _ run_viz (vizTag (lit "bar") T D) (renderAll after) None).
    2:{ rewrite vizTag_body. discriminate. }
    2:{ apply vizRest_vizTag; (assumption || discriminate). }
    rewrite <- (app_nil_r (renderAll after)), (scan_viz after [] Hafter).
    rewrite (matches_end _ _ run_viz vizRest_anchored), app_nil_r.
    rewrite flat_map_app. cbn [flat_map].
    rewrite (vizOf_tags processedData before Hbefore).
    rewrite (vizOf_tags processedData after Hafter).
    now rewrite (vizOfMatch_vizTag processedData (lit "bar") T D Hbc HTc HDc).
  - exact Hcontent.
  - rewrite Hcontent. rewrite vizTag_body.
    intros Hocc. apply (occursIn_bracket _ _ Hocc).
    apply trim_without, without_app.
    split; now apply plainText_without.
Qed.

Lemma bar_directive_extracted_witness :
  Forall segmentOk [Plain (lit "Here: ")]
  /\ Forall segmentOk [Plain (lit " and "); TableTag (lit "Top") (lit "Rows")]
  /\ lit "Sample" <> [] /\ without ":" (lit "Sample") /\ without "]" (lit "Sample")
  /\ lit "Demo" <> [] /\ without ":" (lit "Demo") /\ without "]" (lit "Demo")
  /\ AgentResponse.content
       (parseAIResponse
          (renderAll [Plain (lit "Here: ")]
           ++ (lit "[VIZ:bar:" ++ lit "Sample" ++ lit ":" ++ lit "Demo" ++ lit "]")
           ++ renderAll [Plain (lit " and "); TableTag (lit "Top") (lit "Rows")])
          None)
     = lit "Here:  and".
Proof.
  assert (F : forall f, f <> [] -> forallb (notChar ":") f = true ->
                        forallb (notChar "]") f = true ->
                        forallb (notChar "[") f = true -> fieldOk f).
  { intros f H0 H1 H2 H3. repeat split; try exact H0; now apply without_lit. }
  assert (H1 : Forall segmentOk [Plain (lit "Here: ")]).
  { repeat constructor. now apply without_lit. }
  assert (H2 : Forall segmentOk [Plain (lit " and "); TableTag (lit "Top") (lit "Rows")]).
  { repeat constructor; try (now apply without_lit); apply F;
      (discriminate || reflexivity). }
  assert (H3 : lit "Sample" <> []) by discriminate.
  assert (H4 : without ":" (lit "Sample")) by (now apply without_lit).
  assert (H5 : without "]" (lit "Sample")) by (now apply without_lit).
  assert (H6 : lit "Demo" <> []) by discriminate.
  assert (H7 : without ":" (lit "Demo")) by (now apply without_lit).
  assert (H8 : without "]" (lit "Demo")) by (now apply without_lit).
  repeat (split; [assumption|]).
  exact (proj1 (proj2 (bar_directive_extracted
           [Plain (lit "Here: ")]
           [Plain (lit " and "); TableTag (lit "Top") (lit "Rows")]
           (lit "Sample") (lit "Demo") None H1 H2 H3 H4 H5 H6 H7 H8))).
Defined.

(** C3 as worded fails.  An unclosed directive before the tag swallows it:
    the one visualization extracted is not the bar chart.  And a tag laid
    around another one is put together by the clean-up: it occurs in the
    displayed text. *)
Lemma bar_directive_extracted_counterexample :
  option_map (map (fun v => (VisualizationData.chartType v,
                             VisualizationData.title v,
                             VisualizationData.description v)))
             (AgentResponse.visualizations
                (parseAIResponse (lit "[VIZ:x:y:z[VIZ:bar:T:D]") None))
  = Some [(lit "x", lit "y", lit "z[VIZ")]
  /\ AgentResponse.content (parseAIResponse (lit "[VI[VIZ:bar:T:D]Z:bar:T:D]") None)
     = lit "[VIZ:bar:T:D]"
  /\ occursIn (lit "[VIZ:bar:T:D]")
              (AgentResponse.content
                 (parseAIResponse (lit "[VI[VIZ:bar:T:D]Z:bar:T:D]") None)).
Proof.
  split; [reflexivity|]. split; [reflexivity|].
  exists [], []. reflexivity.
Qed.

End Interpretation.

Module Idempotence.
Import JsFacts ReFacts Shape ShapeFacts Scan Patterns Pipeline Malformed Interpretation.
Import FileProcessor AIAgentManager Statements.

Lemma tokenRest_sound pfx s rest :
  tokenRest pfx s = Some rest ->
  exists body, s = lit pfx ++ body ++ ch "]" :: rest
               /\ body <> [] /\ without "]" body.
Proof.
  unfold tokenRest. intros H.
  destruct (stripPrefix (lit pfx) s) as [s1|] eqn:E0; [|discriminate].
  apply stripPrefix_sound in E0. cbn [andThen] in H.
  destruct (field "]" s1) as [[f r]|] eqn:E1; [|discriminate].
  cbn [andThen snd] in H. injection H as ->.
  apply field_sound in E1. destruct E1 as (-> & Hf & Hw).
  exists f. now subst s.
Qed.

(** A match of a clean-up pattern is never empty. *)
Lemma token_not_empty (r : regex) pfx :
  (forall prev s, run r prev s (fun _ rest => Some rest) = tokenRest pfx s) ->
  forall prev s, exec_at r prev s <> Some 0.
Proof.
  intros Hr prev s. rewrite (exec_at_described r _ Hr).
  destruct (tokenRest pfx s) as [rest|] eqn:E; [|discriminate].
  apply tokenRest_sound in E. destruct E as (body & -> & _ & _).
  simpl. rewrite !length_app. simpl. intros [= H]. lia.
Qed.

(** A match stays a match when text is added after it. *)
Lemma tokenRest_extend pfx s rest more :
  tokenRest pfx s = Some rest -> tokenRest pfx (s ++ more) = Some (rest ++ more).
Proof.
  intros H. apply tokenRest_sound in H. destruct H as (body & -> & Hb & Hw).
  rewrite <- !app_assoc. cbn [app]. now apply tokenRest_token.
Qed.

Lemma trim_inside s : exists a c, s = a ++ trim s ++ c.
Proof.
  exists (takeWhile isWhiteSpace s),
         (rev (takeWhile isWhiteSpace (rev (dropWhile isWhiteSpace s)))).
  unfold trim. rewrite <- rev_app_distr, take_drop, rev_involutive.
  now rewrite take_drop.
Qed.

Section Token.
Variable r : regex.
Variable pfx : string.
Hypothesis described :
  forall prev s, run r prev s (fun _ rest => Some rest) = tokenRest pfx s.

Lemma test_inside a m c : test r (a ++ m ++ c) = false -> test r m = false.
Proof.
  unfold test. rewrite !(test_false_iff r _ described).
  intros H x b ->.
  destruct (tokenRest pfx b) as [rest|] eqn:E; [|reflexivity].
  apply (tokenRest_extend _ _ _ c) in E.
  rewrite (H (a ++ x) (b ++ c)) in E; [discriminate|].
  now rewrite <- !app_assoc.
Qed.

Lemma test_trim s : test r s = false -> test r (trim s) = false.
Proof.
  destruct (trim_inside s) as (a & c & E). intros H.
  rewrite E in H. now apply test_inside in H.
Qed.

Lemma remove_g_none s : test r s = false -> remove_g r s = s.
Proof. apply remove_none. Qed.

Lemma remove_g_shrinks s : test r s = true -> length (remove_g r s) < length s.
Proof. apply remove_shrinks. now apply (token_not_empty r pfx). Qed.

Lemma remove_g_length s : length (remove_g r s) <= length s.
Proof. apply remove_length. Qed.

End Token.

(** C4, as the code has it.  A second pass of the clean-up changes nothing
    exactly when the first pass left no bracketed [VIZ] or [TABLE] token
    behind.  That is the case for text that had no such token to begin
    with, and for every well-formed text. *)
Theorem cleanedText_idempotence :
  (forall s : list N,
      cleanedText (cleanedText s) = cleanedText s
      <-> test vizStripPattern (cleanedText s) = false
          /\ test tableStripPattern (cleanedText s) = false)
  /\ (forall s : list N,
         test vizStripPattern s = false -> test tableStripPattern s = false ->
         cleanedText (cleanedText s) = cleanedText s)
  /\ (forall segs : list segment,
         Forall segmentOk segs ->
         cleanedText (cleanedText (renderAll segs)) = cleanedText (renderAll segs)).
Proof.
  assert (Clean : forall t, test vizStripPattern t = false ->
                            test tableStripPattern t = false ->
                            cleanedText t = trim t).
  { intros t Hv Ht. unfold cleanedText.
    rewrite (remove_g_none _ _ Hv). now rewrite (remove_g_none _ _ Ht). }
  split; [|split].
  - intros s. set (t := cleanedText s). split.
    + intros Hfix.
      assert (L1 := remove_g_length vizStripPattern t).
      assert (L2 := remove_g_length tableStripPattern (remove_g vizStripPattern t)).
      assert (L3 := trim_length
                      (remove_g tableStripPattern (remove_g vizStripPattern t))).
      fold (cleanedText t) in L3. rewrite Hfix in L3.
      destruct (test vizStripPattern t) eqn:Hv.
      * pose proof (remove_g_shrinks _ _ run_vizStrip t Hv). lia.
      * split; [reflexivity|].
        rewrite (remove_g_none _ _ Hv) in L2, L3.
        destruct (test tableStripPattern t) eqn:Ht; [|reflexivity].
        pose proof (remove_g_shrinks _ _ run_tableStrip t Ht). lia.
    + intros [Hv Ht]. rewrite (Clean t Hv Ht).
      subst t. unfold cleanedText. apply trim_idempotent.
  - intros s Hv Ht. rewrite (Clean s Hv Ht).
    rewrite Clean.
    + apply trim_idempotent.
    + now apply (test_trim _ _ run_vizStrip).
    + now apply (test_trim _ _ run_tableStrip).
  - intros segs Hok.
    pose proof (parse_wellformed segs None Hok) as E.
    apply (f_equal AgentResponse.content) in E.
    cbn [AgentResponse.content parseAIResponse] in E. rewrite E.
    assert (Hw : without "[" (trim (plainText segs))).
    { now apply trim_without, plainText_without. }
    unfold cleanedText, remove_g.
    rewrite (remove_plain_all _ _ run_vizStrip vizToken_anchored _ None Hw).
    rewrite (remove_plain_all _ _ run_tableStrip tableToken_anchored _ None Hw).
    apply trim_idempotent.
Qed.

Lemma cleanedText_idempotence_witness :
  test vizStripPattern (lit "  see [VIZ:a:b  ") = false
  /\ test tableStripPattern (lit "  see [VIZ:a:b  ") = false
  /\ cleanedText (cleanedText (lit "  see [VIZ:a:b  ")) = cleanedText (lit "  see [VIZ:a:b  ").
Proof.
  split; [reflexivity|]. split; [reflexivity|].
  exact (proj1 (proj2 cleanedText_idempotence) (lit "  see [VIZ:a:b  ") eq_refl eq_refl).
Defined.

(** C4 as worded fails: removing a token can put the text around it
    together into a new token, which only a second pass removes. *)
Lemma cleanedText_idempotence_counterexample :
  cleanedText (lit "[VI[VIZ:a]Z:b]") = lit "[VIZ:b]"
  /\ cleanedText (cleanedText (lit "[VI[VIZ:a]Z:b]")) = []
  /\ cleanedText (cleanedText (lit "[VI[VIZ:a]Z:b]")) <> cleanedText (lit "[VI[VIZ:a]Z:b]").
Proof. split; [reflexivity|]. split; [reflexivity|]. discriminate. Qed.

End Idempotence.

(* ================================================================== *)
(** * Further properties of the interpretation pipeline *)

Module Extraction.
Import JsFacts ReFacts Shape ShapeFacts Scan Patterns Pipeline Malformed.
Import FileProcessor AIAgentManager Statements Notions.

(** *** The displayed text *)

Lemma dropWhile_first (p : N -> bool) (s : list N) :
  firstIs (fun c => p c = false) (dropWhile p s).
Proof.
  induction s as [|c s IH]; simpl; [exact I|].
  destruct (p c) eqn:E; [exact IH | exact E].
Qed.

Lemma firstIs_prefix (P : N -> Prop) (a b : list N) :
  firstIs P (a ++ b) -> firstIs P a.
Proof. destruct a; [intros _; exact I | intros H; exact H]. Qed.

Lemma trim_trimmed (s : list N) : trimmed (trim s).
Proof.
  unfold trimmed, trim. split.
  - pose proof (dropWhile_first isWhiteSpace s) as H.
    set (x := dropWhile isWhiteSpace s) in *.
    rewrite <- (rev_involutive x) in H.
    rewrite <- (take_drop isWhiteSpace (rev x)) in H.
    rewrite rev_app_distr in H. now apply firstIs_prefix in H.
  - rewrite rev_involutive. apply dropWhile_first.
Qed.

(** X1.  The displayed text of every response has no white space at either
    end and is never longer than the generated text. *)
Theorem displayed_text_trimmed
        (text : list N) (processedData : option ProcessedFileData.t) :
  trimmed (AgentResponse.content (parseAIResponse text processedData))
  /\ length (AgentResponse.content (parseAIResponse text processedData))
     <= length text.
Proof.
  rewrite parse_content. split; [apply trim_trimmed|].
  etransitivity; [apply trim_length|].
  etransitivity; [apply remove_length|]. apply remove_length.
Qed.

(** *** Text without directives, and well-formed text *)

(** X2.  A generated text without an opening bracket has no directive: no
    visualization, no table, and the displayed text is the trimmed text. *)
Theorem plain_text_passes
        (text : list N) (processedData : option ProcessedFileData.t) :
  without "[" text ->
  parseAIResponse text processedData
  = AgentResponse.mk (trim text) (Some []) (Some []) (85 # 100)%Q
      match processedData with
      | Some pd => [typeName (ProcessedFileData.type pd)]
      | None => []
      end.
Proof.
  intros Hw. unfold parseAIResponse, match_g, cleanedText, remove_g.
  rewrite (matches_plain_all _ _ run_viz vizRest_anchored text None Hw).
  rewrite (matches_plain_all _ _ run_table tableRest_anchored text None Hw).
  rewrite (remove_plain_all _ _ run_vizStrip vizToken_anchored text None Hw).
  rewrite (remove_plain_all _ _ run_tableStrip tableToken_anchored text None Hw).
  reflexivity.
Qed.

Lemma plain_text_passes_witness :
  without "[" (lit "  Total: 3 rows] ")
  /\ AgentResponse.content (parseAIResponse (lit "  Total: 3 rows] ") None)
     = lit "Total: 3 rows]".
Proof.
  assert (H : without "[" (lit "  Total: 3 rows] ")).
  { apply without_forallb. reflexivity. }
  split; [exact H|].
  rewrite (plain_text_passes (lit "  Total: 3 rows] ") None H). reflexivity.
Defined.

Lemma vizOf_length processedData segs :
  length (vizOf processedData segs) = length (filter isViz segs).
Proof.
  induction segs as [|g segs IH]; [reflexivity|].
  destruct g; simpl; now rewrite ?IH.
Qed.

Lemma tablesOf_length processedData segs :
  length (tablesOf processedData segs) = length (filter isTable segs).
Proof.
  induction segs as [|g segs IH]; [reflexivity|].
  destruct g; simpl; now rewrite ?IH.
Qed.

(** X3.  On a well-formed text (plain stretches without an opening bracket
    and directives whose fields are non-empty and free of colons and
    brackets) the pipeline returns exactly the directives, in text order,
    one visualization per [VIZ] tag and one table per [TABLE] tag, and
    the displayed text is the trimmed concatenation of the plain
    stretches, with no bracketed token left in it. *)
Theorem wellformed_text_interpreted
        (segs : list segment) (processedData : option ProcessedFileData.t) :
  Forall segmentOk segs ->
  let response := parseAIResponse (renderAll segs) processedData in
  AgentResponse.visualizations response = Some (vizOf processedData segs)
  /\ AgentResponse.tables response = Some (tablesOf processedData segs)
  /\ AgentResponse.content response = trim (plainText segs)
  /\ length (vizOf processedData segs) = length (filter isViz segs)
  /\ length (tablesOf processedData segs) = length (filter isTable segs)
  /\ without "[" (AgentResponse.content response).
Proof.
  intros Hok. cbv zeta.
  assert (Ev : AgentResponse.visualizations (parseAIResponse (renderAll segs) processedData)
               = Some (vizOf processedData segs)).
  { rewrite parse_visualizations. f_equal.
    rewrite <- (app_nil_r (renderAll segs)), (scan_viz segs [] Hok).
    rewrite (matches_end _ _ run_viz vizRest_anchored), app_nil_r.
    now apply vizOf_tags. }
  assert (Et : AgentResponse.tables (parseAIResponse (renderAll segs) processedData)
               = Some (tablesOf processedData segs)).
  { rewrite parse_tables. f_equal.
    rewrite <- (app_nil_r (renderAll segs)), (scan_table segs [] Hok).
    rewrite (matches_end _ _ run_table tableRest_anchored), app_nil_r.
    now apply tablesOf_tags. }
  assert (Ec : AgentResponse.content (parseAIResponse (renderAll segs) processedData)
               = trim (plainText segs)).
  { rewrite parse_content.
    rewrite <- (app_nil_r (renderAll segs)), (strip_viz segs [] Hok).
    cbn [remove_from].
    rewrite (strip_table (dropViz segs) [] (dropViz_ok segs Hok)).
    cbn [remove_from]. now rewrite app_nil_r, dropBoth_plain. }
  rewrite Ev, Et, Ec. repeat split.
  - apply vizOf_length.
  - apply tablesOf_length.
  - unfold without. intros Hin.
    assert (D : forall p t, In (ch "[") (dropWhile p t) -> In (ch "[") t).
    { intros p t Ht. rewrite <- (take_drop p t). apply in_or_app. now right. }
    unfold trim in Hin. apply in_rev in Hin. apply D in Hin.
    apply in_rev in Hin. apply D in Hin.
    now apply (plainText_without segs Hok).
Qed.

Lemma wellformed_text_interpreted_witness :
  Forall segmentOk
         [Plain (lit "Sales rose. "); VizTag (lit "line") (lit "Trend") (lit "By month");
          Plain (lit " See also "); TableTag (lit "Top") (lit "Best sellers")]
  /\ AgentResponse.content
       (parseAIResponse
          (renderAll
             [Plain (lit "Sales rose. "); VizTag (lit "line") (lit "Trend") (lit "By month");
              Plain (lit " See also "); TableTag (lit "Top") (lit "Best sellers")])
          None)
     = lit "Sales rose.  See also".
Proof.
  assert (W : forall a s, forallb (notChar a) s = true -> without a s).
  { intros a s. apply without_forallb. }
  assert (F : forall f, f <> [] -> forallb (notChar ":") f = true ->
                        forallb (notChar "]") f = true ->
                        forallb (notChar "[") f = true -> fieldOk f).
  { intros f H0 H1 H2 H3. repeat split; try exact H0; now apply W. }
  assert (H : Forall segmentOk
                [Plain (lit "Sales rose. "); VizTag (lit "line") (lit "Trend") (lit "By month");
                 Plain (lit " See also "); TableTag (lit "Top") (lit "Best sellers")]).
  { repeat constructor; try (now apply W); apply F; (discriminate || reflexivity). }
  split; [exact H|].
  exact (proj1 (proj2 (proj2 (wellformed_text_interpreted _ None H)))).
Defined.

(** *** What every extracted directive looks like *)

Lemma matches_Forall (r : regex) (P : list N -> Prop) :
  (forall prev s n, exec_at r prev s = Some n -> P (firstn n s)) ->
  forall s prev skip, Forall P (matches_from r prev skip s).
Proof.
  intros HP. induction s as [|c s IH]; intros prev skip.
  - simpl. destruct skip; [|constructor].
    destruct (exec_at r prev []) as [n|] eqn:E; constructor; [|constructor].
    specialize (HP prev [] n E). now rewrite firstn_nil in HP.
  - simpl. destruct skip as [|k]; [|apply IH].
    destruct (exec_at r prev (c :: s)) as [[|n]|] eqn:E.
    + constructor; [exact (HP prev (c :: s) 0 E) | apply IH].
    + constructor; [exact (HP prev (c :: s) (S n) E) | apply IH].
    + apply IH.
Qed.

Lemma vizRest_sound s rest :
  vizRest s = Some rest ->
  exists f1 f2 f3,
    s = vizTag f1 f2 f3 ++ rest
    /\ f1 <> [] /\ without ":" f1 /\ f2 <> [] /\ without ":" f2
    /\ f3 <> [] /\ without "]" f3.
Proof.
  unfold vizRest. intros H.
  destruct (stripPrefix (lit "[VIZ:") s) as [s1|] eqn:E0; [|discriminate].
  apply stripPrefix_sound in E0. cbn [andThen] in H.
  destruct (field ":" s1) as [[f1 s2]|] eqn:E1; [|discriminate].
  cbn [andThen snd] in H.
  destruct (field ":" s2) as [[f2 s3]|] eqn:E2; [|discriminate].
  cbn [andThen snd] in H.
  destruct (field "]" s3) as [[f3 s4]|] eqn:E3; [|discriminate].
  cbn [andThen snd] in H. injection H as ->.
  apply field_sound in E1, E2, E3.
  destruct E1 as (-> & H1 & H1'), E2 as (-> & H2 & H2'), E3 as (-> & H3 & H3').
  exists f1, f2, f3. rewrite vizTag_app. subst s. now repeat split.
Qed.

Lemma tableRest_sound s rest :
  tableRest s = Some rest ->
  exists f1 f2,
    s = tableTag f1 f2 ++ rest
    /\ f1 <> [] /\ without ":" f1 /\ f2 <> [] /\ without "]" f2.
Proof.
  unfold tableRest. intros H.
  destruct (stripPrefix (lit "[TABLE:") s) as [s1|] eqn:E0; [|discriminate].
  apply stripPrefix_sound in E0. cbn [andThen] in H.
  destruct (field ":" s1) as [[f1 s2]|] eqn:E1; [|discriminate].
  cbn [andThen snd] in H.
  destruct (field "]" s2) as [[f2 s3]|] eqn:E2; [|discriminate].
  cbn [andThen snd] in H. injection H as ->.
  apply field_sound in E1, E2.
  destruct E1 as (-> & H1 & H1'), E2 as (-> & H2 & H2').
  exists f1, f2. rewrite tableTag_app. subst s. now repeat split.
Qed.

Lemma firstn_match (m rest : list N) :
  firstn (length (m ++ rest) - length rest) (m ++ rest) = m.
Proof.
  rewrite length_app. replace (length m + length rest - length rest) with (length m) by lia.
  now rewrite firstn_app, firstn_all, Nat.sub_diag, firstn_0, app_nil_r.
Qed.

(** The first piece of a split is the text before the first separator. *)
Lemma split_first (a : ascii) s :
  exists more, split (ch a) s = takeWhile (notChar a) s :: more.
Proof.
  induction s as [|c s IH]; [now exists []|].
  simpl. unfold notChar. destruct (char_eqb c (ch a)); simpl.
  - now eexists.
  - destruct IH as (more & ->). now eexists.
Qed.

Lemma takeWhile_without (a b : ascii) s :
  without b s -> without b (takeWhile (notChar a) s).
Proof.
  intros Hw. rewrite <- (take_drop (notChar a) s) in Hw.
  apply without_app in Hw. tauto.
Qed.

Lemma vizOfMatch_tag processedData f1 f2 f3 :
  without ":" f1 -> without ":" f2 ->
  vizOfMatch processedData (vizTag f1 f2 f3)
  = [vizFor processedData f1 f2 (takeWhile (notChar ":") f3)].
Proof.
  intros H1 H2. unfold vizOfMatch. rewrite vizTag_body.
  change 5%Z with (Z.of_nat (length (lit "[VIZ:"))).
  rewrite (slice_inner (lit "[VIZ:") (vizBody f1 f2 f3) (ch "]")).
  unfold vizBody. rewrite (split_field _ _ _ H1), (split_field _ _ _ H2).
  destruct (split_first ":" f3) as (more & ->). reflexivity.
Qed.

Lemma tableOfMatch_tag processedData f1 f2 :
  without ":" f1 ->
  tableOfMatch processedData (tableTag f1 f2)
  = [tableFor processedData f1 (takeWhile (notChar ":") f2)].
Proof.
  intros H1. unfold tableOfMatch. rewrite tableTag_body.
  change 7%Z with (Z.of_nat (length (lit "[TABLE:"))).
  rewrite (slice_inner (lit "[TABLE:") (tableBody f1 f2) (ch "]")).
  unfold tableBody. rewrite (split_field _ _ _ H1).
  destruct (split_first ":" f2) as (more & ->). reflexivity.
Qed.

(** Every match of the extraction pattern yields one visualization. *)
Lemma viz_matches_extracted processedData text :
  Forall (fun m => exists v, vizOfMatch processedData m = [v]
                             /\ vizExtracted processedData v)
         (matches_from vizPattern None 0 text).
Proof.
  apply matches_Forall. intros prev s n E.
  rewrite (exec_at_described _ _ run_viz) in E.
  destruct (vizRest s) as [rest|] eqn:Er; [|discriminate].
  apply vizRest_sound in Er.
  destruct Er as (f1 & f2 & f3 & -> & H1 & H1' & H2 & H2' & H3 & H3').
  cbn [option_map] in E.
  assert (En : n = length (vizTag f1 f2 f3 ++ rest) - length rest) by congruence.
  rewrite En, firstn_match.
  eexists. split; [now apply vizOfMatch_tag|].
  unfold vizExtracted, vizFor. cbn. repeat split; try assumption.
  - apply without_forallb, takeWhile_all.
  - now apply takeWhile_without.
Qed.

Lemma table_matches_extracted processedData text :
  Forall (fun m => exists t, tableOfMatch processedData m = [t]
                             /\ tableExtracted processedData t)
         (matches_from tablePattern None 0 text).
Proof.
  apply matches_Forall. intros prev s n E.
  rewrite (exec_at_described _ _ run_table) in E.
  destruct (tableRest s) as [rest|] eqn:Er; [|discriminate].
  apply tableRest_sound in Er.
  destruct Er as (f1 & f2 & -> & H1 & H1' & H2 & H2').
  cbn [option_map] in E.
  assert (En : n = length (tableTag f1 f2 ++ rest) - length rest) by congruence.
  rewrite En, firstn_match.
  eexists. split; [now apply tableOfMatch_tag|].
  unfold tableExtracted, tableFor. cbn. repeat split; try assumption.
  - apply without_forallb, takeWhile_all.
  - now apply takeWhile_without.
Qed.

Lemma flat_map_singletons {A B : Type} (f : A -> list B) (P : B -> Prop) (l : list A) :
  Forall (fun a => exists b, f a = [b] /\ P b) l ->
  length (flat_map f l) = length l /\ Forall P (flat_map f l).
Proof.
  induction 1 as [|a l (b & E & Hb) _ [IHlen IHP]]; [now split|].
  simpl. rewrite E. simpl. split; [now rewrite IHlen | now constructor].
Qed.

(** X4.  For every generated text, each match of an extraction pattern
    yields exactly one entry (the guard on the number of fields never
    fails), and every extracted entry is shaped as follows: a
    visualization has type chart, a non-empty chart kind and title without
    colon, a description without colon or closing bracket, and the
    payload and hints synthesized for its chart kind; a table has a
    non-empty title without colon, a description without colon or closing
    bracket, and the fixture of the file kind. *)
Theorem extracted_directives_shape
        (text : list N) (processedData : option ProcessedFileData.t) :
  exists visualizations tables,
    AgentResponse.visualizations (parseAIResponse text processedData)
    = Some visualizations
    /\ AgentResponse.tables (parseAIResponse text processedData) = Some tables
    /\ length visualizations = matchCount vizPattern text
    /\ length tables = matchCount tablePattern text
    /\ Forall (vizExtracted processedData) visualizations
    /\ Forall (tableExtracted processedData) tables.
Proof.
  destruct (flat_map_singletons _ _ _ (viz_matches_extracted processedData text))
    as [Lv Pv].
  destruct (flat_map_singletons _ _ _ (table_matches_extracted processedData text))
    as [Lt Pt].
  exists (flat_map (vizOfMatch processedData) (matches_from vizPattern None 0 text)),
         (flat_map (tableOfMatch processedData) (matches_from tablePattern None 0 text)).
  split; [apply parse_visualizations|]. split; [apply parse_tables|].
  unfold matchCount, match_g. repeat split; try assumption.
  - rewrite Lv. now destruct (matches_from vizPattern None 0 text).
  - rewrite Lt. now destruct (matches_from tablePattern None 0 text).
Qed.

End Extraction.

(* ================================================================== *)
(** * Further properties of the synthesized payloads *)

Module Payloads.
Import JsFacts FileProcessor AIAgentManager Statements Notions.

Ltac distinct_literals :=
  repeat (constructor;
          [ let H := fresh in intros H; vm_compute in H; intuition discriminate | ]);
  try constructor.

Ltac reflect_eqb :=
  repeat match goal with
         | H : str_eqb _ _ = true |- _ => apply str_eqb_eq in H
         | H : str_eqb _ _ = false |- _ => apply str_eqb_neq in H
         end.

Ltac by_chart_kind chartType :=
  destruct (str_eqb chartType (lit "line"));
  destruct (str_eqb chartType (lit "pie"));
  destruct (str_eqb chartType (lit "area")).

(** X5.  Whatever the chart kind and the file, the synthesized payload is
    well shaped: it has at least one dataset, every dataset has exactly
    one value per label, and the labels are pairwise distinct, as are the
    dataset labels. *)
Theorem visualization_payload_uniform
        (chartType : list N) (processedData : option ProcessedFileData.t) :
  let payload := generateVisualizationData chartType processedData in
  chartUniform payload
  /\ ChartData.datasets payload <> []
  /\ NoDup (ChartData.labels payload)
  /\ NoDup (map Dataset.label (ChartData.datasets payload)).
Proof.
  cbv zeta. unfold generateVisualizationData, chartUniform.
  destruct processedData as [[[] ? ? ? ?]|];
    cbn [ProcessedFileData.type];
    unfold generateLogVisualizationData, generateCSVVisualizationData,
           generateDefaultVisualizationData;
    by_chart_kind chartType; cbn [ChartData.datasets ChartData.labels];
    (split; [repeat constructor|]);
    (split; [discriminate|]);
    (split; distinct_literals).
Qed.

(** X6.  The payload by file kind.  Without a file, and with a text or
    spreadsheet file, the chart kind is ignored: the payload is always the
    one 4-category sample series.  With a log file, pie gives the one
    4-slice series of log levels, line the two 6-point series of error
    and warning counts, and every other chart kind (area and bar
    included) the one 5-category series of error counts. *)
Theorem visualization_payload_by_file_kind
        (processedData : ProcessedFileData.t) (chartType : list N) :
  generateVisualizationData chartType None
  = ChartData.mk
      [lit "Category A"; lit "Category B"; lit "Category C"; lit "Category D"]
      [Dataset.mk (lit "Sample Data") [30; 45; 25; 35]%Z]
  /\ (ProcessedFileData.type processedData = Ttxt
      \/ ProcessedFileData.type processedData = Txlsx ->
      generateVisualizationData chartType (Some processedData)
      = generateVisualizationData chartType None)
  /\ (ProcessedFileData.type processedData = Tlog ->
      generateVisualizationData (lit "pie") (Some processedData)
      = ChartData.mk
          [lit "ERROR"; lit "WARN"; lit "INFO"; lit "DEBUG"]
          [Dataset.mk (lit "Log Levels") [8; 15; 62; 15]%Z]
      /\ generateVisualizationData (lit "line") (Some processedData)
         = ChartData.mk
             [lit "00:00"; lit "04:00"; lit "08:00"; lit "12:00"; lit "16:00"; lit "20:00"]
             [Dataset.mk (lit "Error Count") [2; 1; 8; 12; 15; 6]%Z;
              Dataset.mk (lit "Warning Count") [5; 3; 12; 18; 22; 10]%Z]
      /\ (chartType <> lit "pie" -> chartType <> lit "line" ->
          generateVisualizationData chartType (Some processedData)
          = ChartData.mk
              [lit "Authentication"; lit "Database"; lit "API"; lit "Network"; lit "System"]
              [Dataset.mk (lit "Error Count") [12; 8; 15; 6; 9]%Z])).
Proof.
  split; [reflexivity|]. split.
  - unfold generateVisualizationData. intros [-> | ->]; reflexivity.
  - intros Hlog. unfold generateVisualizationData. rewrite Hlog.
    split; [reflexivity|]. split; [reflexivity|].
    intros Hpie Hline. unfold generateLogVisualizationData.
    apply str_eqb_neq in Hpie, Hline. now rewrite Hpie, Hline.
Qed.

Lemma visualization_payload_by_file_kind_witness :
  ProcessedFileData.type (processLogFile sampleLogLine 44) = Tlog
  /\ generateVisualizationData (lit "area") (Some (processLogFile sampleLogLine 44))
     = ChartData.mk
         [lit "Authentication"; lit "Database"; lit "API"; lit "Network"; lit "System"]
         [Dataset.mk (lit "Error Count") [12; 8; 15; 6; 9]%Z]
  /\ generateVisualizationData (lit "area") (Some (processTextFile (lit "notes") 5))
     = generateVisualizationData (lit "area") None.
Proof.
  split; [reflexivity|]. split.
  - apply (proj2 (proj2 (proj2 (proj2 (visualization_payload_by_file_kind
             (processLogFile sampleLogLine 44) (lit "area"))) eq_refl)));
      apply str_eqb_neq; reflexivity.
  - apply (proj1 (proj2 (visualization_payload_by_file_kind
             (processTextFile (lit "notes") 5) (lit "area")))).
    left. reflexivity.
Defined.

(** X7.  The rendering hints.  They are always responsive, with the legend
    on top and the fixed title; the hint that the y axis begins at zero is
    there exactly for the chart kinds line, bar and area.  So with a csv
    file a chart kind outside bar, line, pie and area gets the series of
    bar but not its hints. *)
Theorem visualization_config_by_chart_kind :
  (forall chartType : list N,
      let config := generateVisualizationConfig chartType in
      ChartConfig.responsive config = true
      /\ ChartConfig.legendPosition config = lit "top"
      /\ ChartConfig.titleDisplay config = true
      /\ ChartConfig.titleText config = lit "Data Visualization"
      /\ (ChartConfig.scalesYBeginAtZero config = Some true
          <-> chartType = lit "line" \/ chartType = lit "bar" \/ chartType = lit "area")
      /\ (ChartConfig.scalesYBeginAtZero config = None
          <-> ~ (chartType = lit "line" \/ chartType = lit "bar" \/ chartType = lit "area")))
  /\ (forall (processedData : ProcessedFileData.t) (chartType : list N),
         ProcessedFileData.type processedData = Tcsv ->
         chartType <> lit "bar" -> chartType <> lit "line" ->
         chartType <> lit "pie" -> chartType <> lit "area" ->
         generateVisualizationData chartType (Some processedData)
         = generateVisualizationData (lit "bar") (Some processedData)
         /\ generateVisualizationConfig chartType
            <> generateVisualizationConfig (lit "bar")).
Proof.
  split.
  - intros chartType. cbv zeta. unfold generateVisualizationConfig.
    destruct (str_eqb chartType (lit "line")) eqn:El;
      destruct (str_eqb chartType (lit "bar")) eqn:Eb;
      destruct (str_eqb chartType (lit "area")) eqn:Ea;
      cbn [orb ChartConfig.responsive ChartConfig.legendPosition
           ChartConfig.titleDisplay ChartConfig.titleText
           ChartConfig.scalesYBeginAtZero];
      repeat (split; [reflexivity|]);
      reflect_eqb;
      (split; split; intros H; try discriminate H; try reflexivity; tauto).
  - intros processedData chartType Hcsv Hbar Hline Hpie Harea.
    apply str_eqb_neq in Hbar, Hline, Hpie, Harea.
    unfold generateVisualizationData, generateCSVVisualizationData,
           generateVisualizationConfig.
    rewrite Hcsv, Hbar, Hline, Hpie, Harea.
    split; [reflexivity | discriminate].
Qed.

Lemma visualization_config_by_chart_kind_witness :
  ProcessedFileData.type sampleCsv = Tcsv
  /\ generateVisualizationData (lit "scatter") (Some sampleCsv)
     = generateVisualizationData (lit "bar") (Some sampleCsv)
  /\ ChartConfig.scalesYBeginAtZero (generateVisualizationConfig (lit "scatter")) = None.
Proof.
  split; [reflexivity|]. split.
  - apply (proj2 visualization_config_by_chart_kind sampleCsv (lit "scatter") eq_refl);
      apply str_eqb_neq; reflexivity.
  - reflexivity.
Defined.

End Payloads.

(* ================================================================== *)
(** * Further properties of file processing *)

Module Files.
Import JsFacts FileProcessor AIAgentManager Statements Notions.

(** ** Lines: [split] and [join] *)

Lemma split_length (sep : N) (s : list N) :
  length (split sep s) = S (count_occ N.eq_dec s sep).
Proof.
  induction s as [|c s IH]; [reflexivity|].
  cbn [split count_occ]. unfold char_eqb.
  destruct (N.eq_dec c sep) as [E|E].
  - apply N.eqb_eq in E. rewrite E. cbn [length]. now rewrite IH.
  - apply N.eqb_neq in E. rewrite E.
    destruct (split sep s) as [|h t]; [discriminate IH|exact IH].
Qed.

Lemma join_split (sep : N) (s : list N) : join [sep] (split sep s) = s.
Proof.
  induction s as [|c s IH]; [reflexivity|].
  cbn [split]. destruct (char_eqb c sep) eqn:E.
  - apply char_eqb_eq in E. subst c.
    destruct (split sep s) as [|h t] eqn:Es.
    + pose proof (split_length sep s) as Hl. rewrite Es in Hl. discriminate Hl.
    + change (join [sep] ([] :: h :: t)) with ([] ++ [sep] ++ join [sep] (h :: t)).
      now rewrite IH.
  - destruct (split sep s) as [|h t] eqn:Es.
    + pose proof (split_length sep s) as Hl. rewrite Es in Hl. discriminate Hl.
    + destruct t as [|h' t].
      * cbn [join] in *. now rewrite IH.
      * change (join [sep] ((c :: h) :: h' :: t))
          with (c :: (h ++ [sep] ++ join [sep] (h' :: t))).
        change (join [sep] (h :: h' :: t))
          with (h ++ [sep] ++ join [sep] (h' :: t)) in IH.
        now rewrite IH.
Qed.

Lemma split_pieces (sep : N) (s : list N) :
  Forall (fun piece => ~ In sep piece) (split sep s).
Proof.
  induction s as [|c s IH]; [repeat constructor; intros []|].
  cbn [split]. destruct (char_eqb c sep) eqn:E.
  - constructor; [intros []|exact IH].
  - apply char_eqb_neq in E.
    destruct (split sep s) as [|h t]; [repeat constructor; intros [H|[]]; congruence|].
    inversion IH as [|? ? Hh Ht]; subst. constructor; [|exact Ht].
    intros [H|H]; [congruence|contradiction].
Qed.

Lemma split_piece (sep : N) (x : list N) :
  ~ In sep x -> split sep x = [x].
Proof.
  induction x as [|c x IH]; intros H; [reflexivity|].
  cbn [split]. destruct (char_eqb c sep) eqn:E.
  - apply char_eqb_eq in E. exfalso. apply H. now left.
  - rewrite IH; [reflexivity|]. intros Hin. apply H. now right.
Qed.

Lemma split_piece_then (sep : N) (x rest : list N) :
  ~ In sep x -> split sep (x ++ sep :: rest) = x :: split sep rest.
Proof.
  induction x as [|c x IH]; intros H.
  - cbn [app split]. unfold char_eqb. now rewrite N.eqb_refl.
  - cbn [app split]. destruct (char_eqb c sep) eqn:E.
    + apply char_eqb_eq in E. exfalso. apply H. now left.
    + rewrite IH; [reflexivity|]. intros Hin. apply H. now right.
Qed.

Lemma split_join (sep : N) (l : list (list N)) :
  l <> [] -> Forall (fun piece => ~ In sep piece) l ->
  split sep (join [sep] l) = l.
Proof.
  induction l as [|x l IH]; intros Hne Hall; [contradiction|].
  inversion Hall as [|? ? Hx Hl]; subst.
  destruct l as [|y l].
  - cbn [join]. now apply split_piece.
  - change (join [sep] (x :: y :: l)) with (x ++ sep :: join [sep] (y :: l)).
    rewrite split_piece_then by exact Hx.
    rewrite IH; [reflexivity|discriminate|exact Hl].
Qed.

Lemma slice_firstn {A : Type} (l : list A) (n : nat) :
  slice l 0 (Some (Z.of_nat n)) = firstn n l.
Proof.
  unfold slice. cbn [Z.ltb Z.compare].
  destruct (Z.ltb_spec (Z.of_nat n) 0) as [H|_]; [lia|].
  rewrite (Z.min_l 0) by lia. cbn [Z.to_nat skipn]. rewrite Z.sub_0_r.
  destruct (Nat.le_gt_cases n (length l)) as [Hle|Hgt].
  - rewrite Z.min_l by lia. now rewrite Nat2Z.id.
  - rewrite Z.min_r by lia. rewrite Nat2Z.id.
    rewrite !firstn_all2; [reflexivity|lia|lia].
Qed.

Lemma join_firstn (sep : list N) (n : nat) (l : list (list N)) :
  exists rest, join sep l = join sep (firstn n l) ++ rest.
Proof.
  revert n. induction l as [|x l IH]; intros n.
  - exists []. now rewrite firstn_nil.
  - destruct n as [|n]; [now exists (join sep (x :: l))|].
    cbn [firstn]. destruct l as [|y l].
    + exists []. rewrite firstn_nil. cbn [join]. now rewrite app_nil_r.
    + destruct n as [|n].
      * exists (sep ++ join sep (y :: l)). reflexivity.
      * destruct (IH (S n)) as [rest Hrest].
        exists rest.
        change (join sep (x :: y :: l)) with (x ++ sep ++ join sep (y :: l)).
        change (firstn (S n) (y :: l)) with (y :: firstn n l) in *.
        change (join sep (x :: y :: firstn n l))
          with (x ++ sep ++ join sep (y :: firstn n l)).
        rewrite Hrest. now rewrite <- !app_assoc.
Qed.

Lemma firstn_nonempty {A : Type} (n : nat) (l : list A) :
  l <> [] -> firstn (S n) l <> [].
Proof. destruct l; [contradiction|discriminate]. Qed.

Lemma Forall_firstn {A : Type} (P : A -> Prop) (n : nat) (l : list A) :
  Forall P l -> Forall P (firstn n l).
Proof.
  intros H. rewrite Forall_forall in *. intros x Hx. apply H.
  rewrite <- (firstn_skipn n l). apply in_or_app. now left.
Qed.

(** X8.  A text file.  The line count is one more than the number of
    newline code units of the content (an empty content has one line); the
    preview is a prefix of the content, is the whole content when it has
    at most 10 lines, and never has more than 10 lines. *)
Theorem text_file_lines_and_preview (content : list N) (size : N) :
  let processed := processTextFile content size in
  let newlines s := count_occ N.eq_dec s newline in
  Metadata.lines (ProcessedFileData.metadata processed) = Some (S (newlines content))
  /\ (exists rest, content = ProcessedFileData.preview processed ++ rest)
  /\ (newlines content < 10 -> ProcessedFileData.preview processed = content)
  /\ newlines (ProcessedFileData.preview processed) < 10
  /\ ProcessedFileData.content processed = content.
Proof.
  cbv zeta. unfold processTextFile.
  cbn [ProcessedFileData.metadata ProcessedFileData.preview Metadata.lines
       ProcessedFileData.content].
  change (Some 10%Z) with (Some (Z.of_nat 10)). rewrite slice_firstn.
  split; [now rewrite split_length|].
  split.
  { destruct (join_firstn [newline] 10 (split newline content)) as [rest Hrest].
    exists rest. now rewrite <- Hrest, join_split. }
  split.
  { intros Hfew. rewrite firstn_all2; [apply join_split|].
    rewrite split_length. lia. }
  split; [|reflexivity].
  assert (Hne : split newline content <> []).
  { intros E. pose proof (split_length newline content) as Hl.
    rewrite E in Hl. discriminate Hl. }
  pose proof (split_length newline
                (join [newline] (firstn 10 (split newline content)))) as Hl.
  rewrite split_join in Hl.
  - pose proof (length_firstn 10 (split newline content)). lia.
  - now apply firstn_nonempty.
  - apply Forall_firstn, split_pieces.
Qed.

Lemma text_file_lines_and_preview_witness :
  count_occ N.eq_dec (lit "alpha") newline < 10
  /\ ProcessedFileData.preview (processTextFile (lit "alpha") 5) = lit "alpha".
Proof.
  assert (H : count_occ N.eq_dec (lit "alpha") newline < 10) by (vm_compute; lia).
  split; [exact H|].
  exact (proj1 (proj2 (proj2 (text_file_lines_and_preview (lit "alpha") 5))) H).
Defined.

Lemma nonBlankLines_pieces (content : list N) :
  Forall (fun line => trim line <> [] /\ ~ In newline line) (nonBlankLines content).
Proof.
  unfold nonBlankLines. rewrite Forall_forall. intros line Hin.
  apply filter_In in Hin. destruct Hin as [Hin Hkeep]. split.
  - intros E. rewrite E in Hkeep. discriminate Hkeep.
  - pose proof (split_pieces newline content) as H.
    rewrite Forall_forall in H. now apply H.
Qed.

Lemma preview_lines (n : nat) (lines : list (list N)) :
  lines <> [] -> Forall (fun line => ~ In newline line) lines ->
  split newline (join [newline] (slice lines 0 (Some (Z.of_nat (S n)))))
  = firstn (S n) lines.
Proof.
  intros Hne Hall. rewrite slice_firstn. apply split_join.
  - now apply firstn_nonempty.
  - now apply Forall_firstn.
Qed.

(** X9.  Log and csv files are read by their non-blank lines.  Every
    counted line has a non-empty trimmed text; there are at most as many
    as the content has lines; the line count of the metadata, the
    totalLines of a log structure and one more than the rows of a csv
    structure all equal their number; and when there is at least one, the
    lines of the preview are exactly the first 10 of them for a log file
    and the first 6 for a csv file (the preview is empty otherwise). *)
Theorem blank_lines_dropped (content : list N) (size : N) :
  let kept := nonBlankLines content in
  let log := processLogFile content size in
  let csv := processCsvFile content size in
  Forall (fun line => trim line <> [] /\ ~ In newline line) kept
  /\ length kept <= S (count_occ N.eq_dec content newline)
  /\ Metadata.lines (ProcessedFileData.metadata log) = Some (length kept)
  /\ option_map LogStructure.totalLines (logInfo log) = Some (length kept)
  /\ Metadata.lines (ProcessedFileData.metadata csv) = Some (length kept)
  /\ option_map CsvStructure.rows (csvInfo csv) = Some (Z.of_nat (length kept) - 1)%Z
  /\ (kept <> [] ->
      split newline (ProcessedFileData.preview log) = firstn 10 kept
      /\ split newline (ProcessedFileData.preview csv) = firstn 6 kept)
  /\ (kept = [] ->
      ProcessedFileData.preview log = [] /\ ProcessedFileData.preview csv = []).
Proof.
  cbv zeta. pose proof (nonBlankLines_pieces content) as Hkept.
  split; [exact Hkept|].
  split.
  { rewrite <- split_length. unfold nonBlankLines. apply filter_length_le. }
  do 4 (split; [reflexivity|]).
  assert (Hnl : Forall (fun line => ~ In newline line) (nonBlankLines content)).
  { eapply Forall_impl; [|exact Hkept]. now intros line [_ H]. }
  split.
  - intros Hne. unfold processLogFile, processCsvFile.
    cbn [ProcessedFileData.preview]. split.
    + change (Some 10%Z) with (Some (Z.of_nat 10)). now apply preview_lines.
    + change (Some 6%Z) with (Some (Z.of_nat 6)). now apply preview_lines.
  - intros E. unfold processLogFile, processCsvFile.
    cbn [ProcessedFileData.preview]. rewrite E. split; reflexivity.
Qed.

Lemma blank_lines_dropped_witness :
  nonBlankLines sampleCsvText <> []
  /\ split newline (ProcessedFileData.preview (processCsvFile sampleCsvText 17))
     = [lit "a,b,c"; lit "1,2,3"; lit "4,5,6"].
Proof.
  assert (H : nonBlankLines sampleCsvText <> []) by (vm_compute; discriminate).
  split; [exact H|].
  rewrite (proj2 (proj1 (proj2 (proj2 (proj2 (proj2 (proj2 (proj2
             (blank_lines_dropped sampleCsvText 17))))))) H)).
  reflexivity.
Defined.

(** The four file types [processFile] has a case for. *)
Lemma supported_cases (fileType : list N) :
  In fileType [lit "txt"; lit "log"; lit "csv"; lit "xlsx"]
  \/ (str_eqb fileType (lit "txt") = false /\ str_eqb fileType (lit "log") = false
      /\ str_eqb fileType (lit "csv") = false /\ str_eqb fileType (lit "xlsx") = false).
Proof.
  destruct (str_eqb fileType (lit "txt")) eqn:E1;
    [apply str_eqb_eq in E1; left; rewrite E1; cbn [In]; tauto|].
  destruct (str_eqb fileType (lit "log")) eqn:E2;
    [apply str_eqb_eq in E2; left; rewrite E2; cbn [In]; tauto|].
  destruct (str_eqb fileType (lit "csv")) eqn:E3;
    [apply str_eqb_eq in E3; left; rewrite E3; cbn [In]; tauto|].
  destruct (str_eqb fileType (lit "xlsx")) eqn:E4;
    [apply str_eqb_eq in E4; left; rewrite E4; cbn [In]; tauto|].
  right. tauto.
Qed.

Lemma processFile_supported (fs : Fs) (filePath fileType content : list N) (size : N) :
  readFileSync fs filePath = Ok content ->
  statSyncSize fs filePath = Ok size ->
  In fileType [lit "txt"; lit "log"; lit "csv"; lit "xlsx"] ->
  exists processed,
    processFile fs filePath fileType = Ok processed
    /\ In processed [processTextFile content size; processLogFile content size;
                     processCsvFile content size; processExcelFile filePath size]
    /\ typeName (ProcessedFileData.type processed) = fileType
    /\ Metadata.size (ProcessedFileData.metadata processed) = size.
Proof.
  intros Hread Hstat Hin. unfold processFile. rewrite Hread, Hstat. cbn [bind].
  cbn [In] in Hin.
  destruct Hin as [<-|[<-|[<-|[<-|[]]]]]; eexists;
    (split; [reflexivity|]); (split; [cbn [In]; tauto|]); split; reflexivity.
Qed.

Lemma processFile_read_failure (fs : Fs) (filePath fileType : list N) error :
  readFileSync fs filePath = Throw error ->
  processFile fs filePath fileType = Throw error.
Proof. intros H. unfold processFile. now rewrite H. Qed.

Lemma processFile_stat_failure (fs : Fs) (filePath fileType content : list N) error :
  readFileSync fs filePath = Ok content ->
  statSyncSize fs filePath = Throw error ->
  processFile fs filePath fileType = Throw error.
Proof. intros Hread Hstat. unfold processFile. now rewrite Hread, Hstat. Qed.

Lemma processFile_unsupported (fs : Fs) (filePath fileType content : list N) (size : N) :
  readFileSync fs filePath = Ok content ->
  statSyncSize fs filePath = Ok size ->
  ~ In fileType [lit "txt"; lit "log"; lit "csv"; lit "xlsx"] ->
  processFile fs filePath fileType = Throw (UnsupportedFileType fileType).
Proof.
  intros Hread Hstat Hout.
  destruct (supported_cases fileType) as [Hin|(E1 & E2 & E3 & E4)]; [contradiction|].
  unfold processFile. rewrite Hread, Hstat. cbn [bind].
  now rewrite E1, E2, E3, E4.
Qed.

(** X10.  The outcome of processFile.  A failure of the read is passed on
    whatever the file type, and so is a failure of the size lookup after
    a successful read.  When both succeed, exactly the four file types
    txt, log, csv and xlsx (in this spelling: lower case) are processed,
    the result carrying the given type and the looked-up size, and the
    file content unless the type is xlsx; every other file type raises
    the unsupported-file-type error naming it. *)
Theorem processFile_outcome (fs : Fs) (filePath fileType : list N) :
  (forall error, readFileSync fs filePath = Throw error ->
                 processFile fs filePath fileType = Throw error)
  /\ (forall content error,
         readFileSync fs filePath = Ok content ->
         statSyncSize fs filePath = Throw error ->
         processFile fs filePath fileType = Throw error)
  /\ (forall content size,
         readFileSync fs filePath = Ok content ->
         statSyncSize fs filePath = Ok size ->
         (In fileType [lit "txt"; lit "log"; lit "csv"; lit "xlsx"] ->
          exists processed,
            processFile fs filePath fileType = Ok processed
            /\ typeName (ProcessedFileData.type processed) = fileType
            /\ Metadata.size (ProcessedFileData.metadata processed) = size
            /\ (fileType <> lit "xlsx" ->
                ProcessedFileData.content processed = content))
         /\ (~ In fileType [lit "txt"; lit "log"; lit "csv"; lit "xlsx"] ->
             processFile fs filePath fileType
             = Throw (UnsupportedFileType fileType))).
Proof.
  split; [|split].
  - intros error. apply processFile_read_failure.
  - intros content error. apply processFile_stat_failure.
  - intros content size Hread Hstat. split.
    + intros Hin. unfold processFile. rewrite Hread, Hstat. cbn [bind].
      cbn [In] in Hin.
      destruct Hin as [<-|[<-|[<-|[<-|[]]]]]; eexists;
        (split; [reflexivity|]); (split; [reflexivity|]);
        (split; [reflexivity|]); intros Hx; try reflexivity.
      now contradiction Hx.
    + now apply processFile_unsupported with (content := content) (size := size).
Qed.

Lemma processFile_outcome_witness :
  ~ In (lit "CSV") [lit "txt"; lit "log"; lit "csv"; lit "xlsx"]
  /\ processFile (Host.fs (answeringHost [])) (lit "uploads/1/sales.csv") (lit "CSV")
     = Throw (UnsupportedFileType (lit "CSV"))
  /\ exists processed,
      processFile (Host.fs (answeringHost [])) (lit "uploads/1/sales.csv") (lit "csv")
      = Ok processed
      /\ typeName (ProcessedFileData.type processed) = lit "csv"
      /\ Metadata.size (ProcessedFileData.metadata processed) = 17%N
      /\ (lit "csv" <> lit "xlsx" -> ProcessedFileData.content processed = sampleCsvText).
Proof.
  assert (Hout : ~ In (lit "CSV") [lit "txt"; lit "log"; lit "csv"; lit "xlsx"]).
  { intros H. vm_compute in H. intuition discriminate. }
  assert (Hin : In (lit "csv") [lit "txt"; lit "log"; lit "csv"; lit "xlsx"]).
  { cbn [In]. tauto. }
  split; [exact Hout|]. split.
  - exact (proj2 (proj2 (proj2 (processFile_outcome (Host.fs (answeringHost []))
                                  (lit "uploads/1/sales.csv") (lit "CSV")))
                        sampleCsvText 17%N eq_refl eq_refl) Hout).
  - exact (proj1 (proj2 (proj2 (processFile_outcome (Host.fs (answeringHost []))
                                  (lit "uploads/1/sales.csv") (lit "csv")))
                        sampleCsvText 17%N eq_refl eq_refl) Hin).
Defined.

Lemma occursIn_here (tag after : list N) : occursIn tag (tag ++ after).
Proof. now exists [], after. Qed.

Lemma occursIn_later (pre tag s : list N) : occursIn tag s -> occursIn tag (pre ++ s).
Proof.
  intros (before & after & ->). exists (pre ++ before), after.
  now rewrite <- app_assoc.
Qed.

Lemma occursIn_earlier (tag s post : list N) : occursIn tag s -> occursIn tag (s ++ post).
Proof.
  intros (before & after & ->). exists before, (after ++ post).
  now rewrite <- !app_assoc.
Qed.

Create HintDb occurs.

#[local] Hint Resolve occursIn_here occursIn_later occursIn_earlier : occurs.

Lemma generateSummary_processed (fs : Fs) (filePath fileType : list N)
      (processed : ProcessedFileData.t) :
  processFile fs filePath fileType = Ok processed ->
  exists summary, generateSummary processed = Ok summary.
Proof.
  unfold processFile.
  destruct (readFileSync fs filePath) as [content|]; [|discriminate].
  destruct (statSyncSize fs filePath) as [size|]; [|discriminate]. cbn [bind].
  destruct (str_eqb fileType (lit "txt"));
    [intros H; injection H as <-; eexists; reflexivity|].
  destruct (str_eqb fileType (lit "log"));
    [intros H; injection H as <-; eexists; reflexivity|].
  destruct (str_eqb fileType (lit "csv"));
    [intros H; injection H as <-; eexists; reflexivity|].
  destruct (str_eqb fileType (lit "xlsx"));
    [intros H; injection H as <-; eexists; reflexivity|discriminate].
Qed.

Lemma file_context_nonempty (host : Host.t) (file : FileRecord.t) (fs : Fs)
      (filePath fileType : list N) (processed : ProcessedFileData.t) :
  processFile fs filePath fileType = Ok processed ->
  exists fileContext,
    buildFileContext host file processed = Ok fileContext /\ fileContext <> [].
Proof.
  intros Hfile.
  destruct (generateSummary_processed _ _ _ _ Hfile) as [summary Hsum].
  unfold buildFileContext. rewrite Hsum. cbn [bind].
  destruct (ProcessedFileData.structure processed) as [structure|];
    eexists; (split; [reflexivity|discriminate]).
Qed.

(** X11.  Whatever processFile returns can be summarised and put into a
    file context: neither generateSummary nor buildFileContext throws on
    it, and the context contains the file name, the rendered size of the
    file record, the summary and the preview. *)
Theorem file_context_of_processed_file
        (host : Host.t) (file : FileRecord.t) (filePath fileType : list N)
        (processed : ProcessedFileData.t) :
  processFile (Host.fs host) filePath fileType = Ok processed ->
  exists summary fileContext,
    generateSummary processed = Ok summary
    /\ buildFileContext host file processed = Ok fileContext
    /\ occursIn (FileRecord.filename file) fileContext
    /\ occursIn (formatFileSize (FileRecord.file_size file)) fileContext
    /\ occursIn summary fileContext
    /\ occursIn (ProcessedFileData.preview processed) fileContext
    /\ fileContext <> [].
Proof.
  intros Hfile.
  destruct (generateSummary_processed _ _ _ _ Hfile) as [summary Hsum].
  exists summary. unfold buildFileContext. rewrite Hsum. cbn [bind].
  destruct (ProcessedFileData.structure processed) as [structure|];
    eexists; (split; [reflexivity|]); (split; [reflexivity|]);
    repeat split; try discriminate; rewrite <- ?app_assoc; auto 20 with occurs.
Qed.

Lemma file_context_of_processed_file_witness :
  processFile (Host.fs (answeringHost [])) (lit "uploads/1/sales.csv") (lit "csv")
  = Ok sampleCsv
  /\ exists summary fileContext,
      generateSummary sampleCsv = Ok summary
      /\ buildFileContext (answeringHost []) sampleRecord sampleCsv = Ok fileContext
      /\ occursIn (FileRecord.filename sampleRecord) fileContext
      /\ occursIn (formatFileSize (FileRecord.file_size sampleRecord)) fileContext
      /\ occursIn summary fileContext
      /\ occursIn (ProcessedFileData.preview sampleCsv) fileContext
      /\ fileContext <> [].
Proof.
  assert (H : processFile (Host.fs (answeringHost [])) (lit "uploads/1/sales.csv")
                          (lit "csv") = Ok sampleCsv) by reflexivity.
  split; [exact H|].
  exact (file_context_of_processed_file (answeringHost []) sampleRecord
           (lit "uploads/1/sales.csv") (lit "csv") sampleCsv H).
Defined.

End Files.

(* ================================================================== *)
(** * Further properties of sizes and of processQuery *)

Module Answers.
Import JsFacts FileProcessor AIAgentManager Statements Notions Files.
Import Extraction.

(** X12.  The rendered value of a size.  A byte count from 1 below 1024
    renders as the plain count and the word Bytes.  For every count from 1
    below 1024^4 the value is at least 1 and at most 1024 (rounding can
    reach 1024: one byte less than a megabyte renders as 1024 KB). *)
Theorem formatFileSize_value_range :
  (forall bytes : N,
      (0 < bytes < 1024)%N ->
      formatFileSize bytes = showN bytes ++ lit " Bytes")
  /\ (forall bytes : N,
         (0 < bytes < 1024 ^ 4)%N ->
         exists (hundredths : N) (unit : list N),
           In unit sizes
           /\ (100 <= hundredths <= 102400)%N
           /\ formatFileSize bytes = showHundredths hundredths ++ lit " " ++ unit)
  /\ formatFileSize (1024 ^ 2 - 1) = lit "1024 KB".
Proof.
  split; [|split; [|reflexivity]].
  - intros bytes [Hpos Hmax]. unfold formatFileSize.
    destruct (N.eqb_spec bytes 0) as [E|_]; [lia|]. cbv zeta.
    assert (Hi : floorLog1024 bytes = 0).
    { unfold floorLog1024.
      assert (Hl : (N.log2 bytes < 10)%N).
      { apply N.log2_lt_pow2; [exact Hpos|]. change (2 ^ 10)%N with 1024%N. exact Hmax. }
      rewrite N.div_small by exact Hl. reflexivity. }
    rewrite Hi. change (1024 ^ N.of_nat 0)%N with 1%N.
    change (nth 0 sizes (lit "undefined")) with (lit "Bytes").
    assert (Hv : toFixed2 bytes 1 = (bytes * 100)%N).
    { unfold toFixed2. change (2 * 1)%N with 2%N.
      replace (200 * bytes + 1)%N with (1 + (bytes * 100) * 2)%N by lia.
      rewrite N.div_add by lia. reflexivity. }
    rewrite Hv. unfold showHundredths.
    rewrite N.Div0.mod_mul. cbn [N.eqb]. rewrite N.div_mul by lia. reflexivity.
  - intros bytes [Hpos Hmax].
    destruct (Sizes.floorLog1024_spec _ Hpos) as [Hlo Hhi].
    set (i := floorLog1024 bytes) in *.
    assert (Hi : i < 4).
    { assert (H : (1024 ^ N.of_nat i < 1024 ^ 4)%N) by lia.
      apply N.pow_lt_mono_r_iff in H; lia. }
    assert (Hd : (0 < 1024 ^ N.of_nat i)%N)
      by (apply N.neq_0_lt_0, N.pow_nonzero; lia).
    destruct (Sizes.toFixed2_nearest bytes _ Hd) as [Hn1 Hn2].
    rewrite N.pow_add_r in Hhi. change (1024 ^ 1)%N with 1024%N in Hhi.
    exists (toFixed2 bytes (1024 ^ N.of_nat i)), (nth i sizes (lit "undefined")).
    split; [|split].
    + do 4 (destruct i as [|i]; [cbn; tauto|]). lia.
    + set (d := (1024 ^ N.of_nat i)%N) in *.
      set (n := toFixed2 bytes d) in *. split; nia.
    + unfold formatFileSize. destruct (N.eqb_spec bytes 0); [lia|]. reflexivity.
Qed.

Lemma formatFileSize_value_range_witness :
  (0 < 512 < 1024)%N /\ formatFileSize 512 = showN 512 ++ lit " Bytes".
Proof.
  assert (H : (0 < 512 < 1024)%N) by (split; reflexivity).
  split; [exact H|].
  exact (proj1 formatFileSize_value_range 512%N H).
Defined.

(** ** processQuery *)

Lemma loadFile_found (host : Host.t) (fid : Z) (file : FileRecord.t) :
  fid <> 0%Z ->
  Host.getFile host fid = Ok (Some file) ->
  loadFile host (Some fid)
  = (processedData <- processFile (Host.fs host) (FileRecord.file_path file)
                                  (FileRecord.file_type file) ;;
     fileContext <- buildFileContext host file processedData ;;
     Ok (fileContext, Some processedData)).
Proof.
  intros Hfid Hget. unfold loadFile.
  destruct fid as [|p|p]; [contradiction| |]; cbn [truthyId]; now rewrite Hget.
Qed.

Lemma loadFile_absent (host : Host.t) (fileId : option Z) :
  fileId = None \/ fileId = Some 0%Z
  \/ (exists fid, fileId = Some fid /\ Host.getFile host fid = Ok None) ->
  loadFile host fileId = Ok ([], None).
Proof.
  intros [->|[->|(fid & -> & Hget)]]; try reflexivity.
  unfold loadFile. destruct fid as [|p|p]; cbn [truthyId]; try reflexivity;
    now rewrite Hget.
Qed.

(** X13.  A query about a stored file.  When the file id is not 0, the
    store has the file, its type is one of txt, log, csv and xlsx, and the
    read and the size lookup succeed, the file is processed and its
    context built without an error; the generation call gets the base
    prompt extended by this context; and when it answers, the response is
    the interpreted answer, with confidence 0.85 and the file type as its
    one source, and nothing is logged. *)
Theorem answer_about_file
        (host : Host.t) (query : list N) (fid : Z) (history : list ChatMessage.t)
        (file : FileRecord.t) (content : list N) (size : N) :
  fid <> 0%Z ->
  Host.getFile host fid = Ok (Some file) ->
  readFileSync (Host.fs host) (FileRecord.file_path file) = Ok content ->
  statSyncSize (Host.fs host) (FileRecord.file_path file) = Ok size ->
  In (FileRecord.file_type file) [lit "txt"; lit "log"; lit "csv"; lit "xlsx"] ->
  exists processed fileContext,
    processFile (Host.fs host) (FileRecord.file_path file) (FileRecord.file_type file)
    = Ok processed
    /\ buildFileContext host file processed = Ok fileContext
    /\ forall text,
        Host.generateText host
          (basePrompt ++ lit "

Current File Context:
" ++ fileContext)
          (buildUserPrompt query (buildConversationContext history)) = Ok text ->
        processQuery host query (Some fid) history
        = (parseAIResponse text (Some processed), [])
        /\ AgentResponse.sources (fst (processQuery host query (Some fid) history))
           = [FileRecord.file_type file]
        /\ AgentResponse.confidence (fst (processQuery host query (Some fid) history))
           = (85 # 100)%Q.
Proof.
  intros Hfid Hget Hread Hstat Hin.
  destruct (processFile_supported _ _ _ _ _ Hread Hstat Hin)
    as (processed & Hfile & _ & Htype & _).
  destruct (file_context_nonempty host file _ _ _ _ Hfile)
    as (fileContext & Hctx & Hne).
  exists processed, fileContext. split; [exact Hfile|]. split; [exact Hctx|].
  intros text Hgen.
  assert (E : processQuery host query (Some fid) history
              = (parseAIResponse text (Some processed), [])).
  { unfold processQuery, tryProcessQuery.
    rewrite (loadFile_found _ _ _ Hfid Hget), Hfile. cbn [bind].
    rewrite Hctx. cbn [bind]. unfold prompts, buildSystemPrompt.
    destruct fileContext as [|c fileContext]; [contradiction|].
    cbn [nonEmpty]. rewrite Hgen. reflexivity. }
  rewrite E. cbn [fst]. split; [reflexivity|]. split; [|reflexivity].
  unfold parseAIResponse. cbn [AgentResponse.sources]. now rewrite Htype.
Qed.

Lemma answer_about_file_witness :
  exists processed fileContext,
    processFile (Host.fs (answeringHost (lit "Fine.")))
                (FileRecord.file_path sampleRecord) (FileRecord.file_type sampleRecord)
    = Ok processed
    /\ buildFileContext (answeringHost (lit "Fine.")) sampleRecord processed
       = Ok fileContext
    /\ forall text,
        Host.generateText (answeringHost (lit "Fine."))
          (basePrompt ++ lit "

Current File Context:
" ++ fileContext)
          (buildUserPrompt (lit "How many rows?") (buildConversationContext []))
        = Ok text ->
        processQuery (answeringHost (lit "Fine.")) (lit "How many rows?") (Some 1%Z) []
        = (parseAIResponse text (Some processed), [])
        /\ AgentResponse.sources
             (fst (processQuery (answeringHost (lit "Fine.")) (lit "How many rows?")
                                (Some 1%Z) []))
           = [FileRecord.file_type sampleRecord]
        /\ AgentResponse.confidence
             (fst (processQuery (answeringHost (lit "Fine.")) (lit "How many rows?")
                                (Some 1%Z) []))
           = (85 # 100)%Q.
Proof.
  apply (answer_about_file (answeringHost (lit "Fine.")) (lit "How many rows?") 1%Z []
           sampleRecord sampleCsvText 17%N).
  - discriminate.
  - reflexivity.
  - reflexivity.
  - reflexivity.
  - vm_compute. tauto.
Defined.

(** X14.  A query without a usable file.  No file id, the file id 0 and a
    file id the store does not know are all answered alike, without
    touching the file system: the generation call gets the bare base
    prompt, and when it answers, the response is the interpreted answer
    with no sources and the sample payloads of the no-file case. *)
Theorem answer_without_file
        (host : Host.t) (query : list N) (fileId : option Z)
        (history : list ChatMessage.t) :
  fileId = None \/ fileId = Some 0%Z
  \/ (exists fid, fileId = Some fid /\ Host.getFile host fid = Ok None) ->
  processQuery host query fileId history = processQuery host query None history
  /\ (forall fs,
         processQuery (Host.mk fs (Host.getFile host) (Host.generateText host)
                               (Host.JSON_stringify host) (Host.toUpperCase host))
                      query fileId history
         = processQuery host query fileId history)
  /\ (forall text,
         Host.generateText host basePrompt
           (buildUserPrompt query (buildConversationContext history)) = Ok text ->
         processQuery host query fileId history = (parseAIResponse text None, [])
         /\ AgentResponse.sources (fst (processQuery host query fileId history)) = []).
Proof.
  intros Habsent.
  assert (E : forall h, Host.getFile h = Host.getFile host ->
                        Host.generateText h = Host.generateText host ->
                        processQuery h query fileId history
                        = match Host.generateText host basePrompt
                                  (buildUserPrompt query (buildConversationContext history))
                          with
                          | Ok text => (parseAIResponse text None, [])
                          | Throw error => (fallbackResponse, [error])
                          end).
  { intros h Hget Hgen. unfold processQuery, tryProcessQuery.
    rewrite (loadFile_absent h fileId).
    - cbn [bind prompts buildSystemPrompt nonEmpty]. unfold prompts.
      cbn [buildSystemPrompt nonEmpty]. rewrite Hgen.
      now destruct (Host.generateText host basePrompt _).
    - rewrite Hget. exact Habsent. }
  split; [|split].
  - rewrite (E host eq_refl eq_refl).
    unfold processQuery, tryProcessQuery, loadFile. cbn [truthyId bind].
    unfold prompts. cbn [buildSystemPrompt nonEmpty].
    now destruct (Host.generateText host basePrompt _).
  - intros fs. rewrite (E host eq_refl eq_refl). now apply E.
  - intros text Hgen. rewrite (E host eq_refl eq_refl), Hgen. split; reflexivity.
Qed.

Lemma answer_without_file_witness :
  (exists fid, Some 7%Z = Some fid
               /\ Host.getFile (answeringHost (lit "Fine.")) fid = Ok None)
  /\ processQuery (answeringHost (lit "Fine.")) (lit "Hello") (Some 7%Z) []
     = processQuery (answeringHost (lit "Fine.")) (lit "Hello") None [].
Proof.
  assert (H : exists fid, Some 7%Z = Some fid
                          /\ Host.getFile (answeringHost (lit "Fine.")) fid = Ok None).
  { exists 7%Z. split; reflexivity. }
  split; [exact H|].
  exact (proj1 (answer_without_file (answeringHost (lit "Fine.")) (lit "Hello")
                  (Some 7%Z) [] (or_intror (or_intror H)))).
Defined.

(** X15.  Failures before the generation call.  When the file id is not 0
    and the store lookup throws, or the store has the file but reading it
    or looking up its size throws, or both succeed but the stored type is
    not one of txt, log, csv and xlsx, the response is the fixed fallback
    and the error is logged, whatever the generation call would have
    answered. *)
Theorem file_failure_fallback
        (host : Host.t) (query : list N) (fid : Z) (history : list ChatMessage.t) :
  fid <> 0%Z ->
  (forall error,
      Host.getFile host fid = Throw error ->
      processQuery host query (Some fid) history = (fallbackResponse, [error]))
  /\ (forall file error,
         Host.getFile host fid = Ok (Some file) ->
         readFileSync (Host.fs host) (FileRecord.file_path file) = Throw error ->
         processQuery host query (Some fid) history = (fallbackResponse, [error]))
  /\ (forall file content error,
         Host.getFile host fid = Ok (Some file) ->
         readFileSync (Host.fs host) (FileRecord.file_path file) = Ok content ->
         statSyncSize (Host.fs host) (FileRecord.file_path file) = Throw error ->
         processQuery host query (Some fid) history = (fallbackResponse, [error]))
  /\ (forall file content size,
         Host.getFile host fid = Ok (Some file) ->
         readFileSync (Host.fs host) (FileRecord.file_path file) = Ok content ->
         statSyncSize (Host.fs host) (FileRecord.file_path file) = Ok size ->
         ~ In (FileRecord.file_type file) [lit "txt"; lit "log"; lit "csv"; lit "xlsx"] ->
         processQuery host query (Some fid) history
         = (fallbackResponse, [UnsupportedFileType (FileRecord.file_type file)])).
Proof.
  intros Hfid.
  assert (Hthrow : forall file error,
             Host.getFile host fid = Ok (Some file) ->
             processFile (Host.fs host) (FileRecord.file_path file)
                         (FileRecord.file_type file) = Throw error ->
             processQuery host query (Some fid) history = (fallbackResponse, [error])).
  { intros file error Hget Hfile. unfold processQuery, tryProcessQuery.
    rewrite (loadFile_found _ _ _ Hfid Hget), Hfile. reflexivity. }
  split; [|split; [|split]].
  - intros error Hget. unfold processQuery, tryProcessQuery, loadFile.
    destruct fid as [|p|p]; [contradiction| |]; cbn [truthyId]; now rewrite Hget.
  - intros file error Hget Hread. apply (Hthrow file error Hget).
    now apply processFile_read_failure.
  - intros file content error Hget Hread Hstat. apply (Hthrow file error Hget).
    now apply processFile_stat_failure with (content := content).
  - intros file content size Hget Hread Hstat Hout. apply (Hthrow file _ Hget).
    now apply processFile_unsupported with (content := content) (size := size).
Qed.

Lemma file_failure_fallback_witness :
  2%Z <> 0%Z
  /\ Host.generateText jsonHost [] [] = Ok (lit "Fine.")
  /\ processQuery jsonHost (lit "Hello") (Some 2%Z) []
     = (fallbackResponse, [UnsupportedFileType (lit "json")]).
Proof.
  assert (Hid : 2%Z <> 0%Z) by discriminate.
  split; [exact Hid|]. split; [reflexivity|].
  apply (proj2 (proj2 (proj2 (file_failure_fallback jsonHost (lit "Hello") 2%Z [] Hid)))
           jsonRecord sampleCsvText 17%N eq_refl eq_refl eq_refl).
  intros H. vm_compute in H. intuition discriminate.
Defined.

Lemma processQuery_cases (host : Host.t) (query : list N) (fileId : option Z)
      (history : list ChatMessage.t) :
  (exists text processedData,
      processQuery host query fileId history
      = (parseAIResponse text processedData, []))
  \/ (exists error,
         processQuery host query fileId history = (fallbackResponse, [error])).
Proof.
  unfold processQuery, tryProcessQuery.
  destruct (loadFile host fileId) as [[fileContext processedData]|error];
    [|right; now exists error].
  cbn [bind].
  destruct (prompts query history fileContext processedData)
    as [systemPrompt userPrompt].
  destruct (Host.generateText host systemPrompt userPrompt) as [text|error];
    [left; now exists text, processedData|right; now exists error].
Qed.

(** X16.  What holds of every response of processQuery.  Its text has no
    white space at either end, it names at most one source, and at most
    one error is logged.  Nothing is logged exactly when the confidence is
    0.85, and exactly then the response has a visualizations and a tables
    list; an error is logged exactly when the response is the fixed
    fallback with confidence 0. *)
Theorem response_invariants
        (host : Host.t) (query : list N) (fileId : option Z)
        (history : list ChatMessage.t) :
  let response := fst (processQuery host query fileId history) in
  let errors := snd (processQuery host query fileId history) in
  trimmed (AgentResponse.content response)
  /\ length (AgentResponse.sources response) <= 1
  /\ length errors <= 1
  /\ (errors = [] <-> AgentResponse.confidence response = (85 # 100)%Q)
  /\ (errors = [] <->
      exists visualizations tables,
        AgentResponse.visualizations response = Some visualizations
        /\ AgentResponse.tables response = Some tables)
  /\ (errors <> [] <-> response = fallbackResponse)
  /\ (errors <> [] <-> AgentResponse.confidence response = 0%Q).
Proof.
  cbv zeta.
  destruct (processQuery_cases host query fileId history)
    as [(text & processedData & E)|(error & E)]; rewrite E; cbn [fst snd].
  - split; [apply trim_trimmed|].
    split; [destruct processedData; cbn; lia|].
    split; [cbn; lia|].
    split; [split; reflexivity|].
    split; [split; [intros _; eexists; eexists; split; reflexivity|reflexivity]|].
    split; split; intros H; try (now contradiction H);
      apply (f_equal AgentResponse.confidence) in H || idtac; discriminate H.
  - split; [split; vm_compute; reflexivity|].
    split; [cbn; lia|].
    split; [cbn; lia|].
    split; [split; intros H; discriminate H|].
    split; [split; [intros H; discriminate H|intros (v & t & H & _); discriminate H]|].
    split; split; intros H; try reflexivity; discriminate.
Qed.

Lemma slice_last6 {A : Type} (older recent : list A) :
  length recent = 6 -> slice (older ++ recent) (-6) None = recent.
Proof.
  intros H. unfold slice. change ((-6 <? 0)%Z) with true. cbv iota.
  rewrite length_app, H. rewrite Z.max_l by lia.
  replace (Z.to_nat (Z.of_nat (length older + 6) + -6)) with (length older) by lia.
  replace (Z.to_nat (Z.of_nat (length older + 6)
                     - (Z.of_nat (length older + 6) + -6))) with 6 by lia.
  rewrite skipn_app, skipn_all, Nat.sub_diag. cbn [skipn app].
  apply firstn_all2. lia.
Qed.

Lemma slice_last_nonempty {A : Type} (x : A) (l : list A) :
  slice (x :: l) (-6) None <> [].
Proof.
  unfold slice. change ((-6 <? 0)%Z) with true. cbv iota.
  set (len := Z.of_nat (length (x :: l))).
  assert (Hlen : (0 < len)%Z) by (unfold len; cbn [length]; lia).
  set (from := Z.max (len + -6) 0).
  assert (Hfrom : (0 <= from < len)%Z) by (unfold from; lia).
  intros E. apply (f_equal (@length A)) in E.
  rewrite length_firstn, length_skipn in E.
  assert (Hl : length (x :: l) = Z.to_nat len) by (unfold len; lia).
  rewrite Hl in E. change (length (@nil A)) with 0 in E. lia.
Qed.

Lemma context_nonempty (history : list ChatMessage.t) :
  history <> [] -> buildConversationContext history <> [].
Proof.
  destruct history as [|msg history]; [contradiction|]. intros _.
  unfold buildConversationContext.
  pose proof (slice_last_nonempty msg history) as Hne.
  destruct (slice (msg :: history) (-6) None) as [|m recent]; [contradiction|].
  cbn [map]. intros E.
  assert (Hfirst : forall (x : list N) (l : list (list N)),
             x <> [] -> join [newline] (x :: l) <> []).
  { intros x [|y l] Hx; cbn [join]; [exact Hx|].
    destruct x; [contradiction|discriminate]. }
  revert E. apply Hfirst.
  destruct (str_eqb (ChatMessage.role m) (lit "user")); discriminate.
Qed.

(** X17.  The conversation in the prompts.  Only the last six messages of
    the history reach the generation call: a history that ends in six
    messages gives the conversation context, and the response, of these
    six alone.  And the user prompt is the bare query exactly when the
    history is empty. *)
Theorem conversation_window
        (host : Host.t) (query : list N) (fileId : option Z) :
  (forall older recent : list ChatMessage.t,
      length recent = 6 ->
      buildConversationContext (older ++ recent) = buildConversationContext recent
      /\ processQuery host query fileId (older ++ recent)
         = processQuery host query fileId recent)
  /\ (forall history : list ChatMessage.t,
         buildUserPrompt query (buildConversationContext history) = query
         <-> history = []).
Proof.
  split.
  - intros older recent H.
    assert (E : buildConversationContext (older ++ recent)
                = buildConversationContext recent).
    { unfold buildConversationContext.
      pose proof (slice_last6 [] recent H) as Hall. cbn [app] in Hall.
      rewrite (slice_last6 older recent H), Hall.
      destruct recent as [|msg recent]; [discriminate H|].
      destruct (older ++ msg :: recent) eqn:Eo; [|reflexivity].
      now destruct older. }
    split; [exact E|].
    unfold processQuery, tryProcessQuery, prompts. now rewrite E.
  - intros history. split.
    + intros E. destruct history as [|msg history]; [reflexivity|].
      exfalso. assert (Hne : msg :: history <> []) by discriminate.
      apply context_nonempty in Hne. unfold buildUserPrompt in E.
      destruct (buildConversationContext (msg :: history)); [contradiction|].
      cbn [nonEmpty] in E. apply (f_equal (@length N)) in E.
      rewrite !length_app in E. cbn [length app] in E. cbn in E. lia.
    + intros ->. reflexivity.
Qed.

Lemma conversation_window_witness :
  length (repeat (ChatMessage.mk (lit "user") (lit "again")) 6) = 6
  /\ buildConversationContext
       ([ChatMessage.mk (lit "assistant") (lit "first")]
          ++ repeat (ChatMessage.mk (lit "user") (lit "again")) 6)
     = buildConversationContext (repeat (ChatMessage.mk (lit "user") (lit "again")) 6).
Proof.
  split; [reflexivity|].
  exact (proj1 (proj1 (conversation_window failingHost [] None)
                  [ChatMessage.mk (lit "assistant") (lit "first")]
                  (repeat (ChatMessage.mk (lit "user") (lit "again")) 6) eq_refl)).
Defined.

End Answers.

(* ================================================================== *)
(** * Properties of the renderers *)

Module Renderers.
Import JsFacts FileProcessor AIAgentManager Statements Notions Files.
Import TableRenderer ChartRenderer.

(** ** exportToCSV *)

Lemma dropWhile_nil (p : N -> bool) (s : list N) :
  dropWhile p s = [] -> forall c, In c s -> p c = true.
Proof.
  induction s as [|a s IH]; intros E c Hin; [contradiction|].
  cbn [dropWhile] in E. destruct (p a) eqn:Ea; [|discriminate E].
  destruct Hin as [<-|Hin]; [exact Ea|now apply IH].
Qed.

Lemma trim_nonblank (s : list N) (c : N) :
  In c s -> isWhiteSpace c = false -> trim s <> [].
Proof.
  intros Hin Hc E. unfold trim in E.
  apply (f_equal (@rev N)) in E. rewrite rev_involutive in E. cbn [rev] in E.
  pose proof (dropWhile_nil _ _ E) as Hall.
  assert (Hd : dropWhile isWhiteSpace s = []).
  { destruct (dropWhile isWhiteSpace s) as [|a rest] eqn:Ed; [reflexivity|].
    pose proof (dropWhile_head isWhiteSpace s a rest Ed) as Ha.
    rewrite (Hall a) in Ha; [discriminate Ha|].
    apply in_rev. rewrite rev_involutive. now left. }
  rewrite (dropWhile_nil _ _ Hd c Hin) in Hc. discriminate Hc.
Qed.

Lemma filter_all {A : Type} (f : A -> bool) (l : list A) :
  Forall (fun x => f x = true) l -> filter f l = l.
Proof.
  induction 1 as [|x l Hx _ IH]; [reflexivity|].
  cbn [filter]. now rewrite Hx, IH.
Qed.

Lemma headerCell_clean (h : list N) : cleanHeader h -> headerCell h = h.
Proof.
  intros (Htrim & Hquote & _). rewrite Ingestion.headerCell_filter, Htrim.
  apply filter_all. rewrite Forall_forall. intros c Hc.
  destruct (char_eqb c 34) eqn:E; [|reflexivity].
  apply char_eqb_eq in E. subst c. contradiction.
Qed.

Lemma join_without (sep : N) (c : N) (l : list (list N)) :
  c <> sep -> Forall (fun piece => ~ In c piece) l -> ~ In c (join [sep] l).
Proof.
  intros Hsep. induction 1 as [|x l Hx Hl IH]; [intros []|].
  destruct l as [|y l]; [exact Hx|].
  change (join [sep] (x :: y :: l)) with (x ++ sep :: join [sep] (y :: l)).
  intros Hin. apply in_app_or in Hin.
  destruct Hin as [Hin|[Hin|Hin]]; [now apply Hx|now apply Hsep|now apply IH].
Qed.

Lemma export_import (headers : list (list N)) (rows : list (list (list N)))
      (size : N) :
  Forall cleanHeader headers ->
  (exists h, In h headers /\ h <> []) ->
  Forall oneLineRow rows ->
  csvInfo (processCsvFile (csvContent headers rows) size)
  = Some (CsvStructure.mk (Some headers) (Z.of_nat (length rows)) (length headers)
                          (lit ",")).
Proof.
  intros Hclean (h0 & Hin0 & Hne0) Hrows.
  set (headerLine := join (lit ",") headers).
  set (rowLines := map (fun row => join (lit ",") (map (fun cell => quoted cell) row))
                       rows).
  assert (Hnl : Forall (fun line => ~ In newline line) (headerLine :: rowLines)).
  { constructor.
    - apply join_without; [discriminate|].
      eapply Forall_impl; [|exact Hclean]. now intros h (_ & _ & _ & H).
    - unfold rowLines. rewrite Forall_map.
      eapply Forall_impl; [|exact Hrows]. intros row [_ Hcells].
      apply join_without; [discriminate|]. rewrite Forall_map.
      eapply Forall_impl; [|exact Hcells]. intros cell Hcell.
      unfold quoted. intros H. apply in_app_or in H.
      destruct H as [[H|[]]|H]; [discriminate H|].
      apply in_app_or in H. destruct H as [H|[H|[]]]; [now apply Hcell|discriminate H]. }
  assert (Hkeep : Forall (fun line => nonEmpty (trim line) = true)
                         (headerLine :: rowLines)).
  { constructor.
    - assert (Hh0 : trim h0 = h0).
      { rewrite Forall_forall in Hclean. now destruct (Hclean h0 Hin0). }
      destruct h0 as [|c h0]; [contradiction|].
      assert (Hc : isWhiteSpace c = false).
      { pose proof (Extraction.trim_trimmed (c :: h0)) as [Hfirst _].
        rewrite Hh0 in Hfirst. exact Hfirst. }
      assert (Hin : In c headerLine).
      { unfold headerLine. clear - Hin0.
        induction headers as [|x l IH]; [contradiction|].
        destruct l as [|y l].
        - destruct Hin0 as [->|[]]. now left.
        - change (join (lit ",") (x :: y :: l))
            with (x ++ lit "," ++ join (lit ",") (y :: l)).
          apply in_or_app. destruct Hin0 as [->|Hin0]; [left; now left|].
          right. apply in_or_app. right. now apply IH. }
      pose proof (trim_nonblank _ _ Hin Hc) as Hne.
      now destruct (trim headerLine).
    - unfold rowLines. rewrite Forall_map.
      eapply Forall_impl; [|exact Hrows]. intros row [Hne _].
      destruct row as [|cell row]; [contradiction|].
      assert (Hin : In 34%N (join (lit ",") (map (fun cell => quoted cell) (cell :: row)))).
      { cbn [map]. destruct (map (fun cell0 => quoted cell0) row); now left. }
      pose proof (trim_nonblank _ _ Hin eq_refl) as Hne'.
      now destruct (trim (join (lit ",") (map (fun cell0 => quoted cell0) (cell :: row)))). }
  assert (Hlines : nonBlankLines (csvContent headers rows) = headerLine :: rowLines).
  { unfold nonBlankLines, csvContent. fold headerLine. fold rowLines.
    rewrite split_join; [|discriminate|exact Hnl]. now apply filter_all. }
  assert (Hcells : map headerCell (split (ch ",") headerLine) = headers).
  { unfold headerLine. change (lit ",") with [ch ","].
    rewrite split_join.
    - rewrite <- (map_id headers) at 2. apply map_ext_in. intros h Hh.
      apply headerCell_clean. rewrite Forall_forall in Hclean. now apply Hclean.
    - intros E. rewrite E in Hin0. contradiction.
    - eapply Forall_impl; [|exact Hclean]. now intros h (_ & _ & H & _). }
  unfold csvInfo, processCsvFile. rewrite Hlines. cbn [nth_error].
  cbn [ProcessedFileData.structure]. rewrite Hcells. cbn [lengthOrZero].
  do 2 f_equal. cbn [length]. unfold rowLines. rewrite length_map. lia.
Qed.

Lemma response_tables (text : list N) (processedData : option ProcessedFileData.t)
      (tables : list TableData.t) :
  AgentResponse.tables (parseAIResponse text processedData) = Some tables ->
  Forall (tableExtracted processedData) tables.
Proof.
  rewrite Pipeline.parse_tables. intros E. injection E as <-.
  exact (proj2 (Extraction.flat_map_singletons _ _ _
                  (Extraction.table_matches_extracted processedData text))).
Qed.

(** X18.  Export and import.  A table whose headers are clean (no white
    space at either end, no double quote, comma or newline, and not all of
    them empty) and whose rows each have a cell and no newline exports to
    a csv text that the csv reader takes back with the same headers, one
    row per table row and one column per header.  Every table of every
    response is such a table. *)
Theorem export_then_import :
  (forall (headers : list (list N)) (rows : list (list (list N))) (size : N),
      Forall cleanHeader headers ->
      (exists h, In h headers /\ h <> []) ->
      Forall oneLineRow rows ->
      csvInfo (processCsvFile (csvContent headers rows) size)
      = Some (CsvStructure.mk (Some headers) (Z.of_nat (length rows))
                              (length headers) (lit ",")))
  /\ (forall (text : list N) (processedData : option ProcessedFileData.t)
             (tables : list TableData.t) (table : TableData.t) (size : N),
         AgentResponse.tables (parseAIResponse text processedData) = Some tables ->
         In table tables ->
         csvInfo (processCsvFile (exportToCSV table) size)
         = Some (CsvStructure.mk (Some (TableData.headers table))
                                 (Z.of_nat (length (TableData.rows table)))
                                 (length (TableData.headers table)) (lit ","))).
Proof.
  split; [exact export_import|].
  intros text processedData tables table size Htables Hin.
  pose proof (response_tables _ _ _ Htables) as Hall.
  rewrite Forall_forall in Hall.
  destruct (Hall table Hin) as (_ & _ & _ & _ & Hh & Hr).
  unfold exportToCSV. rewrite Hh, Hr.
  destruct processedData as [[[] ? ? ? ?]|];
    cbn [generateTableData ProcessedFileData.type fst snd];
    vm_compute; reflexivity.
Qed.

Lemma export_then_import_witness :
  Forall cleanHeader [lit "city"; lit "count"]
  /\ (exists h, In h [lit "city"; lit "count"] /\ h <> [])
  /\ Forall oneLineRow [[lit "Oslo"; lit "3"]; [lit "Rome, Italy"; lit "5"]]
  /\ csvInfo (processCsvFile
                (csvContent [lit "city"; lit "count"]
                            [[lit "Oslo"; lit "3"]; [lit "Rome, Italy"; lit "5"]]) 40)
     = Some (CsvStructure.mk (Some [lit "city"; lit "count"]) 2 2 (lit ",")).
Proof.
  assert (H1 : Forall cleanHeader [lit "city"; lit "count"]).
  { repeat constructor; try reflexivity; intros H; vm_compute in H;
      intuition discriminate. }
  assert (H2 : exists h, In h [lit "city"; lit "count"] /\ h <> []).
  { exists (lit "city"). split; [now left|discriminate]. }
  assert (H3 : Forall oneLineRow [[lit "Oslo"; lit "3"]; [lit "Rome, Italy"; lit "5"]]).
  { repeat constructor; try discriminate; intros H; vm_compute in H;
      intuition discriminate. }
  split; [exact H1|]. split; [exact H2|]. split; [exact H3|].
  exact (proj1 export_then_import _ _ 40%N H1 H2 H3).
Defined.

(** ** chartData *)

Lemma str_eqb_refl (a : list N) : str_eqb a a = true.
Proof. now apply str_eqb_eq. Qed.

Lemma lookup_setOwn_same (key : list N) (v : value) (o : object) :
  lookup key (setOwn key v o) = Some v.
Proof.
  induction o as [|[k w] o IH]; cbn [setOwn lookup].
  - now rewrite str_eqb_refl.
  - destruct (str_eqb k key) eqn:E; cbn [lookup]; now rewrite E.
Qed.

Lemma lookup_setOwn_other (key key' : list N) (v : value) (o : object) :
  key <> key' -> lookup key' (setOwn key v o) = lookup key' o.
Proof.
  intros Hne. induction o as [|[k w] o IH]; cbn [setOwn lookup].
  - apply str_eqb_neq in Hne. now rewrite Hne.
  - destruct (str_eqb k key) eqn:E; cbn [lookup].
    + apply str_eqb_eq in E. subst k.
      apply str_eqb_neq in Hne. now rewrite Hne.
    + now rewrite IH.
Qed.

Lemma lookup_assign_same (key : list N) (v : value) (o : object) :
  key <> lit "__proto__" -> lookup key (assign key v o) = Some v.
Proof.
  intros Hne. unfold assign. apply str_eqb_neq in Hne. rewrite Hne.
  apply lookup_setOwn_same.
Qed.

Lemma lookup_assign_other (key key' : list N) (v : value) (o : object) :
  key <> key' -> lookup key' (assign key v o) = lookup key' o.
Proof.
  intros Hne. unfold assign.
  destruct (str_eqb key (lit "__proto__")); [reflexivity|].
  now apply lookup_setOwn_other.
Qed.

(** No assignment makes an own property [__proto__]. *)
Lemma lookup_assign_proto (key : list N) (v : value) (o : object) :
  lookup (lit "__proto__") (assign key v o) = lookup (lit "__proto__") o.
Proof.
  unfold assign. destruct (str_eqb key (lit "__proto__")) eqn:E; [reflexivity|].
  apply str_eqb_neq in E. now apply lookup_setOwn_other.
Qed.

Lemma lookup_forEach_proto (index : nat) :
  forall (datasets : list Dataset.t) (start : nat) (o : object),
    lookup (lit "__proto__") (forEachDataset datasets start index o)
    = lookup (lit "__proto__") o.
Proof.
  induction datasets as [|dataset rest IH]; intros start o; [reflexivity|].
  cbn [forEachDataset]. rewrite IH. apply lookup_assign_proto.
Qed.

Lemma lookup_forEach_other (key : list N) (index : nat) :
  forall (datasets : list Dataset.t) (start : nat) (o : object),
    ~ In key (dataKeys datasets start) ->
    lookup key (forEachDataset datasets start index o) = lookup key o.
Proof.
  induction datasets as [|dataset rest IH]; intros start o Hout; [reflexivity|].
  cbn [forEachDataset dataKeys] in *. rewrite IH.
  - apply lookup_assign_other. intros E. apply Hout. now left.
  - intros Hin. apply Hout. now right.
Qed.

Lemma lookup_forEach_key (index : nat) :
  forall (datasets : list Dataset.t) (start j : nat) (dataset : Dataset.t) (o : object),
    NoDup (dataKeys datasets start) ->
    nth_error datasets j = Some dataset ->
    dataKey dataset (start + j) <> lit "__proto__" ->
    lookup (dataKey dataset (start + j)) (forEachDataset datasets start index o)
    = Some (Number (valueAt dataset index)).
Proof.
  induction datasets as [|first rest IH]; intros start j dataset o Hnodup Hj Hkey;
    [destruct j; discriminate Hj|].
  cbn [forEachDataset dataKeys] in *. inversion Hnodup as [|? ? Hout Hrest]; subst.
  destruct j as [|j].
  - injection Hj as ->. rewrite Nat.add_0_r in *.
    rewrite lookup_forEach_other by exact Hout. now apply lookup_assign_same.
  - cbn [nth_error] in Hj. replace (start + S j) with (S start + j) in * by lia.
    now apply IH.
Qed.

Lemma mapLabels_length (datasets : list Dataset.t) :
  forall (labels : list (list N)) (start : nat),
    length (mapLabels labels start datasets) = length labels.
Proof. induction labels as [|label rest IH]; intros start; cbn; [|rewrite IH]; reflexivity. Qed.

Lemma mapLabels_nth (datasets : list Dataset.t) :
  forall (labels : list (list N)) (start i : nat) (label : list N),
    nth_error labels i = Some label ->
    nth_error (mapLabels labels start datasets) i
    = Some (forEachDataset datasets 0 (start + i) [(lit "name", Text label)]).
Proof.
  induction labels as [|first rest IH]; intros start i label Hi;
    [destruct i; discriminate Hi|].
  destruct i as [|i]; cbn [mapLabels nth_error] in *.
  - injection Hi as ->. now rewrite Nat.add_0_r.
  - replace (start + S i) with (S start + i) by lia. now apply IH.
Qed.

Lemma chartData_lookup (data : ChartData.t) (i : nat) (label : list N) :
  NoDup (dataKeys (ChartData.datasets data) 0) ->
  ~ In (lit "name") (dataKeys (ChartData.datasets data) 0) ->
  nth_error (ChartData.labels data) i = Some label ->
  exists point,
    nth_error (chartData data) i = Some point
    /\ lookup (lit "name") point = Some (Text label)
    /\ lookup (lit "__proto__") point = None
    /\ forall j dataset,
        nth_error (ChartData.datasets data) j = Some dataset ->
        dataKey dataset j <> lit "__proto__" ->
        lookup (dataKey dataset j) point
        = Some (Number (nth i (Dataset.data dataset) 0%Z)).
Proof.
  intros Hnodup Hname Hi. eexists. split; [|split; [|split]].
  - unfold chartData. apply mapLabels_nth. exact Hi.
  - rewrite lookup_forEach_other by exact Hname. reflexivity.
  - rewrite lookup_forEach_proto. reflexivity.
  - intros j dataset Hj Hkey. cbn [Nat.add].
    exact (lookup_forEach_key i _ 0 j dataset _ Hnodup Hj Hkey).
Qed.

(** X19.  The rows handed to the charting library.  There is one data
    point per label, in order.  When the dataset keys (the dataset label,
    or Dataset n for the n-th dataset without one) are pairwise distinct
    and none is the word name, the data point of a label holds the label
    under name and, under the key of each dataset whose key is not
    __proto__, the value of that dataset at the position of the label, 0
    where it has none.  A dataset under the key __proto__ leaves nothing
    in the data point: no data point has a property __proto__ of its
    own. *)
Theorem chartData_faithful (data : ChartData.t) :
  length (chartData data) = length (ChartData.labels data)
  /\ (NoDup (dataKeys (ChartData.datasets data) 0) ->
      ~ In (lit "name") (dataKeys (ChartData.datasets data) 0) ->
      forall i label,
        nth_error (ChartData.labels data) i = Some label ->
        exists point,
          nth_error (chartData data) i = Some point
          /\ lookup (lit "name") point = Some (Text label)
          /\ lookup (lit "__proto__") point = None
          /\ forall j dataset,
              nth_error (ChartData.datasets data) j = Some dataset ->
              dataKey dataset j <> lit "__proto__" ->
              lookup (dataKey dataset j) point
              = Some (Number (nth i (Dataset.data dataset) 0%Z))).
Proof.
  split; [apply mapLabels_length|].
  intros Hnodup Hname i label. now apply chartData_lookup.
Qed.

Lemma chartData_faithful_witness :
  exists point,
    nth_error (chartData (ChartData.mk [lit "Mon"; lit "Tue"]
                                       [Dataset.mk (lit "hits") [4%Z];
                                        Dataset.mk [] [7%Z; 9%Z];
                                        Dataset.mk (lit "__proto__") [1%Z; 1%Z]])) 1
    = Some point
    /\ lookup (lit "name") point = Some (Text (lit "Tue"))
    /\ lookup (lit "__proto__") point = None
    /\ forall j dataset,
        nth_error [Dataset.mk (lit "hits") [4%Z]; Dataset.mk [] [7%Z; 9%Z];
                   Dataset.mk (lit "__proto__") [1%Z; 1%Z]] j
        = Some dataset ->
        dataKey dataset j <> lit "__proto__" ->
        lookup (dataKey dataset j) point
        = Some (Number (nth 1 (Dataset.data dataset) 0%Z)).
Proof.
  apply (proj2 (chartData_faithful
                  (ChartData.mk [lit "Mon"; lit "Tue"]
                                [Dataset.mk (lit "hits") [4%Z];
                                 Dataset.mk [] [7%Z; 9%Z];
                                 Dataset.mk (lit "__proto__") [1%Z; 1%Z]]))).
  - vm_compute. repeat constructor; intros H; cbn in H; intuition discriminate.
  - intros H. vm_compute in H. intuition discriminate.
  - reflexivity.
Defined.

Lemma dataKeys_labels :
  forall (datasets : list Dataset.t) (start : nat),
    Forall (fun dataset => Dataset.label dataset <> []) datasets ->
    dataKeys datasets start = map Dataset.label datasets.
Proof.
  induction datasets as [|dataset rest IH]; intros start Hall; [reflexivity|].
  inversion Hall as [|? ? Hne Hrest]; subst. cbn [dataKeys map].
  rewrite IH by exact Hrest. f_equal. unfold dataKey.
  destruct (Dataset.label dataset); [contradiction|reflexivity].
Qed.

Lemma skipn_cons {A : Type} (d : A) :
  forall (n : nat) (l : list A) (v : A) (t : list A),
    skipn n l = v :: t -> nth n l d = v /\ skipn (S n) l = t.
Proof.
  induction n as [|n IH]; intros [|a l] v t E; try discriminate E.
  - cbn in E. injection E as -> ->. split; reflexivity.
  - cbn [skipn] in E. destruct (IH l v t E) as [Hv Ht]. split; [exact Hv|exact Ht].
Qed.

Lemma mapPie_combine (first : Dataset.t) (rest : list Dataset.t) :
  forall (labels : list (list N)) (start : nat),
    length (skipn start (Dataset.data first)) = length labels ->
    mapPie labels start (first :: rest)
    = combine labels (skipn start (Dataset.data first)).
Proof.
  induction labels as [|label labels IH]; intros start Hlen; [reflexivity|].
  destruct (skipn start (Dataset.data first)) as [|v t] eqn:E; [discriminate Hlen|].
  destruct (skipn_cons 0%Z _ _ _ _ E) as [Hv Ht].
  cbn [mapPie combine]. unfold valueAt. rewrite Hv. f_equal.
  rewrite IH; rewrite Ht; [reflexivity|]. cbn [length] in Hlen. lia.
Qed.

Lemma payload_wellformed (chartType : list N)
      (processedData : option ProcessedFileData.t) :
  let payload := generateVisualizationData chartType processedData in
  chartUniform payload
  /\ ChartData.datasets payload <> []
  /\ NoDup (map Dataset.label (ChartData.datasets payload))
  /\ ~ In (lit "name") (map Dataset.label (ChartData.datasets payload))
  /\ ~ In (lit "__proto__") (map Dataset.label (ChartData.datasets payload))
  /\ Forall (fun dataset => Dataset.label dataset <> []) (ChartData.datasets payload).
Proof.
  cbv zeta. unfold generateVisualizationData, chartUniform.
  destruct processedData as [[[] ? ? ? ?]|];
    cbn [ProcessedFileData.type];
    unfold generateLogVisualizationData, generateCSVVisualizationData,
           generateDefaultVisualizationData;
    Payloads.by_chart_kind chartType; cbn [ChartData.datasets ChartData.labels];
    (split; [repeat constructor|]);
    (split; [discriminate|]);
    (split; [Payloads.distinct_literals|]);
    (split; [intros H; vm_compute in H; intuition discriminate|]);
    (split; [intros H; vm_compute in H; intuition discriminate|]);
    repeat constructor; discriminate.
Qed.

(** X20.  Every synthesized payload reaches the chart whole.  Whatever the
    chart kind and the file, the rows built from the synthesized payload
    hold, for each label and each dataset, the label under name and the
    value the dataset has for that label under the dataset label; and the
    pie rows pair each label with the value of the first dataset. *)
Theorem synthesized_payload_rendered
        (chartType : list N) (processedData : option ProcessedFileData.t) :
  let payload := generateVisualizationData chartType processedData in
  length (chartData payload) = length (ChartData.labels payload)
  /\ (forall i label j dataset,
         nth_error (ChartData.labels payload) i = Some label ->
         nth_error (ChartData.datasets payload) j = Some dataset ->
         exists point value,
           nth_error (chartData payload) i = Some point
           /\ lookup (lit "name") point = Some (Text label)
           /\ nth_error (Dataset.data dataset) i = Some value
           /\ lookup (Dataset.label dataset) point = Some (Number value))
  /\ (exists first,
         hd_error (ChartData.datasets payload) = Some first
         /\ pieData payload
            = combine (ChartData.labels payload) (Dataset.data first)).
Proof.
  cbv zeta.
  destruct (payload_wellformed chartType processedData)
    as (Huniform & Hne & Hnodup & Hname & Hproto & Hlabels).
  set (payload := generateVisualizationData chartType processedData) in *.
  pose proof (dataKeys_labels _ 0 Hlabels) as Hkeys.
  split; [apply mapLabels_length|]. split.
  - intros i label j dataset Hi Hj.
    destruct (chartData_lookup payload i label) as (point & Hpoint & Hn & _ & Hv);
      [now rewrite Hkeys|now rewrite Hkeys|exact Hi|].
    assert (Hin : In dataset (ChartData.datasets payload))
      by (eapply nth_error_In; exact Hj).
    unfold chartUniform in Huniform. rewrite Forall_forall in Huniform.
    pose proof (Huniform dataset Hin) as Hlen.
    assert (Hi' : i < length (Dataset.data dataset)).
    { rewrite Hlen. apply nth_error_Some. now rewrite Hi. }
    exists point, (nth i (Dataset.data dataset) 0%Z).
    split; [exact Hpoint|]. split; [exact Hn|].
    split; [now apply nth_error_nth'|].
    assert (Ekey : dataKey dataset j = Dataset.label dataset).
    { unfold dataKey. rewrite Forall_forall in Hlabels.
      specialize (Hlabels dataset Hin).
      destruct (Dataset.label dataset); [contradiction|reflexivity]. }
    rewrite <- Ekey. apply (Hv j dataset Hj). rewrite Ekey.
    intros E. apply Hproto. rewrite <- E. now apply in_map.
  - destruct (ChartData.datasets payload) as [|first rest] eqn:Ed; [contradiction|].
    exists first. split; [reflexivity|].
    unfold pieData. rewrite Ed.
    unfold chartUniform in Huniform. rewrite Ed in Huniform.
    inversion Huniform as [|? ? Hlen _]; subst.
    now apply mapPie_combine.
Qed.

End Renderers.

(* ================================================================== *)
(** * Properties of the storage code, the routes and the sidebar *)

Module Routes.
Import JsFacts FileProcessor AIAgentManager Statements Notions Files.
Import Replace FileStorageManager UploadRoute.

(** ** The stored file name *)

Lemma replace_class (p : N -> bool) (by_ : list N) :
  forall (s : list N) (prev : option N),
    replace_from (Cls p) by_ prev 0 s
    = flat_map (fun c => if p c then by_ else [c]) s.
Proof.
  induction s as [|c s IH]; intros prev; [reflexivity|].
  cbn [replace_from flat_map]. unfold exec_at. cbn [run].
  destruct (p c).
  - replace (length (c :: s) - length s) with 1 by (cbn [length]; lia).
    now rewrite IH.
  - now rewrite IH.
Qed.

Lemma sanitized (filename : list N) :
  replace_g unsafePattern (lit "_") filename
  = map (fun c => if isPlain c then c else ch "_") filename.
Proof.
  unfold replace_g, unsafePattern. rewrite replace_class.
  induction filename as [|c s IH]; [reflexivity|].
  cbn [flat_map map]. rewrite IH. now destruct (isPlain c).
Qed.

Lemma uint_digits (d : Decimal.uint) :
  Forall (fun c => isDigit c = true) (lit (NilZero.string_of_uint d)).
Proof.
  assert (H : forall u, Forall (fun c => isDigit c = true)
                               (lit (NilEmpty.string_of_uint u))).
  { induction u; cbn; constructor; (reflexivity || assumption). }
  unfold NilZero.string_of_uint. destruct d; try apply H.
  repeat constructor.
Qed.

Lemma showN_digits (n : N) : Forall (fun c => isDigit c = true) (showN n).
Proof. apply uint_digits. Qed.

(** X21.  The name a file is stored under.  It is the timestamp in decimal,
    an underscore, and the file name with every code unit outside
    a-z, A-Z, 0-9, dot and hyphen replaced by one underscore.  So it has
    the digits of the timestamp, one more code unit and as many as the
    file name; it consists of these plain code units and underscores only
    (no slash, no backslash); a file name of such code units is kept as it
    is; and sanitizing twice changes nothing more. *)
Theorem stored_name_is_safe (timestamp : N) (filename : list N) :
  let plain c := isPlain c = true \/ c = ch "_" in
  let sanitize := map (fun c => if isPlain c then c else ch "_") in
  safeFilename timestamp filename
  = showN timestamp ++ lit "_" ++ sanitize filename
  /\ length (safeFilename timestamp filename)
     = length (showN timestamp) + 1 + length filename
  /\ Forall plain (safeFilename timestamp filename)
  /\ ~ In (ch "/") (safeFilename timestamp filename)
  /\ ~ In 92%N (safeFilename timestamp filename)
  /\ (Forall plain filename ->
      safeFilename timestamp filename = showN timestamp ++ lit "_" ++ filename)
  /\ safeFilename timestamp (sanitize filename) = safeFilename timestamp filename.
Proof.
  cbv zeta.
  assert (E : safeFilename timestamp filename
              = showN timestamp ++ lit "_"
                ++ map (fun c => if isPlain c then c else ch "_") filename).
  { unfold safeFilename. now rewrite sanitized. }
  assert (Hall : Forall (fun c => isPlain c = true \/ c = ch "_")
                        (safeFilename timestamp filename)).
  { rewrite E. apply Forall_app. split; [|apply Forall_app; split].
    - eapply Forall_impl; [|apply showN_digits]. intros c Hc. left.
      unfold isPlain. unfold isDigit in Hc. rewrite Hc.
      now rewrite !orb_true_r.
    - constructor; [now right|constructor].
    - rewrite Forall_map. rewrite Forall_forall. intros c _.
      destruct (isPlain c) eqn:Ec; [now left|now right]. }
  assert (Hnot : forall c, isPlain c = false -> c <> ch "_" ->
                           ~ In c (safeFilename timestamp filename)).
  { intros c Hc Hu Hin. rewrite Forall_forall in Hall.
    destruct (Hall c Hin) as [H|H]; [congruence|contradiction]. }
  split; [exact E|]. split.
  { rewrite E, !length_app, length_map. cbn [length lit]. cbn. lia. }
  split; [exact Hall|].
  split; [apply Hnot; [reflexivity|discriminate]|].
  split; [apply Hnot; [reflexivity|discriminate]|].
  split.
  - intros Hplain. rewrite E. do 2 f_equal.
    rewrite <- (map_id filename) at 2. apply map_ext_in. intros c Hc.
    rewrite Forall_forall in Hplain.
    destruct (Hplain c Hc) as [H| ->]; [now rewrite H|reflexivity].
  - unfold safeFilename. rewrite !sanitized, map_map. do 2 f_equal.
    apply map_ext. intros c. now destruct (isPlain c) eqn:Ec; [rewrite Ec|].
Qed.

Lemma stored_name_is_safe_witness :
  Forall (fun c => isPlain c = true \/ c = ch "_") (lit "sales-2024.csv")
  /\ safeFilename 1700000000000 (lit "sales-2024.csv")
     = showN 1700000000000 ++ lit "_" ++ lit "sales-2024.csv".
Proof.
  assert (H : Forall (fun c => isPlain c = true \/ c = ch "_") (lit "sales-2024.csv")).
  { repeat constructor; left; reflexivity. }
  split; [exact H|].
  exact (proj1 (proj2 (proj2 (proj2 (proj2 (proj2
           (stored_name_is_safe 1700000000000 (lit "sales-2024.csv"))))))) H).
Defined.

(** ** The upload route *)

Lemma includes_In (a : list (list N)) (x : list N) :
  includes a x = true <-> In x a.
Proof.
  unfold includes. rewrite existsb_exists. split.
  - intros (y & Hin & E). apply str_eqb_eq in E. now subst.
  - intros Hin. exists x. split; [exact Hin|now apply str_eqb_eq].
Qed.

Lemma uploadOne_answers {W : Type} (sys : Sys.t W) (file : File.t) (w : W) :
  answersFor sys file (fst (uploadOne sys file w)).
Proof.
  unfold uploadOne.
  destruct (includes ALLOWED_TYPES (getFileExtension sys (File.name file))) eqn:Ei;
    cbn [negb]; [|reflexivity].
  destruct (N.ltb_spec MAX_FILE_SIZE (File.size file)) as [Hbig|Hfits]; [reflexivity|].
  destruct (File.arrayBuffer file) as [buffer|error]; [|reflexivity].
  destruct (saveFile sys userId (File.name file) buffer w) as [[filePath|error] w1];
    [|reflexivity].
  destruct (Sys.saveFileRecord sys userId (File.name file) filePath
                           (getFileExtension sys (File.name file)) (File.size file) w1)
    as [[fileRecord|error] w2]; [|reflexivity].
  cbn [fst answersFor]. repeat split; try reflexivity.
  - now apply includes_In.
  - exact Hfits.
Qed.

Lemma uploadOne_name {W : Type} (sys : Sys.t W) (file : File.t) (w : W) :
  resultName (fst (uploadOne sys file w)) = File.name file.
Proof.
  pose proof (uploadOne_answers sys file w) as H.
  destruct (fst (uploadOne sys file w)); cbn in *; tauto.
Qed.

(** X22.  The results of an upload.  There is one result per file, in the
    order of the files, each under the name of its file.  A file is
    reported stored only with its own size and extension, the extension
    being one of log, csv, xlsx and txt and the size at most 200 MB.  No
    files at all are answered by the bad-request error, the world left as
    it was. *)
Theorem upload_results_in_order {W : Type} (sys : Sys.t W)
        (files : list File.t) (w : W) :
  Forall2 (answersFor sys) files (fst (uploadAll sys files w))
  /\ map resultName (fst (uploadAll sys files w)) = map File.name files
  /\ match files with
     | [] => POST sys files w = (BadRequest (lit "No files provided"), w)
     | _ => POST sys files w
            = (Results (fst (uploadAll sys files w)), snd (uploadAll sys files w))
     end.
Proof.
  split; [|split].
  - revert w. induction files as [|file rest IH]; intros w; [constructor|].
    cbn [uploadAll]. pose proof (uploadOne_answers sys file w) as H1.
    destruct (uploadOne sys file w) as [uploaded w1].
    specialize (IH w1). destruct (uploadAll sys rest w1) as [others w2].
    now constructor.
  - revert w. induction files as [|file rest IH]; intros w; [reflexivity|].
    cbn [uploadAll]. pose proof (uploadOne_name sys file w) as H1.
    destruct (uploadOne sys file w) as [uploaded w1].
    specialize (IH w1). destruct (uploadAll sys rest w1) as [others w2].
    cbn [fst map] in *. now rewrite H1, IH.
  - destruct files as [|file rest]; [reflexivity|].
    unfold POST. now destruct (uploadAll sys (file :: rest) w).
Qed.

(** X23.  Validation comes first and touches nothing.  When every file has
    an extension outside log, csv, xlsx and txt or is larger than 200 MB,
    each is refused (for its type when the extension is not allowed, for
    its size otherwise) and the disk, the database and the console are
    left exactly as they were. *)
Theorem upload_validation_first {W : Type} (sys : Sys.t W)
        (files : list File.t) (w : W) :
  Forall (invalidFile sys) files ->
  uploadAll sys files w = (map (refusal sys) files, w).
Proof.
  induction 1 as [|file rest Hfile _ IH]; [reflexivity|].
  cbn [uploadAll map].
  assert (E : uploadOne sys file w = (refusal sys file, w)).
  { unfold uploadOne, refusal.
    destruct (includes ALLOWED_TYPES (getFileExtension sys (File.name file))) eqn:Ei;
      cbn [negb]; [|reflexivity].
    destruct Hfile as [Hout|Hbig]; [apply includes_In in Ei; contradiction|].
    unfold MAX_FILE_SIZE. apply N.ltb_lt in Hbig. now rewrite Hbig. }
  now rewrite E, IH.
Qed.

Lemma upload_validation_first_witness :
  Forall (invalidFile sampleSys)
         [File.mk (lit "notes.pdf") 10 (Ok []);
          File.mk (lit "huge.csv") (200 * 1024 * 1024 + 1) (Ok [])]
  /\ uploadAll sampleSys
               [File.mk (lit "notes.pdf") 10 (Ok []);
                File.mk (lit "huge.csv") (200 * 1024 * 1024 + 1) (Ok [])]
               ([], [])
     = ([Refused (lit "notes.pdf") (lit "Unsupported file type: pdf");
         Refused (lit "huge.csv") (lit "File size exceeds 200MB limit")],
        ([], [])).
Proof.
  assert (H : Forall (invalidFile sampleSys)
                     [File.mk (lit "notes.pdf") 10 (Ok []);
                      File.mk (lit "huge.csv") (200 * 1024 * 1024 + 1) (Ok [])]).
  { constructor; [|constructor; [|constructor]].
    - left. intros Hin. vm_compute in Hin. intuition discriminate.
    - right. vm_compute. reflexivity. }
  split; [exact H|].
  rewrite (upload_validation_first sampleSys _ ([], []) H). reflexivity.
Defined.

(** ** The processing route *)

(** X24.  The processing route.  An id the store does not know is answered
    404.  A stored file of type txt, log, csv or xlsx whose read and size
    lookup succeed is answered 200 with the data of the record, the
    processed file (of the stored type) and its summary.  A stored file
    of any other type, or a store lookup that throws, is answered 500 with
    the error logged. *)
Theorem process_route_outcome (host : Host.t) (fileId : Z) :
  (Host.getFile host fileId = Ok None -> ProcessRoute.GET host fileId = ProcessRoute.NotFound)
  /\ (forall error,
         Host.getFile host fileId = Throw error ->
         ProcessRoute.GET host fileId = ProcessRoute.Failed error)
  /\ (forall file content size,
         Host.getFile host fileId = Ok (Some file) ->
         readFileSync (Host.fs host) (FileRecord.file_path file) = Ok content ->
         statSyncSize (Host.fs host) (FileRecord.file_path file) = Ok size ->
         (In (FileRecord.file_type file) [lit "txt"; lit "log"; lit "csv"; lit "xlsx"] ->
          exists processed summary,
            ProcessRoute.GET host fileId
            = ProcessRoute.Processed (FileRecord.id file) (FileRecord.filename file)
                                     (FileRecord.file_type file)
                                     (FileRecord.file_size file) processed summary
            /\ processFile (Host.fs host) (FileRecord.file_path file)
                           (FileRecord.file_type file) = Ok processed
            /\ generateSummary processed = Ok summary
            /\ typeName (ProcessedFileData.type processed) = FileRecord.file_type file)
         /\ (~ In (FileRecord.file_type file) [lit "txt"; lit "log"; lit "csv"; lit "xlsx"] ->
             ProcessRoute.GET host fileId
             = ProcessRoute.Failed (UnsupportedFileType (FileRecord.file_type file)))).
Proof.
  unfold ProcessRoute.GET. split; [|split].
  - intros H. now rewrite H.
  - intros error H. now rewrite H.
  - intros file content size Hget Hread Hstat. rewrite Hget. cbn [bind]. split.
    + intros Hin.
      destruct (processFile_supported _ _ _ _ _ Hread Hstat Hin)
        as (processed & Hfile & _ & Htype & _).
      destruct (generateSummary_processed _ _ _ _ Hfile) as [summary Hsum].
      exists processed, summary. rewrite Hfile. cbn [bind]. rewrite Hsum.
      repeat split; assumption.
    + intros Hout.
      now rewrite (processFile_unsupported _ _ _ _ _ Hread Hstat Hout).
Qed.

Lemma process_route_outcome_witness :
  Host.getFile jsonHost 2%Z = Ok (Some jsonRecord)
  /\ ~ In (FileRecord.file_type jsonRecord) [lit "txt"; lit "log"; lit "csv"; lit "xlsx"]
  /\ ProcessRoute.GET jsonHost 2%Z
     = ProcessRoute.Failed (UnsupportedFileType (lit "json")).
Proof.
  assert (H : ~ In (FileRecord.file_type jsonRecord)
                   [lit "txt"; lit "log"; lit "csv"; lit "xlsx"]).
  { intros Hin. vm_compute in Hin. intuition discriminate. }
  split; [reflexivity|]. split; [exact H|].
  exact (proj2 (proj2 (proj2 (process_route_outcome jsonHost 2%Z))
                      jsonRecord sampleCsvText 17%N eq_refl eq_refl eq_refl) H).
Defined.

(** ** The sidebar *)

Lemma hours_of (elapsed : Z) :
  (3600000 * (elapsed / 3600000) <= elapsed < 3600000 * (elapsed / 3600000) + 3600000)%Z.
Proof.
  pose proof (Z.div_mod elapsed 3600000 ltac:(lia)) as H.
  pose proof (Z.mod_pos_bound elapsed 3600000 ltac:(lia)) as Hm. lia.
Qed.

Lemma days_of (hours : Z) :
  (24 * (hours / 24) <= hours < 24 * (hours / 24) + 24)%Z.
Proof.
  pose proof (Z.div_mod hours 24 ltac:(lia)) as H.
  pose proof (Z.mod_pos_bound hours 24 ltac:(lia)) as Hm. lia.
Qed.

(** X25.  The age of a conversation in the sidebar, by the milliseconds
    elapsed since its date: Just now below one hour (and for a date in the
    future); 1 hour ago below two hours; n hours ago, n the whole hours
    elapsed, from 2 to 23, below one day; 1 day ago below two days; n days
    ago, n the whole days elapsed, from 2 to 6, below seven days; and the
    date as the locale writes it from seven days on. *)
Theorem formatDate_ranges (now date : Z) :
  let elapsed := (now - date)%Z in
  ((elapsed < 3600000)%Z ->
   Sidebar.formatDate now date = Sidebar.Label (lit "Just now"))
  /\ ((3600000 <= elapsed < 7200000)%Z ->
      Sidebar.formatDate now date = Sidebar.Label (lit "1 hour ago"))
  /\ ((7200000 <= elapsed < 86400000)%Z ->
      exists n, (2 <= n <= 23)%Z
                /\ (n * 3600000 <= elapsed < (n + 1) * 3600000)%Z
                /\ Sidebar.formatDate now date
                   = Sidebar.Label (showZ n ++ lit " hours ago"))
  /\ ((86400000 <= elapsed < 172800000)%Z ->
      Sidebar.formatDate now date = Sidebar.Label (lit "1 day ago"))
  /\ ((172800000 <= elapsed < 604800000)%Z ->
      exists n, (2 <= n <= 6)%Z
                /\ (n * 86400000 <= elapsed < (n + 1) * 86400000)%Z
                /\ Sidebar.formatDate now date
                   = Sidebar.Label (showZ n ++ lit " days ago"))
  /\ ((604800000 <= elapsed)%Z ->
      Sidebar.formatDate now date = Sidebar.LocaleDate date).
Proof.
  cbv zeta. unfold Sidebar.formatDate.
  change (1000 * 60 * 60)%Z with 3600000%Z.
  pose proof (hours_of (now - date)) as Hh.
  pose proof (days_of ((now - date) / 3600000)) as Hd.
  set (hours := ((now - date) / 3600000)%Z) in *.
  set (days := (hours / 24)%Z) in *.
  repeat split.
  - intros H. destruct (Z.ltb_spec hours 1); [reflexivity|lia].
  - intros H. assert (E : hours = 1%Z) by lia. now rewrite E.
  - intros H. exists hours.
    split; [lia|]. split; [lia|].
    destruct (Z.ltb_spec hours 1); [lia|].
    destruct (Z.ltb_spec hours 24); [|lia].
    destruct (Z.ltb_spec 1 hours); [|lia]. reflexivity.
  - intros H. assert (E : days = 1%Z) by lia.
    destruct (Z.ltb_spec hours 1); [lia|].
    destruct (Z.ltb_spec hours 24); [lia|]. now rewrite E.
  - intros H. exists days.
    split; [lia|]. split; [lia|].
    destruct (Z.ltb_spec hours 1); [lia|].
    destruct (Z.ltb_spec hours 24); [lia|].
    destruct (Z.ltb_spec days 7); [|lia].
    destruct (Z.ltb_spec 1 days); [|lia]. reflexivity.
  - intros H.
    destruct (Z.ltb_spec hours 1); [lia|].
    destruct (Z.ltb_spec hours 24); [lia|].
    destruct (Z.ltb_spec days 7); [lia|]. reflexivity.
Qed.

Lemma formatDate_ranges_witness :
  (7200000 <= 1700000000000 - 1699990000000 < 86400000)%Z
  /\ exists n, (2 <= n <= 23)%Z
               /\ (n * 3600000 <= 1700000000000 - 1699990000000 < (n + 1) * 3600000)%Z
               /\ Sidebar.formatDate 1700000000000 1699990000000
                  = Sidebar.Label (showZ n ++ lit " hours ago").
Proof.
  assert (H : (7200000 <= 1700000000000 - 1699990000000 < 86400000)%Z) by lia.
  split; [exact H|].
  exact (proj1 (proj2 (proj2 (formatDate_ranges 1700000000000 1699990000000))) H).
Defined.

End Routes.

(* ================================================================== *)
(** * Properties of the chat route *)

Module Conversations.
Import JsFacts FileProcessor AIAgentManager Statements Notions.
Import DatabaseManager ChatRoute.

Lemma update_absent (env : ChatEnv.t) (cid : Z) (messages : list StoredMessage.t) :
  forall conversations,
    getConversation cid conversations = None ->
    updateConversationHistory env cid messages conversations = conversations.
Proof.
  unfold getConversation, updateConversationHistory.
  induction conversations as [|row rest IH]; intros H; [reflexivity|].
  cbn [find map] in *.
  destruct (Conversation.id row =? cid)%Z; [discriminate H|]. now rewrite IH.
Qed.

Lemma update_found (env : ChatEnv.t) (cid : Z) (messages : list StoredMessage.t) :
  forall conversations conversation,
    getConversation cid conversations = Some conversation ->
    getConversation cid (updateConversationHistory env cid messages conversations)
    = Some (Conversation.mk (Conversation.id conversation)
                            (Conversation.user_id conversation)
                            (Conversation.file_id conversation)
                            (Conversation.title conversation)
                            (ChatEnv.JSON_stringify env messages)
                            (Conversation.created_at conversation)
                            (ChatEnv.CURRENT_TIMESTAMP env)).
Proof.
  unfold getConversation, updateConversationHistory.
  induction conversations as [|row rest IH]; intros conversation H; [discriminate H|].
  cbn [find map] in *.
  destruct (Conversation.id row =? cid)%Z eqn:E.
  - injection H as <-. cbn [find Conversation.id]. now rewrite E.
  - cbn [find]. rewrite E. now apply IH.
Qed.

Lemma update_other (env : ChatEnv.t) (cid other : Z) (messages : list StoredMessage.t) :
  other <> cid ->
  forall conversations,
    getConversation other (updateConversationHistory env cid messages conversations)
    = getConversation other conversations.
Proof.
  intros Hne. unfold getConversation, updateConversationHistory.
  induction conversations as [|row rest IH]; [reflexivity|].
  cbn [find map].
  destruct (Conversation.id row =? cid)%Z eqn:E.
  - cbn [Conversation.id]. apply Z.eqb_eq in E.
    destruct (Z.eqb_spec (Conversation.id row) other) as [E'|_]; [congruence|].
    exact IH.
  - destruct (Conversation.id row =? other)%Z; [reflexivity|exact IH].
Qed.

Lemma nonblank (message : list N) :
  trim message <> [] -> negb (nonEmpty (trim message)) = false.
Proof. destruct (trim message); [contradiction|reflexivity]. Qed.

Lemma truthy (cid : Z) : cid <> 0%Z -> truthyId (Some cid) = Some cid.
Proof. destruct cid; [contradiction|reflexivity|reflexivity]. Qed.

Lemma post_recorded (env : ChatEnv.t) (message : list N) (cid : Z) (fileId : option Z)
      (conversations : list Conversation.t) (conversation : Conversation.t)
      (history : list StoredMessage.t) :
  trim message <> [] ->
  cid <> 0%Z ->
  getConversation cid conversations = Some conversation ->
  ChatEnv.JSON_parse env (Conversation.history_json conversation) = Ok history ->
  let outcome :=
    processQuery (ChatEnv.host env) message fileId (map toChatMessage history) in
  let assistant := assistantMessageOf env (fst outcome) in
  let recorded := history ++ [userMessageOf env message; assistant] in
  POST env (Some message) (Some cid) fileId conversations
  = (Reply assistant (Some cid), snd outcome,
     updateConversationHistory env cid recorded conversations).
Proof.
  intros Hmsg Hcid Hfound Hparse. cbv zeta. unfold POST, loadHistory.
  rewrite (nonblank _ Hmsg), (truthy _ Hcid), Hfound, Hparse.
  now destruct (processQuery (ChatEnv.host env) message fileId
                             (map toChatMessage history)).
Qed.

(** X26.  A turn of a conversation is recorded.  For a non-blank message, a
    conversation id other than 0 that the table has, and a stored history
    that parses, the route answers 200 with the assistant message built
    from the response of processQuery on the stored history (whether the
    generation succeeded or failed), logs what processQuery logged, and
    rewrites the history of that conversation as the old history followed
    by the user message and the assistant message.  The title of the
    conversation, the number of conversations and every other conversation
    stay as they were. *)
Theorem chat_turn_recorded
        (env : ChatEnv.t) (message : list N) (cid : Z) (fileId : option Z)
        (conversations : list Conversation.t) (conversation : Conversation.t)
        (history : list StoredMessage.t) :
  trim message <> [] ->
  cid <> 0%Z ->
  getConversation cid conversations = Some conversation ->
  ChatEnv.JSON_parse env (Conversation.history_json conversation) = Ok history ->
  let outcome :=
    processQuery (ChatEnv.host env) message fileId (map toChatMessage history) in
  let assistant := assistantMessageOf env (fst outcome) in
  let recorded := history ++ [userMessageOf env message; assistant] in
  exists conversations',
    POST env (Some message) (Some cid) fileId conversations
    = (Reply assistant (Some cid), snd outcome, conversations')
    /\ StoredMessage.content assistant = AgentResponse.content (fst outcome)
    /\ option_map Conversation.history_json (getConversation cid conversations')
       = Some (ChatEnv.JSON_stringify env recorded)
    /\ option_map Conversation.title (getConversation cid conversations')
       = Some (Conversation.title conversation)
    /\ length conversations' = length conversations
    /\ (forall other, other <> cid ->
                      getConversation other conversations'
                      = getConversation other conversations).
Proof.
  intros Hmsg Hcid Hfound Hparse. cbv zeta.
  eexists. split; [exact (post_recorded env _ _ fileId _ _ _ Hmsg Hcid Hfound Hparse)|].
  split; [reflexivity|].
  rewrite (update_found env cid _ _ _ Hfound). cbn [option_map Conversation.history_json
                                                     Conversation.title].
  split; [reflexivity|]. split; [reflexivity|]. split.
  - unfold updateConversationHistory. apply length_map.
  - intros other Hother. now apply update_other.
Qed.

Lemma chat_turn_recorded_witness :
  exists conversations',
    POST sampleEnv (Some (lit "Hello")) (Some 5%Z) None [sampleConversation]
    = (Reply sampleAssistant (Some 5%Z), [], conversations')
    /\ StoredMessage.content sampleAssistant = lit "Fine."
    /\ option_map Conversation.history_json (getConversation 5%Z conversations')
       = Some (ChatEnv.JSON_stringify sampleEnv [sampleUser; sampleAssistant])
    /\ option_map Conversation.title (getConversation 5%Z conversations')
       = Some (lit "First chat")
    /\ length conversations' = 1
    /\ (forall other, other <> 5%Z ->
                      getConversation other conversations'
                      = getConversation other [sampleConversation]).
Proof.
  assert (Hmsg : trim (lit "Hello") <> []) by (vm_compute; discriminate).
  assert (Hcid : 5%Z <> 0%Z) by discriminate.
  exact (chat_turn_recorded sampleEnv (lit "Hello") 5%Z None [sampleConversation]
           sampleConversation [] Hmsg Hcid eq_refl eq_refl).
Defined.

(** X27.  The second turn sees the first.  When the history written by one
    turn reads back as written, the next turn of the same conversation
    hands processQuery the old history followed by the user message and
    the assistant message of the first turn, and the stored history ends
    up four messages longer than the old one. *)
Theorem second_turn_sees_first
        (env : ChatEnv.t) (first second : list N) (cid : Z) (fileId : option Z)
        (conversations : list Conversation.t) (conversation : Conversation.t)
        (history : list StoredMessage.t) :
  trim first <> [] ->
  trim second <> [] ->
  cid <> 0%Z ->
  getConversation cid conversations = Some conversation ->
  ChatEnv.JSON_parse env (Conversation.history_json conversation) = Ok history ->
  let answer1 :=
    assistantMessageOf env
      (fst (processQuery (ChatEnv.host env) first fileId (map toChatMessage history))) in
  let seen := history ++ [userMessageOf env first; answer1] in
  ChatEnv.JSON_parse env (ChatEnv.JSON_stringify env seen) = Ok seen ->
  let outcome2 :=
    processQuery (ChatEnv.host env) second fileId (map toChatMessage seen) in
  let answer2 := assistantMessageOf env (fst outcome2) in
  exists logged1 conversations1 conversations2,
    POST env (Some first) (Some cid) fileId conversations
    = (Reply answer1 (Some cid), logged1, conversations1)
    /\ POST env (Some second) (Some cid) fileId conversations1
       = (Reply answer2 (Some cid), snd outcome2, conversations2)
    /\ option_map Conversation.history_json (getConversation cid conversations2)
       = Some (ChatEnv.JSON_stringify env
                 (history ++ [userMessageOf env first; answer1;
                              userMessageOf env second; answer2])).
Proof.
  intros H1 H2 Hcid Hfound Hparse. cbv zeta. intros Hback.
  pose proof (post_recorded env _ _ fileId _ _ _ H1 Hcid Hfound Hparse) as E1.
  cbv zeta in E1.
  pose proof (update_found env cid
                (history ++ [userMessageOf env first;
                             assistantMessageOf env
                               (fst (processQuery (ChatEnv.host env) first fileId
                                                  (map toChatMessage history)))])
                _ _ Hfound) as Hfound1.
  pose proof (post_recorded env second cid fileId _ _ _ H2 Hcid Hfound1 Hback) as E2.
  cbv zeta in E2.
  eexists. eexists. eexists. split; [exact E1|]. split; [exact E2|].
  rewrite (update_found env cid _ _ _ Hfound1). cbn [option_map Conversation.history_json].
  now rewrite <- app_assoc.
Qed.

Lemma second_turn_sees_first_witness :
  exists logged1 conversations1 conversations2,
    POST sampleEnv (Some (lit "Hello")) (Some 5%Z) None [sampleConversation]
    = (Reply sampleAssistant (Some 5%Z), logged1, conversations1)
    /\ POST sampleEnv (Some (lit "And now?")) (Some 5%Z) None conversations1
       = (Reply sampleAssistant (Some 5%Z),
          snd (processQuery (ChatEnv.host sampleEnv) (lit "And now?") None
                            (map toChatMessage [sampleUser; sampleAssistant])),
          conversations2)
    /\ option_map Conversation.history_json (getConversation 5%Z conversations2)
       = Some (ChatEnv.JSON_stringify sampleEnv
                 ([] ++ [sampleUser; sampleAssistant;
                         userMessageOf sampleEnv (lit "And now?"); sampleAssistant])).
Proof.
  assert (H1 : trim (lit "Hello") <> []) by (vm_compute; discriminate).
  assert (H2 : trim (lit "And now?") <> []) by (vm_compute; discriminate).
  assert (Hcid : 5%Z <> 0%Z) by discriminate.
  exact (second_turn_sees_first sampleEnv (lit "Hello") (lit "And now?") 5%Z None
           [sampleConversation] sampleConversation [] H1 H2 Hcid
           eq_refl eq_refl eq_refl).
Defined.

(** X28.  When the chat route leaves the table alone.  A missing message, or
    one that is empty or all white space, is answered 400 with nothing
    logged and nothing processed.  Without a conversation id, with the
    conversation id 0, or with an id the table does not have, a non-blank
    message is answered from an empty history and the table stays exactly
    as it was.  A stored history that does not parse is answered 500, the
    table again as it was. *)
Theorem chat_leaves_table
        (env : ChatEnv.t) (fileId : option Z) (conversations : list Conversation.t) :
  (forall conversationId,
      POST env None conversationId fileId conversations
      = (BadRequest (lit "Message is required"), [], conversations))
  /\ (forall message conversationId,
         trim message = [] ->
         POST env (Some message) conversationId fileId conversations
         = (BadRequest (lit "Message is required"), [], conversations))
  /\ (forall message conversationId,
         trim message <> [] ->
         conversationId = None \/ conversationId = Some 0%Z
         \/ (exists cid, conversationId = Some cid
                         /\ getConversation cid conversations = None) ->
         POST env (Some message) conversationId fileId conversations
         = (Reply (assistantMessageOf env
                     (fst (processQuery (ChatEnv.host env) message fileId [])))
                  conversationId,
            snd (processQuery (ChatEnv.host env) message fileId []),
            conversations))
  /\ (forall message cid conversation error,
         trim message <> [] ->
         cid <> 0%Z ->
         getConversation cid conversations = Some conversation ->
         ChatEnv.JSON_parse env (Conversation.history_json conversation) = Throw error ->
         POST env (Some message) (Some cid) fileId conversations
         = (ServerError error, [error], conversations)).
Proof.
  split; [reflexivity|]. split; [|split].
  - intros message conversationId E. unfold POST. now rewrite E.
  - intros message conversationId Hmsg Hid. unfold POST, loadHistory.
    rewrite (nonblank _ Hmsg).
    destruct Hid as [->|[->|(cid & -> & Hnone)]]; cbn [truthyId map].
    + now destruct (processQuery (ChatEnv.host env) message fileId []).
    + now destruct (processQuery (ChatEnv.host env) message fileId []).
    + destruct cid as [|p|p]; cbn [truthyId map];
        try rewrite Hnone; cbn [map];
        destruct (processQuery (ChatEnv.host env) message fileId []);
        try reflexivity; now rewrite update_absent.
  - intros message cid conversation error Hmsg Hcid Hfound Hparse.
    unfold POST, loadHistory.
    now rewrite (nonblank _ Hmsg), (truthy _ Hcid), Hfound, Hparse.
Qed.

Lemma chat_leaves_table_witness :
  trim (lit "Hello") <> []
  /\ (exists cid, Some 9%Z = Some cid
                  /\ getConversation cid [sampleConversation] = None)
  /\ POST sampleEnv (Some (lit "Hello")) (Some 9%Z) None [sampleConversation]
     = (Reply sampleAssistant (Some 9%Z), [], [sampleConversation]).
Proof.
  assert (Hmsg : trim (lit "Hello") <> []) by (vm_compute; discriminate).
  assert (Hid : exists cid, Some 9%Z = Some cid
                            /\ getConversation cid [sampleConversation] = None).
  { exists 9%Z. split; reflexivity. }
  split; [exact Hmsg|]. split; [exact Hid|].
  exact (proj1 (proj2 (proj2 (chat_leaves_table sampleEnv None [sampleConversation])))
               (lit "Hello") (Some 9%Z) Hmsg (or_intror (or_intror Hid))).
Defined.

End Conversations.

(* ================================================================== *)
(** * Further properties of the log signals and of the summaries *)

Module Signals.
Import JsFacts ReFacts FileProcessor AIAgentManager Statements Notions Files.

Lemma run_wordCI (k : cont) (rest : list N) :
  forall (l : list ascii) (w : list N) (prev : option N),
    l <> [] ->
    Forall2 (fun a c => isCI a c = true) l w ->
    run (seq (map (fun a => Cls (isCI a)) l)) prev (w ++ rest) k
    = k (lastChar prev w) rest.
Proof.
  induction l as [|a l IH]; intros w prev Hne Hall; [contradiction|].
  inversion Hall as [|? c ? w' Hc Hrest]; subst.
  destruct l as [|b l].
  - inversion Hrest; subst. cbn [map seq run app]. now rewrite Hc.
  - change (seq (map (fun a0 => Cls (isCI a0)) (a :: b :: l)))
      with (Seq (Cls (isCI a)) (seq (map (fun a0 => Cls (isCI a0)) (b :: l)))).
    cbn [run app]. rewrite Hc. rewrite IH; [reflexivity|discriminate|exact Hrest].
Qed.

Lemma run_alt_in (r : regex) (prev : option N) (s : list N) (k : cont) (x : list N) :
  forall rs, In r rs -> run r prev s k = Some x ->
             exists y, run (alt rs) prev s k = Some y.
Proof.
  induction rs as [|r0 rs IH]; intros Hin Hrun; [contradiction|].
  destruct rs as [|r1 rs].
  - destruct Hin as [->|[]]. now exists x.
  - change (alt (r0 :: r1 :: rs)) with (Alt r0 (alt (r1 :: rs))). cbn [run].
    destruct (run r0 prev s k) as [y|] eqn:E0; [now exists y|].
    destruct Hin as [->|Hin]; [congruence|]. now apply IH.
Qed.

Lemma isCI_wordChar (a : ascii) (c : N) :
  between 65 90 (ch a) = true -> isCI a c = true -> isWordChar c = true.
Proof.
  unfold isCI, isWordChar, between, char_eqb. intros Hu Hc.
  apply andb_prop in Hu. destruct Hu as [Hlo Hhi].
  apply N.leb_le in Hlo, Hhi.
  assert (E : c = ch a \/ c = (ch a + 32)%N).
  { apply orb_prop in Hc. destruct Hc as [Hc|Hc].
    - apply orb_prop in Hc. destruct Hc as [Hc|Hc].
      + left. now apply N.eqb_eq.
      + apply andb_prop in Hc. right. now apply N.eqb_eq.
    - apply andb_prop in Hc. destruct Hc as [Hlow _].
      apply andb_prop in Hlow. destruct Hlow as [Hlow _].
      apply N.leb_le in Hlow. lia. }
  destruct E as [-> | ->].
  - assert (H1 : (65 <=? ch a)%N = true) by now apply N.leb_le.
    assert (H2 : (ch a <=? 90)%N = true) by now apply N.leb_le.
    rewrite H1, H2. cbn [andb orb]. now rewrite !orb_true_r.
  - assert (H1 : (97 <=? ch a + 32)%N = true) by (apply N.leb_le; lia).
    assert (H2 : (ch a + 32 <=? 122)%N = true) by (apply N.leb_le; lia).
    now rewrite H1, H2.
Qed.

Lemma spells_wordChars (l : list ascii) (w : list N) :
  Forall (fun a => between 65 90 (ch a) = true) l ->
  Forall2 (fun a c => isCI a c = true) l w ->
  Forall (fun c => isWordChar c = true) w.
Proof.
  intros Hup Hall. induction Hall as [|a c l w Hc _ IH]; [constructor|].
  inversion Hup; subst. constructor; [now apply isCI_wordChar with a|now apply IH].
Qed.

Lemma lastChar_wordChar (w : list N) (prev : option N) :
  w <> [] -> Forall (fun c => isWordChar c = true) w ->
  wordAt (lastChar prev w) = true.
Proof.
  revert prev. induction w as [|c w IH]; intros prev Hne Hall; [contradiction|].
  inversion Hall; subst. destruct w as [|d w]; [assumption|].
  apply (IH (Some c)); [discriminate|assumption].
Qed.

Lemma severity_upper (W : string) :
  In W severityWords ->
  list_ascii_of_string W <> []
  /\ Forall (fun a => between 65 90 (ch a) = true) (list_ascii_of_string W).
Proof.
  intros Hin. unfold severityWords in Hin. cbn [In] in Hin.
  destruct Hin as [<-|[<-|[<-|[<-|[<-|[<-|[]]]]]]];
    (split; [discriminate|repeat constructor]).
Qed.

Lemma level_found (W : string) (pre w post : list N) :
  In W severityWords -> spells W w -> wordPlace pre post ->
  test levelPattern (pre ++ w ++ post) = true.
Proof.
  intros Hin Hw [Hbefore Hafter].
  destruct (severity_upper W Hin) as [Hne Hup].
  pose proof (spells_wordChars _ _ Hup Hw) as Hchars.
  assert (Hwne : w <> []).
  { intros ->. inversion Hw as [E|]. now symmetry in E. }
  assert (Hword : run (wordCI W) (lastChar None pre) (w ++ post)
                      (fun p s' => run Bnd p s' (fun _ rest => Some rest))
                  = Some post).
  { unfold wordCI. rewrite (run_wordCI _ post _ w _ Hne Hw). cbn [run].
    rewrite (lastChar_wordChar w _ Hwne Hchars), Hafter. reflexivity. }
  destruct (run_alt_in (wordCI W) _ _ _ post (map wordCI severityWords)
              (in_map wordCI _ _ Hin) Hword) as [y Hy].
  unfold test. apply (Ingestion.test_from_found levelPattern pre (w ++ post) None y).
  change levelPattern
    with (Seq Bnd (Seq (alt (map wordCI severityWords)) Bnd)).
  cbn [run]. rewrite Hbefore.
  destruct w as [|c w]; [contradiction|]. inversion Hchars; subst.
  cbn [app hd_error wordAt]. 
  match goal with H : isWordChar c = true |- _ => rewrite H end.
  cbn [xorb]. exact Hy.
Qed.

Lemma rep_some (p : N -> bool) (k : cont) (rest x : list N) :
  forall (g : list N) (lo : nat) (hi : nat) (prev : option N),
    Forall (fun c => p c = true) g ->
    lo <= length g <= hi ->
    k (lastChar prev g) rest = Some x ->
    exists y, rep p lo (Some hi) prev (g ++ rest) k = Some y.
Proof.
  induction g as [|c g IH]; intros lo hi prev Hall Hlen Hk.
  - cbn [length] in Hlen. assert (lo = 0) by lia. subst lo.
    cbn [app lastChar fold_left] in *.
    destruct rest as [|c rest]; cbn [rep]; [now exists x|].
    destruct (p c && more (Some hi))%bool; [|now exists x].
    destruct (rep p (pred 0) (option_map pred (Some hi)) (Some c) rest k) as [r|];
      [now exists r|now exists x].
  - inversion Hall as [|? ? Hc Hg]; subst. cbn [length] in Hlen.
    destruct hi as [|hi]; [lia|].
    cbn [app rep]. rewrite Hc. cbn [more andb option_map pred].
    destruct (IH (pred lo) hi (Some c) Hg ltac:(lia) Hk) as [y Hy].
    rewrite Hy. now exists y.
Qed.

Lemma digits_wordChars (g : list N) :
  Forall (fun c => isDigit c = true) g -> Forall (fun c => isWordChar c = true) g.
Proof.
  apply Forall_impl. intros c Hc. unfold isWordChar.
  rewrite Hc. now rewrite orb_true_r.
Qed.

Lemma address_found (pre g1 g2 g3 g4 post : list N) :
  digitGroup g1 -> digitGroup g2 -> digitGroup g3 -> digitGroup g4 ->
  wordPlace pre post ->
  test ipPattern
       (pre ++ (g1 ++ lit "." ++ g2 ++ lit "." ++ g3 ++ lit "." ++ g4 ++ post))
  = true.
Proof.
  intros [L1 D1] [L2 D2] [L3 D3] [L4 D4] [Hbefore Hafter].
  assert (Hdot : forall (r : regex) (prev : option N) (s : list N) (k : cont),
             run (Seq (Lit ".") r) prev (lit "." ++ s) k = run r (Some (ch ".")) s k).
  { intros r prev s k. reflexivity. }
  assert (H4 : exists y, run (Seq (Rep isDigit 1 (Some 3)) Bnd) (Some (ch "."))
                             (g4 ++ post) (fun _ rest => Some rest) = Some y).
  { cbn [run]. apply rep_some with (x := post); [exact D4|exact L4|].
    cbn [run].
    rewrite (lastChar_wordChar g4 _ ltac:(destruct g4; [cbn in L4; lia|discriminate])
               (digits_wordChars _ D4)), Hafter.
    reflexivity. }
  destruct H4 as [y4 H4].
  assert (H3 : exists y, run (Seq (Rep isDigit 1 (Some 3))
                                  (Seq (Lit ".") (Seq (Rep isDigit 1 (Some 3)) Bnd)))
                             (Some (ch ".")) (g3 ++ lit "." ++ g4 ++ post)
                             (fun _ rest => Some rest) = Some y).
  { cbn [run]. apply rep_some with (x := y4); [exact D3|exact L3|].
    exact H4. }
  destruct H3 as [y3 H3].
  assert (H2 : exists y, run (Seq (Rep isDigit 1 (Some 3))
                                  (Seq (Lit ".")
                                       (Seq (Rep isDigit 1 (Some 3))
                                            (Seq (Lit ".")
                                                 (Seq (Rep isDigit 1 (Some 3)) Bnd)))))
                             (Some (ch "."))
                             (g2 ++ lit "." ++ g3 ++ lit "." ++ g4 ++ post)
                             (fun _ rest => Some rest) = Some y).
  { cbn [run]. apply rep_some with (x := y3); [exact D2|exact L2|].
    exact H3. }
  destruct H2 as [y2 H2].
  assert (H1 : exists y, run ipPattern (lastChar None pre)
                             (g1 ++ lit "." ++ g2 ++ lit "." ++ g3 ++ lit "." ++ g4 ++ post)
                             (fun _ rest => Some rest) = Some y).
  { unfold ipPattern. cbn [seq]. cbn [run]. rewrite Hbefore.
    destruct g1 as [|c g1]; [cbn in L1; lia|].
    pose proof (digits_wordChars _ D1) as W1. inversion W1; subst.
    cbn [app hd_error wordAt].
    match goal with H : isWordChar c = true |- _ => rewrite H end.
    cbn [xorb].
    change (c :: g1 ++ lit "." ++ g2 ++ lit "." ++ g3 ++ lit "." ++ g4 ++ post)
      with ((c :: g1) ++ lit "." ++ g2 ++ lit "." ++ g3 ++ lit "." ++ g4 ++ post).
    apply rep_some with (x := y2); [exact D1|exact L1|].
    exact H2. }
  destruct H1 as [y1 H1].
  unfold test. exact (Ingestion.test_from_found ipPattern pre _ None y1 H1).
Qed.

(** X29.  The signals of a log file.  hasLogLevels is set whenever the
    content contains one of the words ERROR, WARN, INFO, DEBUG, TRACE and
    FATAL, in any mix of upper and lower case, standing as a whole word;
    hasIpAddresses is set whenever it contains four groups of one to three
    digits separated by dots, standing as a whole word, whatever the
    numbers (a group may exceed 255). *)
Theorem log_signals_detected (size : N) :
  (forall (W : string) (pre w post : list N),
      In W severityWords -> spells W w -> wordPlace pre post ->
      option_map LogStructure.hasLogLevels
                 (logInfo (processLogFile (pre ++ w ++ post) size))
      = Some true)
  /\ (forall pre g1 g2 g3 g4 post : list N,
         digitGroup g1 -> digitGroup g2 -> digitGroup g3 -> digitGroup g4 ->
         wordPlace pre post ->
         option_map LogStructure.hasIpAddresses
                    (logInfo (processLogFile
                                (pre ++ g1 ++ lit "." ++ g2 ++ lit "." ++ g3
                                     ++ lit "." ++ g4 ++ post) size))
         = Some true).
Proof.
  split.
  - intros W pre w post Hin Hw Hplace. unfold logInfo, processLogFile.
    cbn [ProcessedFileData.structure option_map LogStructure.hasLogLevels].
    f_equal. now apply level_found with W.
  - intros pre g1 g2 g3 g4 post H1 H2 H3 H4 Hplace. unfold logInfo, processLogFile.
    cbn [ProcessedFileData.structure option_map LogStructure.hasIpAddresses].
    f_equal. now apply address_found.
Qed.

Lemma log_signals_detected_witness :
  In "WARN"%string severityWords
  /\ spells "WARN" (lit "Warn")
  /\ wordPlace (lit "[") (lit "] host 999.1.22.333 down")
  /\ option_map LogStructure.hasLogLevels
                (logInfo (processLogFile
                            (lit "[" ++ lit "Warn" ++ lit "] host 999.1.22.333 down") 30))
     = Some true.
Proof.
  assert (H1 : In "WARN"%string severityWords) by (cbn; tauto).
  assert (H2 : spells "WARN" (lit "Warn")) by (repeat constructor).
  assert (H3 : wordPlace (lit "[") (lit "] host 999.1.22.333 down"))
    by (split; reflexivity).
  split; [exact H1|]. split; [exact H2|]. split; [exact H3|].
  exact (proj1 (log_signals_detected 30) "WARN"%string _ _ _ H1 H2 H3).
Defined.

(** X30.  The summary of a csv file.  With a header line, it gives the
    number of lines after the header as rows, the number of header cells
    as columns, and the first three headers, followed by three dots
    exactly when there are more than three.  Without any non-blank line it
    reads: -1 rows and 0 columns, headers undefined. *)
Theorem csv_summary (content : list N) (size : N) :
  (nonBlankLines content = [] ->
   generateSummary (processCsvFile content size)
   = Ok (lit "CSV file with -1 rows and 0 columns. Headers: undefined"))
  /\ (forall (line0 : list N) (others : list (list N)),
         nonBlankLines content = line0 :: others ->
         generateSummary (processCsvFile content size)
         = Ok (lit "CSV file with " ++ showZ (Z.of_nat (length others))
               ++ lit " rows and "
               ++ showN (N.of_nat (length (split (ch ",") line0)))
               ++ lit " columns. Headers: "
               ++ join (lit ", ") (firstn 3 (map headerCell (split (ch ",") line0)))
               ++ (if (3 <? length (split (ch ",") line0))%nat then lit "..." else []))).
Proof.
  split.
  - intros E. unfold processCsvFile. rewrite E. reflexivity.
  - intros line0 others E. unfold processCsvFile. rewrite E.
    cbn [nth_error]. unfold generateSummary.
    cbn [ProcessedFileData.type ProcessedFileData.structure ProcessedFileData.metadata
         CsvStructure.rows CsvStructure.columns CsvStructure.headers lengthOrZero].
    change (Some 3%Z) with (Some (Z.of_nat 3)). rewrite slice_firstn.
    rewrite length_map.
    replace (Z.of_nat (length (line0 :: others)) - 1)%Z
      with (Z.of_nat (length others)) by (cbn [length]; lia).
    reflexivity.
Qed.

Lemma csv_summary_witness :
  nonBlankLines sampleCsvText = lit "a,b,c" :: [lit "1,2,3"; lit "4,5,6"]
  /\ generateSummary sampleCsv
     = Ok (lit "CSV file with 2 rows and 3 columns. Headers: a, b, c").
Proof.
  assert (H : nonBlankLines sampleCsvText = lit "a,b,c" :: [lit "1,2,3"; lit "4,5,6"])
    by reflexivity.
  split; [exact H|].
  unfold sampleCsv. rewrite (proj2 (csv_summary sampleCsvText 17) _ _ H).
  reflexivity.
Defined.

End Signals.
